(** * MapaDeEquipamentos: the topology store, its HTTP routes and the canvas

    A shallow embedding of
    - [backEnd/src/validators.ts] (the zod schemas),
    - [backEnd/src/db.ts] (the two tables [ensureSchema] declares),
    - [backEnd/src/routes.ts] (one function per route, over an explicit store),
    - [frontEnd/src/components/Topology/TopologyCanvas.tsx] (selection,
      search and the create-link form),
    followed by the properties of the specification stated over them.

    JavaScript values are dynamically typed: a request body, the object zod
    returns, a row handed back by [pg] are all values of one type [val], and
    an absent property ([undefined]) is [None : option val]. *)

From Stdlib Require Import Floats Ascii String.
From stdpp Require Import gmap strings list fin_maps sorting.

Local Open Scope string_scope.
Local Open Scope list_scope.
#[local] Set Warnings "-clear-no-such-hyp".

(** ** JavaScript values *)

#[warnings="-register-all"] Inductive val :=
| Null
| Bool (b : bool)
| Num (f : float)          (* a JS number is an IEEE 754 binary64 *)
| Str (s : string)
| Date (t : Z)             (* what pg returns for a timestamptz *)
| Arr (l : list val)
| Obj (m : gmap string val).

(** [a ?? b] *)
Definition nullish (a : option val) (b : option val) : option val :=
  match a with
  | None | Some Null => b
  | Some v => Some v
  end.
Infix "??" := nullish (at level 45, left associativity).

(** An object literal [{k1: e1, ...}] as it is serialised by [res.json]: a
    property whose value is [undefined] is left out. *)
Definition properties (fields : list (string * option val)) : gmap string val :=
  list_to_map (omap (λ kv, pair kv.1 <$> kv.2) fields).

Definition object (fields : list (string * option val)) : val :=
  Obj (properties fields).

(** [Number(v)] on what the [x] and [y] columns can hold. The columns are
    [double precision], which pg hands back as a number or as [null]. *)
Definition Number (v : option val) : option val :=
  match v with
  | Some (Num f) => Some (Num f)
  | Some Null => Some (Num 0%float)
  | Some (Bool b) => Some (Num (if b then 1%float else 0%float))
  | _ => Some (Num PrimFloat.nan)
  end.

(** *** Strings

    Strings are sequences of one-byte characters; the case mapping and the
    white space below are those of the ASCII range. *)

Definition lower (c : ascii) : ascii :=
  let n := nat_of_ascii c in
  if (65 <=? n)%nat && (n <=? 90)%nat then ascii_of_nat (n + 32) else c.

Fixpoint toLowerCase (s : string) : string :=
  match s with
  | EmptyString => EmptyString
  | String c s' => String (lower c) (toLowerCase s')
  end.

Definition white_space (c : ascii) : bool :=
  let n := nat_of_ascii c in
  ((9 <=? n)%nat && (n <=? 13)%nat) || (n =? 32)%nat.

Fixpoint trimStart (s : string) : string :=
  match s with
  | String c s' => if white_space c then trimStart s' else s
  | EmptyString => EmptyString
  end.

Fixpoint trimEnd (s : string) : string :=
  match s with
  | EmptyString => EmptyString
  | String c s' =>
      match trimEnd s' with
      | EmptyString => if white_space c then EmptyString else String c EmptyString
      | t => String c t
      end
  end.

Definition trim (s : string) : string := trimEnd (trimStart s).

Fixpoint startsWith (s q : string) : bool :=
  match q, s with
  | EmptyString, _ => true
  | String a q', String b s' => bool_decide (a = b) && startsWith s' q'
  | String _ _, EmptyString => false
  end.

(** [s.includes(q)] *)
Fixpoint includes (s q : string) : bool :=
  startsWith s q ||
  match s with
  | EmptyString => false
  | String _ s' => includes s' q
  end.

(** ** validators.ts *)

Module Zod.

Inductive ZodIssueCode := invalid_type | too_small | invalid_enum_value | invalid_string.

Record ZodIssue := { code : ZodIssueCode; path : list string }.

Inductive SafeParseReturnType (A : Type) :=
| success (data : A)
| failure (error : list ZodIssue).
Arguments success {A} data.
Arguments failure {A} error.

(** The uuid pattern belongs to the zod release in use, not to this
    repository: it is a parameter of the development. *)
Class Pattern := { is_uuid : string → bool }.

(** A schema for one value. Its input may be [undefined], and so may its
    output. *)
Definition ZodType := option val → ZodIssueCode + option val.

(** [z.string().min(n)]; [z.string()] is [string 0]. *)
Definition string (min : nat) : ZodType := λ v,
  match v with
  | Some (Str s) => if (min <=? String.length s)%nat then inr (Some (Str s)) else inl too_small
  | _ => inl invalid_type
  end.

(** [z.string().uuid()] *)
Definition uuid `{Pattern} : ZodType := λ v,
  match v with
  | Some (Str s) => if is_uuid s then inr (Some (Str s)) else inl invalid_string
  | _ => inl invalid_type
  end.

(** [z.enum([...])] *)
Definition enum (values : list String.string) : ZodType := λ v,
  match v with
  | Some (Str s) => if bool_decide (s ∈ values) then inr (Some (Str s)) else inl invalid_enum_value
  | _ => inl invalid_type
  end.

(** [z.number()]: any number but NaN. *)
Definition number : ZodType := λ v,
  match v with
  | Some (Num f) => if PrimFloat.is_nan f then inl invalid_type else inr (Some (Num f))
  | _ => inl invalid_type
  end.

(** [.optional()] *)
Definition optional (t : ZodType) : ZodType := λ v,
  match v with
  | None => inr None
  | Some _ => t v
  end.

(** [z.object({...})]: the shape, in the order it is written. *)
Record ZodObject := { shape : list (String.string * ZodType) }.

(** [.partial()] *)
Definition partial (o : ZodObject) : ZodObject :=
  {| shape := prod_map id optional <$> shape o |}.

(** Parsing an object walks the shape, never the input: a key of the input
    that the shape does not name is not even looked at (zod's default
    "strip" mode; no schema of this repository asks for [.strict()]).
    Every failing key reports an issue; the parsed object holds the keys
    whose value is not [undefined], in shape order. *)
Fixpoint parse_shape (sh : list (String.string * ZodType)) (m : gmap String.string val)
  : list ZodIssue * list (String.string * val) :=
  match sh with
  | [] => ([], [])
  | (k, t) :: sh' =>
      let '(issues, data) := parse_shape sh' m in
      match t (m !! k) with
      | inl c => ({| code := c; path := [k] |} :: issues, data)
      | inr None => (issues, data)
      | inr (Some v) => (issues, (k, v) :: data)
      end
  end.

(** [schema.safeParse(body)]; the parsed object is given by its entries. *)
Definition safeParse (o : ZodObject) (body : val) : SafeParseReturnType (list (String.string * val)) :=
  match body with
  | Obj m =>
      match parse_shape (shape o) m with
      | ([], data) => success data
      | (issues, _) => failure issues
      end
  | _ => failure [{| code := invalid_type; path := [] |}]
  end.

(** [z.string().uuid().safeParse(req.params.id)] *)
Definition safeParse_uuid `{Pattern} (id : String.string) : SafeParseReturnType String.string :=
  if is_uuid id then success id else failure [{| code := invalid_string; path := [] |}].

End Zod.

Section validators.
Context `{Zod.Pattern}.

Definition deviceCreateSchema : Zod.ZodObject :=
  {| Zod.shape :=
      [ ("name", Zod.string 2);
        ("type", Zod.enum ["hub"; "switch"; "router"; "ap"; "server"]);
        ("ip", Zod.optional (Zod.string 0));
        ("status", Zod.optional (Zod.enum ["up"; "warn"; "down"]));
        ("x", Zod.optional Zod.number);
        ("y", Zod.optional Zod.number) ] |}.

Definition deviceUpdateSchema : Zod.ZodObject := Zod.partial deviceCreateSchema.

Definition devicePositionSchema : Zod.ZodObject :=
  {| Zod.shape := [ ("x", Zod.number); ("y", Zod.number) ] |}.

Definition linkCreateSchema : Zod.ZodObject :=
  {| Zod.shape :=
      [ ("fromId", Zod.uuid);
        ("toId", Zod.uuid);
        ("status", Zod.optional (Zod.enum ["up"; "warn"; "down"]));
        ("label", Zod.optional (Zod.string 0));
        ("fromHandle", Zod.optional (Zod.string 0));
        ("toHandle", Zod.optional (Zod.string 0)) ] |}.

Definition linkUpdateSchema : Zod.ZodObject :=
  Zod.partial
    {| Zod.shape :=
        [ ("status", Zod.optional (Zod.enum ["up"; "warn"; "down"]));
          ("label", Zod.optional (Zod.string 0));
          ("fromHandle", Zod.optional (Zod.string 0));
          ("toHandle", Zod.optional (Zod.string 0)) ] |}.
End validators.

(** ** db.ts: the store

    [ensureSchema] declares two tables; a store is their contents, each a
    list of rows in the order they were inserted. A row is what [pg] hands
    to the routes: an object from column names to values, where SQL NULL is
    [Null], [text] and [uuid] are strings, [double precision] is a number and
    [timestamptz] a date. The statements that routes.ts sends are functions
    on the store; the constraints of the tables are checked as PostgreSQL
    checks them and raise its error codes. *)

Module Pg.

Inductive DatabaseError :=
| unique_violation
| foreign_key_violation
| not_null_violation
| check_violation
| invalid_text_representation
| datatype_mismatch
| undefined_column
| undefined_object.

Definition code (e : DatabaseError) : string :=
  match e with
  | unique_violation => "23505"
  | foreign_key_violation => "23503"
  | not_null_violation => "23502"
  | check_violation => "23514"
  | invalid_text_representation => "22P02"
  | datatype_mismatch => "42804"
  | undefined_column => "42703"
  | undefined_object => "42704"
  end.

#[global] Instance query_ret : MRet (sum DatabaseError) := λ _ x, inr x.
#[global] Instance query_bind : MBind (sum DatabaseError) := λ _ _ f m,
  match m with inl e => inl e | inr x => f x end.

Inductive sqltype := uuid | text | double_precision | timestamptz.

(** One line of a CREATE TABLE: the column, its type, NOT NULL, and the
    values of its CHECK (... IN (...)) when it has one. *)
Record coldef := {
  col_name : string;
  col_type : sqltype;
  not_null : bool;
  check_in : option (list string)
}.

(** CREATE TABLE IF NOT EXISTS devices (...) *)
Definition devices_columns : list coldef :=
  [ {| col_name := "id"; col_type := uuid; not_null := true; check_in := None |};
    {| col_name := "name"; col_type := text; not_null := true; check_in := None |};
    {| col_name := "type"; col_type := text; not_null := true;
       check_in := Some ["hub"; "switch"; "router"; "ap"; "server"] |};
    {| col_name := "ip"; col_type := text; not_null := false; check_in := None |};
    {| col_name := "status"; col_type := text; not_null := true;
       check_in := Some ["up"; "warn"; "down"] |};
    {| col_name := "x"; col_type := double_precision; not_null := true; check_in := None |};
    {| col_name := "y"; col_type := double_precision; not_null := true; check_in := None |};
    {| col_name := "created_at"; col_type := timestamptz; not_null := true; check_in := None |} ].

(** CREATE TABLE IF NOT EXISTS links (...) *)
Definition links_columns : list coldef :=
  [ {| col_name := "id"; col_type := uuid; not_null := true; check_in := None |};
    {| col_name := "from_id"; col_type := uuid; not_null := true; check_in := None |};
    {| col_name := "to_id"; col_type := uuid; not_null := true; check_in := None |};
    {| col_name := "status"; col_type := text; not_null := true;
       check_in := Some ["up"; "warn"; "down"] |};
    {| col_name := "label"; col_type := text; not_null := false; check_in := None |};
    {| col_name := "from_handle"; col_type := text; not_null := false; check_in := None |};
    {| col_name := "to_handle"; col_type := text; not_null := false; check_in := None |};
    {| col_name := "created_at"; col_type := timestamptz; not_null := true; check_in := None |} ].

Record store := {
  devices : list (gmap string val);
  links : list (gmap string val)
}.

(** What the store draws for one INSERT: [gen_random_uuid()] and [now()]. *)
Record defaults := { gen_random_uuid : string; now : Z }.

(** Modelled from the spec: the enum types [device_type], [device_status]
    and [link_status] that the statements of routes.ts cast their parameters
    to. [ensureSchema] declares the columns as [text] with a CHECK and no
    file under src/ creates these types; their labels are the enumerations of
    the data model. *)
Definition pg_enum (type : string) : option (list string) :=
  if bool_decide (type = "device_type") then Some ["hub"; "switch"; "router"; "ap"; "server"]
  else if bool_decide (type = "device_status") then Some ["up"; "warn"; "down"]
  else if bool_decide (type = "link_status") then Some ["up"; "warn"; "down"]
  else None.

(** [v::type], for the types routes.ts casts to. NULL casts to NULL, a
    number is a [double precision], a string is an enum value when it is one
    of the labels. The routes bind validated values only, a number where the
    type is [double precision] and a string where it is an enum: the text of
    a number is never parsed here, and such a cast is answered 22P02. *)
Definition cast (v : val) (type : string) : DatabaseError + val :=
  if bool_decide (type = "double precision") then
    match v with
    | Null | Num _ => inr v
    | _ => inl invalid_text_representation
    end
  else
    match pg_enum type with
    | None => inl undefined_object
    | Some labels =>
        match v with
        | Null => inr Null
        | Str s => if bool_decide (s ∈ labels) then inr v else inl invalid_text_representation
        | _ => inl invalid_text_representation
        end
    end.

(** [COALESCE(a, b)] *)
Definition coalesce (a b : val) : val :=
  match a with Null => b | _ => a end.

(** [a = b] in a WHERE clause, on [uuid] and [text]: NULL equals nothing. *)
Definition sql_eq (a b : option val) : bool :=
  match a, b with
  | Some (Str x), Some (Str y) => bool_decide (x = y)
  | _, _ => false
  end.

(** The id drawn for an INSERT is not the id of a row of the table. *)
Definition fresh (g : defaults) (t : list (gmap string val)) : bool :=
  forallb (λ r, negb (sql_eq (r !! "id") (Some (Str (gen_random_uuid g))))) t.

(** The values of a column type, NULL apart. A value of another kind is
    refused (PostgreSQL would try to convert its text): the routes store
    validated values only. *)
Definition has_type (t : sqltype) (v : val) : bool :=
  match t, v with
  | uuid, Str _ | text, Str _ | double_precision, Num _ | timestamptz, Date _ => true
  | _, _ => false
  end.

Definition check_column (r : gmap string val) (c : coldef) : option DatabaseError :=
  match r !! col_name c with
  | None | Some Null => if not_null c then Some not_null_violation else None
  | Some v =>
      if negb (has_type (col_type c) v) then Some datatype_mismatch
      else match check_in c, v with
           | Some allowed, Str s =>
               if bool_decide (s ∈ allowed) then None else Some check_violation
           | _, _ => None
           end
  end.

(** The column constraints of a table on one row. *)
Definition check_row (cols : list coldef) (r : gmap string val) : DatabaseError + unit :=
  match omap (check_column r) cols with
  | e :: _ => inl e
  | [] => inr ()
  end.

(** The key of a row in a unique index. A key with a NULL component is no
    key at all: PostgreSQL never finds two NULLs equal in a unique index. *)
Fixpoint index_key (on : list string) (r : gmap string val) : option (list string) :=
  match on with
  | [] => Some []
  | c :: on' =>
      match r !! c with
      | Some (Str s) => cons s <$> index_key on' r
      | _ => None
      end
  end.

Definition conflicts (on : list string) (r : gmap string val) (others : list (gmap string val)) : bool :=
  match index_key on r with
  | Some k => bool_decide (Some k ∈ index_key on <$> others)
  | None => false
  end.

(** PRIMARY KEY (id), on both tables. *)
Definition pkey : list string := ["id"].
(** CREATE UNIQUE INDEX links_unique ON links (from_id, to_id, from_handle, to_handle) *)
Definition links_unique : list string := ["from_id"; "to_id"; "from_handle"; "to_handle"].

(** [REFERENCES devices(id)] *)
Definition references (ds : list (gmap string val)) (v : option val) : bool :=
  bool_decide (Exists (λ d, sql_eq v (d !! "id")) ds).

Definition fkeys_ok (ds : list (gmap string val)) (l : gmap string val) : bool :=
  references ds (l !! "from_id") && references ds (l !! "to_id").

(** [INSERT INTO devices (name, type, ip, status, x, y) VALUES ($1,
    $2::device_type, $3, COALESCE($4::device_status, 'up'::device_status),
    COALESCE($5::double precision, 0::double precision), COALESCE($6::double
    precision, 0::double precision)) RETURNING *] *)
Definition insert_into_devices (g : defaults) (p1 p2 p3 p4 p5 p6 : val) (s : store)
  : DatabaseError + (list (gmap string val) * store) :=
  type ← cast p2 "device_type";
  status ← cast p4 "device_status";
  up ← cast (Str "up") "device_status";
  x ← cast p5 "double precision";
  y ← cast p6 "double precision";
  zero ← cast (Num 0%float) "double precision";
  let r : gmap string val :=
    list_to_map
      [ ("id", Str (gen_random_uuid g)); ("name", p1); ("type", type); ("ip", p3);
        ("status", coalesce status up); ("x", coalesce x zero); ("y", coalesce y zero);
        ("created_at", Date (now g)) ] in
  _ ← check_row devices_columns r;
  if conflicts pkey r (devices s) then inl unique_violation
  else inr ([r], {| devices := devices s ++ [r]; links := links s |}).

(** [INSERT INTO links (from_id, to_id, status, label, from_handle,
    to_handle) VALUES ($1, $2, COALESCE($3::link_status, 'up'::link_status),
    $4, $5, $6) RETURNING *]. The unique indexes are checked when the row is
    inserted, the foreign keys when the statement ends. *)
Definition insert_into_links (g : defaults) (p1 p2 p3 p4 p5 p6 : val) (s : store)
  : DatabaseError + (list (gmap string val) * store) :=
  status ← cast p3 "link_status";
  up ← cast (Str "up") "link_status";
  let r : gmap string val :=
    list_to_map
      [ ("id", Str (gen_random_uuid g)); ("from_id", p1); ("to_id", p2);
        ("status", coalesce status up); ("label", p4); ("from_handle", p5);
        ("to_handle", p6); ("created_at", Date (now g)) ] in
  _ ← check_row links_columns r;
  if conflicts pkey r (links s) || conflicts links_unique r (links s) then inl unique_violation
  else if negb (fkeys_ok (devices s) r) then inl foreign_key_violation
  else inr ([r], {| devices := devices s; links := links s ++ [r] |}).

(** One [column=$n::type] of an UPDATE ... SET, with the parameter it
    refers to; [type] is [None] when the parameter is not cast. *)
Record assignment := { column : string; type : option string; value : val }.

Fixpoint set (cols : list coldef) (sets : list assignment) (r : gmap string val)
  : DatabaseError + gmap string val :=
  match sets with
  | [] => inr r
  | a :: sets' =>
      if bool_decide (column a ∈ col_name <$> cols) then
        v ← match type a with Some t => cast (value a) t | None => inr (value a) end;
        set cols sets' (<[column a := v]> r)
      else inl undefined_column
  end.

(** [UPDATE t SET sets WHERE id=$1]: every row, marked when it was updated.
    An updated row must satisfy the column constraints again. *)
Fixpoint update_where_id (cols : list coldef) (sets : list assignment) (id : val)
    (t : list (gmap string val)) : DatabaseError + list (bool * gmap string val) :=
  match t with
  | [] => inr []
  | r :: t' =>
      r' ← (if sql_eq (r !! "id") (Some id)
            then r' ← set cols sets r; _ ← check_row cols r'; inr (true, r')
            else inr (false, r));
      t'' ← update_where_id cols sets id t';
      inr (r' :: t'')
  end.

(** A unique index on the table after an UPDATE: an updated row must not
    share its key with another row. *)
Fixpoint index_ok (on : list string) (before : list (gmap string val))
    (after : list (bool * gmap string val)) : bool :=
  match after with
  | [] => true
  | (updated, r) :: rest =>
      (negb updated || negb (conflicts on r (before ++ rest.*2)))
      && index_ok on (before ++ [r]) rest
  end.

(** An index or a foreign key is looked at again only when the UPDATE
    assigns one of its columns. *)
Definition assigns (sets : list assignment) (cols : list string) : bool :=
  bool_decide (Exists (λ a, column a ∈ cols) sets).

(** [UPDATE devices SET ... WHERE id=$1 RETURNING *] *)
Definition update_devices (sets : list assignment) (id : val) (s : store)
  : DatabaseError + (list (gmap string val) * store) :=
  t ← update_where_id devices_columns sets id (devices s);
  if assigns sets pkey && negb (index_ok pkey [] t) then inl unique_violation
  else if assigns sets pkey
          && negb (forallb (λ l,
                     implb (references (devices s) (l !! "from_id")) (references t.*2 (l !! "from_id"))
                     && implb (references (devices s) (l !! "to_id")) (references t.*2 (l !! "to_id")))
                   (links s))
  then inl foreign_key_violation
  else inr ((filter (λ br, br.1 = true) t).*2, {| devices := t.*2; links := links s |}).

(** [UPDATE links SET ... WHERE id=$1 RETURNING *] *)
Definition update_links (sets : list assignment) (id : val) (s : store)
  : DatabaseError + (list (gmap string val) * store) :=
  t ← update_where_id links_columns sets id (links s);
  if assigns sets pkey && negb (index_ok pkey [] t) then inl unique_violation
  else if assigns sets links_unique && negb (index_ok links_unique [] t) then inl unique_violation
  else if assigns sets ["from_id"; "to_id"]
          && negb (forallb (λ br, negb br.1 || fkeys_ok (devices s) br.2) t)
  then inl foreign_key_violation
  else inr ((filter (λ br, br.1 = true) t).*2, {| devices := devices s; links := t.*2 |}).

(** The columns of a SELECT or RETURNING list. *)
Definition select (cols : list string) (r : gmap string val) : gmap string val :=
  filter (λ kv, kv.1 ∈ cols) r.

(** [DELETE FROM devices WHERE id=$1 RETURNING id]. Both foreign keys of
    links are ON DELETE CASCADE: a link that refers to a deleted device goes
    with it. *)
Definition delete_from_devices (id : val) (s : store) : list (gmap string val) * store :=
  let gone := filter (λ d, sql_eq (d !! "id") (Some id)) (devices s) in
  (select ["id"] <$> gone,
   {| devices := filter (λ d, ¬ sql_eq (d !! "id") (Some id)) (devices s);
      links := filter (λ l, ¬ (references gone (l !! "from_id") ∨ references gone (l !! "to_id")))
                      (links s) |}).

(** [DELETE FROM links WHERE id=$1 RETURNING id] *)
Definition delete_from_links (id : val) (s : store) : list (gmap string val) * store :=
  (select ["id"] <$> filter (λ l, sql_eq (l !! "id") (Some id)) (links s),
   {| devices := devices s;
      links := filter (λ l, ¬ sql_eq (l !! "id") (Some id)) (links s) |}).

(** [created_at] is NOT NULL in both tables. *)
Definition created_at (r : gmap string val) : Z :=
  match r !! "created_at" with
  | Some (Date t) => t
  | _ => 0
  end.

Definition created_at_le (a b : gmap string val) : Prop :=
  (created_at a ≤ created_at b)%Z.

#[global] Instance created_at_le_dec a b : Decision (created_at_le a b) :=
  Z_le_dec (created_at a) (created_at b).

(** [ORDER BY created_at ASC] *)
Definition order_by_created_at (t : list (gmap string val)) : list (gmap string val) :=
  merge_sort created_at_le t.

(** [SELECT * FROM t WHERE id=$1] *)
Definition select_where_id (id : val) (t : list (gmap string val)) : list (gmap string val) :=
  filter (λ r, sql_eq (r !! "id") (Some id)) t.

(** The constraints of the two tables on a whole store: what PostgreSQL
    maintains on every store the routes can reach. *)
Definition unique (on : list string) (t : list (gmap string val)) : bool :=
  bool_decide (NoDup (omap (index_key on) t)).

Definition rows_ok (cols : list coldef) (t : list (gmap string val)) : bool :=
  forallb (λ r, match check_row cols r with inl _ => false | inr _ => true end) t.

Definition referential_integrity (s : store) : bool :=
  forallb (fkeys_ok (devices s)) (links s).

Definition consistent (s : store) : bool :=
  rows_ok devices_columns (devices s) && unique pkey (devices s)
  && rows_ok links_columns (links s) && unique pkey (links s)
  && unique links_unique (links s)
  && referential_integrity s.

End Pg.

(** ** routes.ts *)

(** What a handler sends: [res.json(v)] ([v] may be [undefined]),
    [res.json(parsed.error.flatten())], or [res.send()]. *)
Inductive body :=
| json (v : option val)
| flatten (error : list Zod.ZodIssue)
| send.

Record response := { status : nat; sent : body }.

Inductive request :=
| GET_health
| GET_topology
| GET_devices
| GET_devices_id (id : string)
| POST_devices (body : val)
| PATCH_devices_id (id : string) (body : val)
| PATCH_devices_id_position (id : string) (body : val)
| DELETE_devices_id (id : string)
| GET_links
| POST_links (body : val)
| PATCH_links_id (id : string) (body : val)
| DELETE_links_id (id : string).

Definition message (m : string) : body :=
  json (Some (object [("message", Some (Str m))])).

(** A handler that lets an error escape: the last middleware of index.ts
    answers. *)
Definition internal_server_error : response :=
  {| status := 500; sent := message "Internal server error" |}.

(** A property of a parsed object given by its entries. *)
Definition prop (data : list (string * val)) (k : string) : option val :=
  (list_to_map data : gmap string val) !! k.

(** A query parameter: pg sends [undefined] as NULL. *)
Definition param (v : option val) : val := default Null v.

Definition rows (t : list (gmap string val)) : option val := Some (Arr (Obj <$> t)).
Definition row0 (t : list (gmap string val)) : option val := Obj <$> t !! 0%nat.

Section routes.
Context `{Zod.Pattern}.

Definition get_health (s : Pg.store) : Pg.store * response :=
  (s, {| status := 200; sent := json (Some (object [("ok", Some (Bool true)); ("db", Some (Bool true))])) |}).

Definition node (d : gmap string val) : val :=
  object
    [ ("id", d !! "id");
      ("type", Some (Str "device"));
      ("position", Some (object [("x", Number (d !! "x")); ("y", Number (d !! "y"))]));
      ("data", Some (object [ ("name", d !! "name"); ("type", d !! "type");
                              ("ip", d !! "ip" ?? None); ("status", d !! "status") ])) ].

Definition edge (l : gmap string val) : val :=
  object
    [ ("id", l !! "id");
      ("source", l !! "from_id");
      ("target", l !! "to_id");
      ("label", l !! "label" ?? None);
      ("data", Some (object [("status", l !! "status")]));
      ("sourceHandle", l !! "from_handle" ?? None);
      ("targetHandle", l !! "to_handle" ?? None) ].

Definition get_topology (s : Pg.store) : Pg.store * response :=
  let devices :=
    Pg.select ["id"; "name"; "type"; "ip"; "status"; "x"; "y"]
      <$> Pg.order_by_created_at (Pg.devices s) in
  let links :=
    Pg.select ["id"; "from_id"; "to_id"; "status"; "label"; "from_handle"; "to_handle"]
      <$> Pg.order_by_created_at (Pg.links s) in
  let nodes := node <$> devices in
  let edges := edge <$> links in
  (s, {| status := 200;
         sent := json (Some (object [("nodes", Some (Arr nodes)); ("edges", Some (Arr edges))])) |}).

Definition get_devices (s : Pg.store) : Pg.store * response :=
  (s, {| status := 200; sent := json (rows (Pg.order_by_created_at (Pg.devices s))) |}).

Definition get_devices_id (id : string) (s : Pg.store) : Pg.store * response :=
  match Zod.safeParse_uuid id with
  | Zod.failure _ => (s, {| status := 400; sent := message "Invalid id" |})
  | Zod.success id =>
      let r := Pg.select_where_id (Str id) (Pg.devices s) in
      match r !! 0%nat with
      | None => (s, {| status := 404; sent := message "Device not found" |})
      | Some _ => (s, {| status := 200; sent := json (row0 r) |})
      end
  end.

Definition post_devices (g : Pg.defaults) (body : val) (s : Pg.store) : Pg.store * response :=
  match Zod.safeParse deviceCreateSchema body with
  | Zod.failure error => (s, {| status := 400; sent := flatten error |})
  | Zod.success data =>
      let name := prop data "name" in
      let type := prop data "type" in
      let ip := prop data "ip" in
      let status := prop data "status" in
      let x := prop data "x" in
      let y := prop data "y" in
      match Pg.insert_into_devices g (param name) (param type) (param (ip ?? Some Null))
              (param (status ?? Some Null)) (param (x ?? Some Null)) (param (y ?? Some Null)) s with
      | inl e => (s, internal_server_error)
      | inr (r, s') => (s', {| status := 201; sent := json (row0 r) |})
      end
  end.

Definition patch_devices_id (id : string) (body : val) (s : Pg.store) : Pg.store * response :=
  match Zod.safeParse_uuid id with
  | Zod.failure _ => (s, {| status := 400; sent := message "Invalid id" |})
  | Zod.success id =>
      match Zod.safeParse deviceUpdateSchema body with
      | Zod.failure error => (s, {| status := 400; sent := flatten error |})
      | Zod.success fields =>
          let allowed := ["name"; "type"; "ip"; "status"; "x"; "y"] in
          let entries := filter (λ kv, kv.1 ∈ allowed) fields in
          if bool_decide (length entries = 0%nat)
          then (s, {| status := 400; sent := message "No fields to update" |})
          else
            let setParts :=
              (λ kv, let k := kv.1 in
                     let cast := if bool_decide (k = "status") then Some "device_status"
                                 else if bool_decide (k = "type") then Some "device_type"
                                 else None in
                     {| Pg.column := k; Pg.type := cast; Pg.value := param (Some kv.2 ?? Some Null) |})
                <$> entries in
            match Pg.update_devices setParts (Str id) s with
            | inl e => (s, internal_server_error)
            | inr (r, s') =>
                match r !! 0%nat with
                | None => (s', {| status := 404; sent := message "Device not found" |})
                | Some _ => (s', {| status := 200; sent := json (row0 r) |})
                end
            end
      end
  end.

Definition patch_devices_id_position (id : string) (body : val) (s : Pg.store)
  : Pg.store * response :=
  match Zod.safeParse_uuid id with
  | Zod.failure _ => (s, {| status := 400; sent := message "Invalid id" |})
  | Zod.success id =>
      match Zod.safeParse devicePositionSchema body with
      | Zod.failure error => (s, {| status := 400; sent := flatten error |})
      | Zod.success data =>
          let x := prop data "x" in
          let y := prop data "y" in
          match Pg.update_devices
                  [ {| Pg.column := "x"; Pg.type := None; Pg.value := param x |};
                    {| Pg.column := "y"; Pg.type := None; Pg.value := param y |} ]
                  (Str id) s with
          | inl e => (s, internal_server_error)
          | inr (r, s') =>
              match r !! 0%nat with
              | None => (s', {| status := 404; sent := message "Device not found" |})
              | Some _ => (s', {| status := 200; sent := json (row0 r) |})
              end
          end
      end
  end.

Definition delete_devices_id (id : string) (s : Pg.store) : Pg.store * response :=
  match Zod.safeParse_uuid id with
  | Zod.failure _ => (s, {| status := 400; sent := message "Invalid id" |})
  | Zod.success id =>
      let '(r, s') := Pg.delete_from_devices (Str id) s in
      match r !! 0%nat with
      | None => (s', {| status := 404; sent := message "Device not found" |})
      | Some _ => (s', {| status := 204; sent := send |})
      end
  end.

Definition get_links (s : Pg.store) : Pg.store * response :=
  (s, {| status := 200; sent := json (rows (Pg.order_by_created_at (Pg.links s))) |}).

Definition post_links (g : Pg.defaults) (body : val) (s : Pg.store) : Pg.store * response :=
  match Zod.safeParse linkCreateSchema body with
  | Zod.failure error => (s, {| status := 400; sent := flatten error |})
  | Zod.success data =>
      let fromId := prop data "fromId" in
      let toId := prop data "toId" in
      let status := prop data "status" in
      let label := prop data "label" in
      let fromHandle := prop data "fromHandle" in
      let toHandle := prop data "toHandle" in
      match Pg.insert_into_links g (param fromId) (param toId) (param (status ?? Some Null))
              (param (label ?? Some Null)) (param (fromHandle ?? Some Null))
              (param (toHandle ?? Some Null)) s with
      | inr (r, s') => (s', {| status := 201; sent := json (row0 r) |})
      | inl e =>
          if bool_decide (Pg.code e = "23505")
          then (s, {| status := 409; sent := message "Link already exists" |})
          else if bool_decide (Pg.code e = "23503")
          then (s, {| status := 400; sent := message "fromId/toId invalid (device not found)" |})
          else (s, internal_server_error)
      end
  end.

Definition mapKey (k : string) : string :=
  if bool_decide (k = "fromHandle") then "from_handle"
  else if bool_decide (k = "toHandle") then "to_handle"
  else k.

Definition patch_links_id (id : string) (body : val) (s : Pg.store) : Pg.store * response :=
  match Zod.safeParse_uuid id with
  | Zod.failure _ => (s, {| status := 400; sent := message "Invalid id" |})
  | Zod.success id =>
      match Zod.safeParse linkUpdateSchema body with
      | Zod.failure error => (s, {| status := 400; sent := flatten error |})
      | Zod.success fields =>
          let allowed := ["status"; "label"; "from_handle"; "to_handle"] in
          let entries :=
            filter (λ kv, kv.1 ∈ allowed) ((λ kv, (mapKey kv.1, kv.2)) <$> fields) in
          if bool_decide (length entries = 0%nat)
          then (s, {| status := 400; sent := message "No fields to update" |})
          else
            let setParts :=
              (λ kv, let k := kv.1 in
                     let cast := if bool_decide (k = "status") then Some "link_status" else None in
                     {| Pg.column := k; Pg.type := cast; Pg.value := param (Some kv.2 ?? Some Null) |})
                <$> entries in
            match Pg.update_links setParts (Str id) s with
            | inl e => (s, internal_server_error)
            | inr (r, s') =>
                match r !! 0%nat with
                | None => (s', {| status := 404; sent := message "Link not found" |})
                | Some _ => (s', {| status := 200; sent := json (row0 r) |})
                end
            end
      end
  end.

Definition delete_links_id (id : string) (s : Pg.store) : Pg.store * response :=
  match Zod.safeParse_uuid id with
  | Zod.failure _ => (s, {| status := 400; sent := message "Invalid id" |})
  | Zod.success id =>
      let '(r, s') := Pg.delete_from_links (Str id) s in
      match r !! 0%nat with
      | None => (s', {| status := 404; sent := message "Link not found" |})
      | Some _ => (s', {| status := 204; sent := send |})
      end
  end.

(** The router: one request against the store, with what the store draws if
    the request inserts a row. *)
Definition routes (g : Pg.defaults) (req : request) (s : Pg.store) : Pg.store * response :=
  match req with
  | GET_health => get_health s
  | GET_topology => get_topology s
  | GET_devices => get_devices s
  | GET_devices_id id => get_devices_id id s
  | POST_devices body => post_devices g body s
  | PATCH_devices_id id body => patch_devices_id id body s
  | PATCH_devices_id_position id body => patch_devices_id_position id body s
  | DELETE_devices_id id => delete_devices_id id s
  | GET_links => get_links s
  | POST_links body => post_links g body s
  | PATCH_links_id id body => patch_links_id id body s
  | DELETE_links_id id => delete_links_id id s
  end.

End routes.

(** A uuid pattern to run the routes with: 8-4-4-4-12 hexadecimal digits. *)
Definition hex_digit (c : ascii) : bool :=
  let n := nat_of_ascii (lower c) in
  ((48 <=? n)%nat && (n <=? 57)%nat) || ((97 <=? n)%nat && (n <=? 102)%nat).

Fixpoint hex_digits (n : nat) (s : string) : option string :=
  match n, s with
  | O, _ => Some s
  | S n', String c s' => if hex_digit c then hex_digits n' s' else None
  | S _, EmptyString => None
  end.

Definition hyphen (s : string) : option string :=
  match s with
  | String c s' => if bool_decide (c = "-"%char) then Some s' else None
  | EmptyString => None
  end.

Definition hyphenated : Zod.Pattern :=
  {| Zod.is_uuid := λ s,
       bool_decide
         ((s1 ← hex_digits 8 s; s2 ← hyphen s1; s3 ← hex_digits 4 s2; s4 ← hyphen s3;
           s5 ← hex_digits 4 s4; s6 ← hyphen s5; s7 ← hex_digits 4 s6; s8 ← hyphen s7;
           hex_digits 12 s8) = Some "") |}.

(** ** TopologyCanvas.tsx *)

Module Canvas.

(** api/topology.ts: the string literal types. *)
Inductive DeviceStatus := up | warn | down.
Inductive DeviceType := hub | switch | router | ap | server.

Definition DeviceStatus_literal (s : DeviceStatus) : string :=
  match s with up => "up" | warn => "warn" | down => "down" end.

Definition DeviceType_literal (t : DeviceType) : string :=
  match t with
  | hub => "hub" | switch => "switch" | router => "router" | ap => "ap" | server => "server"
  end.

(** DeviceNode.tsx *)
Record DeviceNodeData := {
  name : string;
  type : DeviceType;
  ip : option string;
  status : DeviceStatus
}.

Record XYPosition := { x : float; y : float }.

Module FlowNode.
Record t := { id : string; position : XYPosition; data : DeviceNodeData }.
End FlowNode.

Module FlowEdge.
Record t := {
  id : string;
  source : string;
  target : string;
  label : option string;
  data : option DeviceStatus
}.
End FlowEdge.

(** The state of the component that the three handlers below read and
    write: the two selection hooks, the create-link form, the search box. *)
Record state := {
  nodes : list FlowNode.t;
  edges : list FlowEdge.t;
  selectedNodeId : option string;
  selectedEdgeId : option string;
  linkFrom : string;
  linkTo : string;
  linkLabel : string;
  query : string
}.

(** What React Flow reports to [onSelectionChange]. *)
Record OnSelectionChangeParams := {
  selected_nodes : list FlowNode.t;
  selected_edges : list FlowEdge.t
}.

(** [setSelectedNodeId(params.nodes?.[0]?.id ?? null);
     setSelectedEdgeId(params.edges?.[0]?.id ?? null)] *)
Definition onSelectionChange (params : OnSelectionChangeParams) (st : state) : state :=
  {| nodes := nodes st;
     edges := edges st;
     selectedNodeId := FlowNode.id <$> selected_nodes params !! 0%nat;
     selectedEdgeId := FlowEdge.id <$> selected_edges params !! 0%nat;
     linkFrom := linkFrom st;
     linkTo := linkTo st;
     linkLabel := linkLabel st;
     query := query st |}.

(** [nodes.find((n) => n.id === selectedNodeId) ?? null] *)
Definition selectedNode (st : state) : option FlowNode.t :=
  id ← selectedNodeId st;
  snd <$> list_find (λ n, FlowNode.id n = id) (nodes st).

Definition selectedEdge (st : state) : option FlowEdge.t :=
  id ← selectedEdgeId st;
  snd <$> list_find (λ e, FlowEdge.id e = id) (edges st).

(** What a handler does up to its first [await]: it shows a toast, or it
    sends a request through api/topology.ts. *)
Inductive effect :=
| showToast (msg : string)
| api (req : request).

(** [submitCreateLink], up to the answer of the server. *)
Definition submitCreateLink (st : state) : list effect :=
  if bool_decide (linkFrom st = "") || bool_decide (linkTo st = "")
  then [showToast "Selecione origem e destino."]
  else if bool_decide (linkFrom st = linkTo st)
  then [showToast "Origem e destino não podem ser iguais."]
  else
    [api (POST_links
            (object
               [ ("fromId", Some (Str (linkFrom st)));
                 ("toId", Some (Str (linkTo st)));
                 ("label", if bool_decide (trim (linkLabel st) = "") then None
                           else Some (Str (trim (linkLabel st))));
                 ("status", Some (Str "up")) ]))].

(** [filteredNodes] *)
Definition filteredNodes (st : state) : list FlowNode.t :=
  let q := toLowerCase (trim (query st)) in
  if bool_decide (q = "") then []
  else
    filter
      (λ n,
         let name := toLowerCase (name (FlowNode.data n)) in
         let ip := toLowerCase (default "" (ip (FlowNode.data n))) in
         let type := toLowerCase (DeviceType_literal (type (FlowNode.data n))) in
         includes name q || includes ip q || includes type q
         || includes (toLowerCase (FlowNode.id n)) q)
      (nodes st).

End Canvas.

(** ** api/topology.ts *)

Module Topology.

(** A number of a payload, as the server reads it: [JSON.stringify] writes
    NaN and the infinities as [null] and -0 as [0], and every other number
    in a form that [express.json()] reads back as the same number. *)
Definition JSON_number (f : float) : val :=
  if PrimFloat.is_finite f
  then if PrimFloat.is_zero f then Num 0%float else Num f
  else Null.

(** The payload of [createDevice]. *)
Record DevicePayload := {
  name : string;
  type : Canvas.DeviceType;
  ip : option string;
  status : option Canvas.DeviceStatus;
  x : option float;
  y : option float
}.

Definition fetchTopology : request := GET_topology.

Definition createDevice (payload : DevicePayload) : request :=
  POST_devices
    (object
       [ ("name", Some (Str (name payload)));
         ("type", Some (Str (Canvas.DeviceType_literal (type payload))));
         ("ip", Str <$> ip payload);
         ("status", (λ st, Str (Canvas.DeviceStatus_literal st)) <$> status payload);
         ("x", JSON_number <$> x payload);
         ("y", JSON_number <$> y payload) ]).

Definition patchDevicePosition (id : string) (x y : float) : request :=
  PATCH_devices_id_position id
    (object [("x", Some (JSON_number x)); ("y", Some (JSON_number y))]).

Definition patchDeviceStatus (id : string) (status : Canvas.DeviceStatus) : request :=
  PATCH_devices_id id (object [("status", Some (Str (Canvas.DeviceStatus_literal status)))]).

Definition deleteDevice (id : string) : request := DELETE_devices_id id.

Definition patchLinkStatus (id : string) (status : Canvas.DeviceStatus) : request :=
  PATCH_links_id id (object [("status", Some (Str (Canvas.DeviceStatus_literal status)))]).

Definition deleteLink (id : string) : request := DELETE_links_id id.

(** [TopologyEdge]; [data] is optional and so is its [status]. *)
Record TopologyEdge := {
  id : string;
  source : string;
  target : string;
  label : option string;
  data : option (option Canvas.DeviceStatus);
  sourceHandle : option string;
  targetHandle : option string
}.

(** [TopologyNode]; its [type] is always "device". *)
Module TopologyNode.
Record t := {
  id : string;
  position : Canvas.XYPosition;
  data : Canvas.DeviceNodeData
}.
End TopologyNode.

(** [TopologyResponse] *)
Record TopologyResponse := {
  nodes : list TopologyNode.t;
  edges : list TopologyEdge
}.

End Topology.

(** ** TopologyCanvas.tsx: the other handlers *)

Module TopologyCanvas.

(** An edge as the component hands it to React Flow: the fields of
    [Canvas.FlowEdge.t] and those that say how it is drawn. *)
Record Edge := {
  flow : Canvas.FlowEdge.t;
  type : string;
  animated : bool;
  style : gmap string val;
  markerEnd : string
}.

Definition edgeColor (status : Canvas.DeviceStatus) : string :=
  match status with
  | Canvas.up => "#22c55e"
  | Canvas.warn => "#f59e0b"
  | Canvas.down => "#ef4444"
  end.

Definition toFlowEdge (e : Topology.TopologyEdge) : Edge :=
  let status := default Canvas.up (Topology.data e ≫= id) in
  {| flow :=
       {| Canvas.FlowEdge.id := Topology.id e;
          Canvas.FlowEdge.source := Topology.source e;
          Canvas.FlowEdge.target := Topology.target e;
          Canvas.FlowEdge.label := Topology.label e;
          Canvas.FlowEdge.data := Some status |};
     type := "smoothstep";
     animated := match status with Canvas.up => false | _ => true end;
     style := {[ "stroke" := Str (edgeColor status); "strokeWidth" := Num 2%float ]};
     markerEnd := "arrowclosed" |}.

(** The hooks of the component that [Canvas.state] leaves out: [loading],
    the three modals and the create-device form. *)
Record hooks := {
  canvas : Canvas.state;
  loading : bool;
  openAddDevice : bool;
  openAddLink : bool;
  openConfirmDelete : bool;
  devName : string;
  devType : Canvas.DeviceType;
  devIp : string
}.

(** [onNodeDragStop], up to the answer of the server. *)
Definition onNodeDragStop (node : Canvas.FlowNode.t) : list Canvas.effect :=
  [Canvas.api
     (Topology.patchDevicePosition (Canvas.FlowNode.id node)
        (Canvas.x (Canvas.FlowNode.position node)) (Canvas.y (Canvas.FlowNode.position node)))].

(** [changeNodeStatus], up to the answer of the server. *)
Definition changeNodeStatus (status : Canvas.DeviceStatus) (st : Canvas.state)
  : list Canvas.effect :=
  match Canvas.selectedNode st with
  | None => []
  | Some selectedNode =>
      [Canvas.api (Topology.patchDeviceStatus (Canvas.FlowNode.id selectedNode) status)]
  end.

(** [changeEdgeStatus], up to the answer of the server. *)
Definition changeEdgeStatus (status : Canvas.DeviceStatus) (st : Canvas.state)
  : list Canvas.effect :=
  match Canvas.selectedEdge st with
  | None => []
  | Some selectedEdge =>
      [Canvas.api (Topology.patchLinkStatus (Canvas.FlowEdge.id selectedEdge) status)]
  end.

(** What [changeEdgeStatus] hands to [setEdges] once the server has
    answered: [prev.map((e) => ...)] for the edge that was selected. *)
Definition changeEdgeStatus_setEdges (selectedEdge : string) (status : Canvas.DeviceStatus)
    (prev : list Edge) : list Edge :=
  (λ e,
     if bool_decide (Canvas.FlowEdge.id (flow e) ≠ selectedEdge) then e
     else
       {| flow :=
            {| Canvas.FlowEdge.id := Canvas.FlowEdge.id (flow e);
               Canvas.FlowEdge.source := Canvas.FlowEdge.source (flow e);
               Canvas.FlowEdge.target := Canvas.FlowEdge.target (flow e);
               Canvas.FlowEdge.label := Canvas.FlowEdge.label (flow e);
               Canvas.FlowEdge.data := Some status |};
          type := type e;
          animated := match status with Canvas.up => false | _ => true end;
          style := <["strokeWidth" := Num 2%float]>
                     (<["stroke" := Str (edgeColor status)]> (style e));
          markerEnd := markerEnd e |}) <$> prev.

(** [submitCreateDevice], up to the answer of the server. [center] is what
    React Flow gives for the middle of the window. *)
Definition submitCreateDevice (center : Canvas.XYPosition) (h : hooks) : list Canvas.effect :=
  if (String.length (trim (devName h)) <? 2)%nat then [Canvas.showToast "Nome muito curto."]
  else
    [Canvas.api
       (Topology.createDevice
          {| Topology.name := trim (devName h);
             Topology.type := devType h;
             Topology.ip := if bool_decide (trim (devIp h) = "") then None
                            else Some (trim (devIp h));
             Topology.status := Some Canvas.up;
             Topology.x := Some (Canvas.x center);
             Topology.y := Some (Canvas.y center) |})].

(** [confirmDelete], up to the answer of the server. With nothing selected
    no request is awaited before the dialog is closed, the selection is
    cleared and [load] sets [loading] and asks for the topology. *)
Definition confirmDelete (h : hooks) : hooks * list Canvas.effect :=
  match Canvas.selectedNode (canvas h) with
  | Some selectedNode =>
      (h, [Canvas.api (Topology.deleteDevice (Canvas.FlowNode.id selectedNode))])
  | None =>
      match Canvas.selectedEdge (canvas h) with
      | Some selectedEdge =>
          (h, [Canvas.api (Topology.deleteLink (Canvas.FlowEdge.id selectedEdge))])
      | None =>
          ({| canvas :=
                {| Canvas.nodes := Canvas.nodes (canvas h);
                   Canvas.edges := Canvas.edges (canvas h);
                   Canvas.selectedNodeId := None;
                   Canvas.selectedEdgeId := None;
                   Canvas.linkFrom := Canvas.linkFrom (canvas h);
                   Canvas.linkTo := Canvas.linkTo (canvas h);
                   Canvas.linkLabel := Canvas.linkLabel (canvas h);
                   Canvas.query := Canvas.query (canvas h) |};
              loading := true;
              openAddDevice := openAddDevice h;
              openAddLink := openAddLink h;
              openConfirmDelete := false;
              devName := devName h;
              devType := devType h;
              devIp := devIp h |},
           [Canvas.showToast "Nada selecionado."; Canvas.api Topology.fetchTopology])
      end
  end.

(** [zoomToNode]: the state, and the node that [rf.fitView] is asked to
    show. *)
Definition zoomToNode (id : string) (st : Canvas.state)
  : Canvas.state * option Canvas.FlowNode.t :=
  match list_find (λ x, Canvas.FlowNode.id x = id) (Canvas.nodes st) with
  | None => (st, None)
  | Some (_, n) =>
      ({| Canvas.nodes := Canvas.nodes st;
          Canvas.edges := Canvas.edges st;
          Canvas.selectedNodeId := Some id;
          Canvas.selectedEdgeId := None;
          Canvas.linkFrom := Canvas.linkFrom st;
          Canvas.linkTo := Canvas.linkTo st;
          Canvas.linkLabel := Canvas.linkLabel st;
          Canvas.query := Canvas.query st |},
       Some n)
  end.

(** [onKeyDown]: the hooks, and whether the key was taken away from the
    browser to put the focus in the search box. *)
Definition onKeyDown (key : string) (ctrlKey metaKey : bool) (h : hooks) : hooks * bool :=
  let h' :=
    if bool_decide (key = "Delete") || bool_decide (key = "Backspace") then
      if bool_decide (is_Some (Canvas.selectedNode (canvas h)))
         || bool_decide (is_Some (Canvas.selectedEdge (canvas h)))
      then {| canvas := canvas h;
              loading := loading h;
              openAddDevice := openAddDevice h;
              openAddLink := openAddLink h;
              openConfirmDelete := true;
              devName := devName h;
              devType := devType h;
              devIp := devIp h |}
      else h
    else h in
  (h', (ctrlKey || metaKey) && bool_decide (toLowerCase key = "k")).

(** [load], up to the answer of the server. *)
Definition load (h : hooks) : hooks * list Canvas.effect :=
  ({| canvas := canvas h;
      loading := true;
      openAddDevice := openAddDevice h;
      openAddLink := openAddLink h;
      openConfirmDelete := openConfirmDelete h;
      devName := devName h;
      devType := devType h;
      devIp := devIp h |},
   [Canvas.api Topology.fetchTopology]).

(** [load], once the server has answered with [topo]: the nodes and the
    edges of the answer replace those of the canvas, and the link form is
    set to the first two nodes. [Canvas.state] keeps of an edge what
    [Canvas.FlowEdge.t] has. *)
Definition load_resolved (topo : Topology.TopologyResponse) (h : hooks) : hooks :=
  let rfNodes :=
    (λ n, {| Canvas.FlowNode.id := Topology.TopologyNode.id n;
             Canvas.FlowNode.position := Topology.TopologyNode.position n;
             Canvas.FlowNode.data := Topology.TopologyNode.data n |})
      <$> Topology.nodes topo in
  let rfEdges := toFlowEdge <$> Topology.edges topo in
  {| canvas :=
       {| Canvas.nodes := rfNodes;
          Canvas.edges := flow <$> rfEdges;
          Canvas.selectedNodeId := Canvas.selectedNodeId (canvas h);
          Canvas.selectedEdgeId := Canvas.selectedEdgeId (canvas h);
          Canvas.linkFrom := default "" (Canvas.FlowNode.id <$> rfNodes !! 0%nat);
          Canvas.linkTo := default "" (Canvas.FlowNode.id <$> rfNodes !! 1%nat);
          Canvas.linkLabel := Canvas.linkLabel (canvas h);
          Canvas.query := Canvas.query (canvas h) |};
     loading := false;
     openAddDevice := openAddDevice h;
     openAddLink := openAddLink h;
     openConfirmDelete := openConfirmDelete h;
     devName := devName h;
     devType := devType h;
     devIp := devIp h |}.

End TopologyCanvas.

(** ** TopologyPage *)

Module TopologyPage.

Inductive Theme := light | dark.

Definition Theme_literal (theme : Theme) : string :=
  match theme with light => "light" | dark => "dark" end.

(** What the page reads and writes outside of React: the "theme" item of
    [localStorage] and the "dark" class of the root element. *)
Record document := { localStorage_theme : option string; classList_dark : bool }.

(** The effect on [theme]: the class of the root element and the item. *)
Definition effect_theme (theme : Theme) (doc : document) : document :=
  {| localStorage_theme := Some (Theme_literal theme);
     classList_dark := match theme with dark => true | light => false end |}.

(** The first render: [theme] is "light"; both effects run, the first reads
    the item (and asks for "dark" if that is what it holds), the second
    writes for "light"; if the theme was changed, the page is rendered again
    and the second effect runs for the new theme. *)
Definition mount (doc : document) : Theme * document :=
  let saved := localStorage_theme doc in
  let doc1 := effect_theme light doc in
  if bool_decide (saved = Some "dark") then (dark, effect_theme dark doc1)
  else (light, doc1).

(** The button: [setTheme(theme === "dark" ? "light" : "dark")], and the
    effect on [theme] of the render that follows. *)
Definition onClick (p : Theme * document) : Theme * document :=
  let theme := match p.1 with dark => light | light => dark end in
  (theme, effect_theme theme p.2).

End TopologyPage.

(** ** The vocabulary of the properties *)

(** The entries a successful parse returns: one for every key of the shape
    whose validated value is defined. *)
Definition entries_of (sh : list (string * Zod.ZodType)) (m : gmap string val)
  : list (string * val) :=
  omap (λ kt, match kt.2 (m !! kt.1) with
              | inr (Some v) => Some (kt.1, v)
              | _ => None
              end) sh.

(** Every validator of validators.ts hands back the value it was given. *)
Definition returns_input (t : Zod.ZodType) : Prop := ∀ x o, t x = inr o → o = x.

(** The values the Device-update validator lets through, by key. *)
Definition device_value (k : string) (v : val) : Prop :=
  (k = "name" ∧ ∃ a, v = Str a ∧ (2 ≤ String.length a)%nat)
  ∨ (k = "type" ∧ ∃ a, v = Str a ∧ a ∈ ["hub"; "switch"; "router"; "ap"; "server"])
  ∨ (k = "ip" ∧ ∃ a, v = Str a)
  ∨ (k = "status" ∧ ∃ a, v = Str a ∧ a ∈ ["up"; "warn"; "down"])
  ∨ (k = "x" ∧ ∃ f, v = Num f)
  ∨ (k = "y" ∧ ∃ f, v = Num f).

(** What [UPDATE ... WHERE id=$1] does to each row. *)
Definition updated (cols : list Pg.coldef) (sets : list Pg.assignment) (id : val)
    (r : gmap string val) (br : bool * gmap string val) : Prop :=
  if Pg.sql_eq (r !! "id") (Some id)
  then br.1 = true ∧ Pg.set cols sets r = inr br.2 ∧ Pg.check_row cols br.2 = inr ()
  else br = (false, r).

(** The SET list that PATCH /devices/:id builds from the parsed fields. *)
Definition device_setParts (fields : list (string * val)) : list Pg.assignment :=
  (λ kv, {| Pg.column := kv.1;
            Pg.type := if bool_decide (kv.1 = "status") then Some "device_status"
                       else if bool_decide (kv.1 = "type") then Some "device_type"
                       else None;
            Pg.value := param (Some kv.2 ?? Some Null) |})
    <$> filter (λ kv, kv.1 ∈ ["name"; "type"; "ip"; "status"; "x"; "y"]) fields.

(** The SET list that PATCH /links/:id builds from the parsed fields. *)
Definition link_setParts (fields : list (string * val)) : list Pg.assignment :=
  (λ kv, {| Pg.column := kv.1;
            Pg.type := if bool_decide (kv.1 = "status") then Some "link_status" else None;
            Pg.value := param (Some kv.2 ?? Some Null) |})
    <$> filter (λ kv, kv.1 ∈ ["status"; "label"; "from_handle"; "to_handle"])
          ((λ kv, (mapKey kv.1, kv.2)) <$> fields).

(** A stored link has the endpoints and the handles of a payload: SQL
    equality, so that an absent or NULL handle equals nothing. *)
Definition same_tuple (from to : string) (fromHandle toHandle : option val)
    (l : gmap string val) : bool :=
  Pg.sql_eq (l !! "from_id") (Some (Str from)) && Pg.sql_eq (l !! "to_id") (Some (Str to))
  && Pg.sql_eq (l !! "from_handle") fromHandle && Pg.sql_eq (l !! "to_handle") toHandle.

(** The row POST /links inserts for the payload [m]. *)
Definition link_row (g : Pg.defaults) (m : gmap string val) : gmap string val :=
  list_to_map
    [ ("id", Str (Pg.gen_random_uuid g));
      ("from_id", param (m !! "fromId"));
      ("to_id", param (m !! "toId"));
      ("status", Pg.coalesce (param (m !! "status" ?? Some Null)) (Str "up"));
      ("label", param (m !! "label" ?? Some Null));
      ("from_handle", param (m !! "fromHandle" ?? Some Null));
      ("to_handle", param (m !! "toHandle" ?? Some Null));
      ("created_at", Date (Pg.now g)) ].

(** A column holds a string (not NULL). *)
Definition is_text (v : option val) : Prop := ∃ a, v = Some (Str a).

(** Between two states of a table: the row with a given id, if it is still
    there, has a string in column [c] if it had one. *)
Definition keeps_text (c : string) (t t' : list (gmap string val)) : Prop :=
  ∀ r r' (i : string), r ∈ t → r' ∈ t' →
    r !! "id" = Some (Str i) → r' !! "id" = Some (Str i) →
    is_text (r !! c) → is_text (r' !! c).

(** [field] contains [q], case-insensitively. *)
Definition contains_ci (field q : string) : Prop :=
  ∃ pre post, toLowerCase field = (pre ++ toLowerCase q ++ post)%string.

(** The requests that only read. *)
Definition reads (req : request) : bool :=
  match req with
  | GET_health | GET_topology | GET_devices | GET_devices_id _ | GET_links => true
  | _ => false
  end.


(** The row POST /devices inserts for the payload [m]. *)
Definition device_row (g : Pg.defaults) (m : gmap string val) : gmap string val :=
  list_to_map
    [ ("id", Str (Pg.gen_random_uuid g));
      ("name", param (m !! "name"));
      ("type", param (m !! "type"));
      ("ip", param (m !! "ip" ?? Some Null));
      ("status", Pg.coalesce (param (m !! "status" ?? Some Null)) (Str "up"));
      ("x", Pg.coalesce (param (m !! "x" ?? Some Null)) (Num 0%float));
      ("y", Pg.coalesce (param (m !! "y" ?? Some Null)) (Num 0%float));
      ("created_at", Date (Pg.now g)) ].

(** Between two states of a table: the row with a given id, if it is still
    there, holds in column [c] what it held. *)
Definition keeps_value (c : string) (t t' : list (gmap string val)) : Prop :=
  ∀ r r' (i : string), r ∈ t → r' ∈ t' →
    r !! "id" = Some (Str i) → r' !! "id" = Some (Str i) → r' !! c = r !! c.

(** ** A small inventory, to run the routes and the canvas on *)

Definition sw1_id : string := "aaaaaaaa-0000-4000-8000-000000000001".

Definition rt1_id : string := "aaaaaaaa-0000-4000-8000-000000000002".

Definition uplink_id : string := "aaaaaaaa-0000-4000-8000-000000000003".

Definition sw1 : gmap string val :=
  list_to_map
    [ ("id", Str sw1_id); ("name", Str "SW1"); ("type", Str "switch"); ("ip", Null);
      ("status", Str "up"); ("x", Num 0%float); ("y", Num 0%float); ("created_at", Date 1) ].

Definition rt1 : gmap string val :=
  list_to_map
    [ ("id", Str rt1_id); ("name", Str "RT1"); ("type", Str "router"); ("ip", Str "10.0.0.1");
      ("status", Str "up"); ("x", Num 120%float); ("y", Num 340%float);
      ("created_at", Date 2) ].

(** A link from SW1 to RT1, created without handles. *)
Definition uplink : gmap string val :=
  list_to_map
    [ ("id", Str uplink_id); ("from_id", Str sw1_id); ("to_id", Str rt1_id);
      ("status", Str "up"); ("label", Str "UPLINK"); ("from_handle", Null);
      ("to_handle", Null); ("created_at", Date 3) ].

Definition inventory : Pg.store := {| Pg.devices := [sw1; rt1]; Pg.links := [uplink] |}.

Definition next : Pg.defaults :=
  {| Pg.gen_random_uuid := "aaaaaaaa-0000-4000-8000-000000000004"; Pg.now := 4 |}.

Definition canvas : Canvas.state :=
  {| Canvas.nodes := []; Canvas.edges := [];
     Canvas.selectedNodeId := None; Canvas.selectedEdgeId := None;
     Canvas.linkFrom := sw1_id; Canvas.linkTo := sw1_id; Canvas.linkLabel := "";
     Canvas.query := "" |}.

Definition a_node : Canvas.FlowNode.t :=
  {| Canvas.FlowNode.id := sw1_id;
     Canvas.FlowNode.position := {| Canvas.x := 0%float; Canvas.y := 0%float |};
     Canvas.FlowNode.data :=
       {| Canvas.name := "SW1"; Canvas.type := Canvas.switch; Canvas.ip := None;
          Canvas.status := Canvas.up |} |}.

Definition an_edge : Canvas.FlowEdge.t :=
  {| Canvas.FlowEdge.id := uplink_id; Canvas.FlowEdge.source := sw1_id;
     Canvas.FlowEdge.target := rt1_id; Canvas.FlowEdge.label := Some "UPLINK";
     Canvas.FlowEdge.data := Some Canvas.up |}.

(** ** More of the small inventory *)

(** A well-formed id that no row has. *)
Definition unknown_id : string := "aaaaaaaa-0000-4000-8000-000000000009".

Definition cable_ab_id : string := "aaaaaaaa-0000-4000-8000-00000000000a".

Definition cable_ac_id : string := "aaaaaaaa-0000-4000-8000-00000000000b".

(** Two links from SW1 to RT1 that leave SW1 by the same handle. *)
Definition cable_ab : gmap string val :=
  list_to_map
    [ ("id", Str cable_ab_id); ("from_id", Str sw1_id); ("to_id", Str rt1_id);
      ("status", Str "up"); ("label", Null); ("from_handle", Str "a");
      ("to_handle", Str "b"); ("created_at", Date 3) ].

Definition cable_ac : gmap string val :=
  list_to_map
    [ ("id", Str cable_ac_id); ("from_id", Str sw1_id); ("to_id", Str rt1_id);
      ("status", Str "up"); ("label", Null); ("from_handle", Str "a");
      ("to_handle", Str "c"); ("created_at", Date 4) ].

Definition cabled : Pg.store := {| Pg.devices := [sw1; rt1]; Pg.links := [cable_ab; cable_ac] |}.

(** The canvas with SW1 and the uplink on it, both selected. *)
Definition selecting : Canvas.state :=
  {| Canvas.nodes := [a_node]; Canvas.edges := [an_edge];
     Canvas.selectedNodeId := Some sw1_id; Canvas.selectedEdgeId := Some uplink_id;
     Canvas.linkFrom := sw1_id; Canvas.linkTo := rt1_id; Canvas.linkLabel := "";
     Canvas.query := "sw" |}.

(** The hooks with the delete dialog closed and the create-device form
    filled in. *)
Definition form : TopologyCanvas.hooks :=
  {| TopologyCanvas.canvas := selecting;
     TopologyCanvas.loading := false;
     TopologyCanvas.openAddDevice := true;
     TopologyCanvas.openAddLink := false;
     TopologyCanvas.openConfirmDelete := false;
     TopologyCanvas.devName := "  SW2 ";
     TopologyCanvas.devType := Canvas.switch;
     TopologyCanvas.devIp := " " |}.

(** * Properties *)

(** ** Objects *)

Lemma properties_cons k v fields k' :
  properties ((k, v) :: fields) !! k'
  = if decide (k' = k)
    then match v with Some x => Some x | None => properties fields !! k' end
    else properties fields !! k'.
Proof.
  unfold properties. simpl. destruct v as [x|]; simpl.
  - case_decide; [subst; by rewrite lookup_insert_eq | by rewrite lookup_insert_ne].
  - by case_decide.
Qed.

Lemma properties_nil k : properties [] !! k = None.
Proof. done. Qed.

(** ** Validators *)

Section zod_facts.
Context `{Zod.Pattern}.

Lemma entries_of_cons k (t : Zod.ZodType) sh m o :
  t (m !! k) = inr o →
  entries_of ((k, t) :: sh) m = option_list (pair k <$> o) ++ entries_of sh m.
Proof. unfold entries_of; simpl. intros ->. by destruct o. Qed.

Lemma parse_shape_issues sh m :
  (Zod.parse_shape sh m).1 = [] ↔ Forall (λ kt, ∃ o, kt.2 (m !! kt.1) = inr o) sh.
Proof.
  induction sh as [|[k t] sh IH]; simpl.
  - split; auto.
  - destruct (Zod.parse_shape sh m) as [issues data]; simpl in *.
    rewrite Forall_cons; simpl.
    destruct (t (m !! k)) as [c|[v|]]; simpl; rewrite <- ?IH.
    + split; [done|]. by intros [[o ?] _].
    + split; [by eauto|]. by intros [_ ?].
    + split; [by eauto|]. by intros [_ ?].
Qed.

Lemma parse_shape_data sh m :
  (Zod.parse_shape sh m).1 = [] → (Zod.parse_shape sh m).2 = entries_of sh m.
Proof.
  induction sh as [|[k t] sh IH]; simpl; [done|].
  destruct (Zod.parse_shape sh m) as [issues data]; simpl in *.
  destruct (t (m !! k)) as [c|[v|]]; simpl; [done| |]; intros ->; by rewrite IH.
Qed.

Lemma safeParse_success o body data :
  Zod.safeParse o body = Zod.success data ↔
  ∃ m, body = Obj m
       ∧ Forall (λ kt, ∃ v, kt.2 (m !! kt.1) = inr v) (Zod.shape o)
       ∧ data = entries_of (Zod.shape o) m.
Proof.
  unfold Zod.safeParse. split.
  - destruct body as [| | | | | |m]; try done.
    pose proof (parse_shape_issues (Zod.shape o) m) as Hi.
    pose proof (parse_shape_data (Zod.shape o) m) as Hd.
    destruct (Zod.parse_shape (Zod.shape o) m) as [[|i issues] d]; simpl in *; [|done].
    intros [= <-]. exists m. split; [done|]. split; [by apply Hi | by apply Hd].
  - intros (m & -> & Hall & ->).
    pose proof (parse_shape_issues (Zod.shape o) m) as Hi.
    pose proof (parse_shape_data (Zod.shape o) m) as Hd.
    destruct (Zod.parse_shape (Zod.shape o) m) as [issues d]; simpl in *.
    apply Hi in Hall as ->. by rewrite Hd.
Qed.

Lemma safeParse_failure o m k t c :
  (k, t) ∈ Zod.shape o → t (m !! k) = inl c →
  ∃ error, Zod.safeParse o (Obj m) = Zod.failure error.
Proof.
  intros Hin Hc. unfold Zod.safeParse.
  pose proof (parse_shape_issues (Zod.shape o) m) as Hi.
  destruct (Zod.parse_shape (Zod.shape o) m) as [[|i issues] d]; simpl in *; [|eauto].
  destruct Hi as [Hi _]. specialize (Hi eq_refl).
  rewrite Forall_forall in Hi. destruct (Hi _ Hin) as [o' Ho']; simpl in *. congruence.
Qed.

(** A key the shape does not name has no influence on the parse. *)
Lemma parse_shape_strip sh m k v :
  k ∉ sh.*1 → Zod.parse_shape sh (<[k := v]> m) = Zod.parse_shape sh m.
Proof.
  induction sh as [|[k' t] sh IH]; simpl; [done|].
  intros Hk. apply not_elem_of_cons in Hk as [Hne Hk].
  rewrite IH by done. by rewrite lookup_insert_ne.
Qed.

Lemma safeParse_strip o m k v :
  k ∉ (Zod.shape o).*1 → Zod.safeParse o (Obj (<[k := v]> m)) = Zod.safeParse o (Obj m).
Proof. intros Hk. unfold Zod.safeParse. by rewrite parse_shape_strip. Qed.

Lemma string_inr n v o : Zod.string n v = inr o → ∃ s, v = Some (Str s) ∧ o = Some (Str s) ∧ (n ≤ String.length s)%nat.
Proof.
  destruct v as [[]|]; simpl; try done.
  case_match eqn:Hn; [|done]. intros [= <-]. apply Nat.leb_le in Hn. eauto.
Qed.

Lemma enum_inr l v o : Zod.enum l v = inr o → ∃ s, v = Some (Str s) ∧ o = Some (Str s) ∧ s ∈ l.
Proof.
  destruct v as [[]|]; simpl; try done.
  case_bool_decide; [|done]. intros [= <-]. eauto.
Qed.

Lemma number_inr v o : Zod.number v = inr o → ∃ f, v = Some (Num f) ∧ o = Some (Num f).
Proof.
  destruct v as [[]|]; simpl; try done.
  case_match; [done|]. intros [= <-]. eauto.
Qed.

Lemma uuid_inr v o : Zod.uuid v = inr o → ∃ s, v = Some (Str s) ∧ o = Some (Str s) ∧ Zod.is_uuid s = true.
Proof.
  destruct v as [[]|]; simpl; try done.
  case_match eqn:Hu; [|done]. intros [= <-]. eauto.
Qed.

Lemma optional_inr t v o :
  Zod.optional t v = inr o → (v = None ∧ o = None) ∨ (is_Some v ∧ t v = inr o).
Proof.
  destruct v; simpl; intros Ho; [right; eauto | left].
  by injection Ho as <-.
Qed.

End zod_facts.

(** ** The store *)

Section pg_facts.

Implicit Types (r l d : gmap string val) (t : list (gmap string val)).

Lemma bind_inr {A B} (m : Pg.DatabaseError + A) (f : A → Pg.DatabaseError + B) b :
  m ≫= f = inr b ↔ ∃ a, m = inr a ∧ f a = inr b.
Proof. destruct m; simpl; naive_solver. Qed.

(** A cast checks its argument and returns it. *)
Lemma cast_inr v type v' : Pg.cast v type = inr v' → v' = v.
Proof.
  unfold Pg.cast. case_bool_decide.
  - destruct v; naive_solver.
  - destruct (Pg.pg_enum type); [|done].
    destruct v; try done; [naive_solver|]. case_bool_decide; naive_solver.
Qed.

Lemma cast_label s type labels :
  Pg.pg_enum type = Some labels → s ∈ labels → Pg.cast (Str s) type = inr (Str s).
Proof.
  intros Ht Hs. unfold Pg.cast. case_bool_decide as Hd.
  - subst. done.
  - rewrite Ht. by rewrite bool_decide_true.
Qed.

Lemma check_row_inr cols r :
  Pg.check_row cols r = inr () ↔ Forall (λ c, Pg.check_column r c = None) cols.
Proof.
  unfold Pg.check_row. induction cols as [|c cols IH]; simpl.
  - split; auto.
  - rewrite Forall_cons. destruct (Pg.check_column r c); simpl.
    + split; [done|]. by intros [? _].
    + rewrite <- IH. split; [by split | by intros [_ ?]].
Qed.

Lemma fresh_conflicts g t r :
  Pg.fresh g t = true → r !! "id" = Some (Str (Pg.gen_random_uuid g)) →
  Pg.conflicts Pg.pkey r t = false.
Proof.
  intros Hf Hid. unfold Pg.fresh in Hf. rewrite forallb_forall in Hf.
  unfold Pg.conflicts, Pg.pkey. simpl. rewrite Hid. simpl.
  apply bool_decide_eq_false. intros Hin.
  apply list_elem_of_fmap_1 in Hin as (r' & Hk & Hr').
  apply list_elem_of_In, Hf in Hr'.
  destruct (r' !! "id") as [[]|]; simpl in *; try done.
  injection Hk as <-. by rewrite bool_decide_true in Hr'.
Qed.

(** *** UPDATE *)

Lemma set_cons cols a sets r r' :
  Pg.set cols (a :: sets) r = inr r' →
  Pg.column a ∈ Pg.col_name <$> cols
  ∧ match Pg.type a with
    | Some ty => Pg.cast (Pg.value a) ty = inr (Pg.value a)
    | None => True
    end
  ∧ Pg.set cols sets (<[Pg.column a := Pg.value a]> r) = inr r'.
Proof.
  simpl. case_bool_decide; [|done]. intros Hb. split; [done|].
  apply bind_inr in Hb as (v & Hv & Hs).
  destruct (Pg.type a) as [ty|].
  - pose proof (cast_inr _ _ _ Hv) as ->. done.
  - by injection Hv as <-.
Qed.

(** A column that no assignment names keeps its value. *)
Lemma set_lookup_other cols sets r r' k :
  Pg.set cols sets r = inr r' → k ∉ Pg.column <$> sets → r' !! k = r !! k.
Proof.
  revert r. induction sets as [|a sets IH]; intros r Hs Hk.
  - by injection Hs as <-.
  - apply set_cons in Hs as (_ & _ & Hs).
    rewrite fmap_cons in Hk. apply not_elem_of_cons in Hk as [Hne Hk].
    rewrite (IH _ Hs Hk). by rewrite lookup_insert_ne.
Qed.

(** A column either keeps its value or takes the value of an assignment
    that names it. *)
Lemma set_lookup cols sets r r' k :
  Pg.set cols sets r = inr r' →
  r' !! k = r !! k ∨ ∃ a, a ∈ sets ∧ Pg.column a = k ∧ r' !! k = Some (Pg.value a).
Proof.
  revert r. induction sets as [|a sets IH]; intros r Hs.
  - injection Hs as <-. by left.
  - apply set_cons in Hs as (_ & _ & Hs).
    destruct (IH _ Hs) as [Heq|(a' & Ha' & Hc & Hv)].
    + rewrite Heq. destruct (decide (Pg.column a = k)) as [<-|Hne].
      * right. exists a. rewrite lookup_insert_eq. split; [left|done].
      * left. by rewrite lookup_insert_ne.
    + right. exists a'. split; [by right|done].
Qed.

(** When no two assignments name the same column, the column named by an
    assignment takes its value. *)
Lemma set_lookup_assigned cols sets r r' a :
  Pg.set cols sets r = inr r' → NoDup (Pg.column <$> sets) → a ∈ sets →
  r' !! Pg.column a = Some (Pg.value a).
Proof.
  revert r. induction sets as [|a0 sets IH]; intros r Hs Hnd Ha.
  - by apply elem_of_nil in Ha.
  - apply set_cons in Hs as (_ & _ & Hs).
    rewrite fmap_cons in Hnd. apply NoDup_cons in Hnd as [Hnotin Hnd].
    apply elem_of_cons in Ha as [->|Ha].
    + rewrite (set_lookup_other _ _ _ _ _ Hs Hnotin). by rewrite lookup_insert_eq.
    + by apply (IH _ Hs Hnd Ha).
Qed.

Lemma set_inr cols sets r :
  Forall (λ a, Pg.column a ∈ Pg.col_name <$> cols
               ∧ match Pg.type a with
                 | Some ty => Pg.cast (Pg.value a) ty = inr (Pg.value a)
                 | None => True
                 end) sets →
  ∃ r', Pg.set cols sets r = inr r'.
Proof.
  intros Hall. revert r. induction Hall as [|a sets [Hc Ht] _ IH]; intros r.
  - by eexists.
  - simpl. rewrite bool_decide_true by done.
    destruct (Pg.type a) as [ty|]; [rewrite Ht|]; apply IH.
Qed.

Lemma update_where_id_inr cols sets id t (u : list (bool * gmap string val)) :
  Pg.update_where_id cols sets id t = inr u ↔ Forall2 (updated cols sets id) t u.
Proof.
  revert u. induction t as [|r t IH]; intros u; simpl.
  - split; [intros [= <-]; constructor | by intros ->%Forall2_nil_inv_l].
  - split.
    + intros Hb. apply bind_inr in Hb as (br & Hbr & Hb).
      apply bind_inr in Hb as (u' & Hu' & [= <-]).
      constructor; [|by apply IH]. unfold updated.
      destruct (Pg.sql_eq _ _); [|by injection Hbr as <-].
      apply bind_inr in Hbr as (r' & Hr' & Hbr).
      apply bind_inr in Hbr as ([] & Hck & [= <-]). done.
    + intros (br & u' & Hbr & Hu' & ->)%Forall2_cons_inv_l.
      apply IH in Hu' as ->. unfold updated in Hbr.
      destruct (Pg.sql_eq _ _).
      * destruct br as [b r']; simpl in *. destruct Hbr as (-> & -> & Hck).
        simpl. by rewrite Hck.
      * by subst br.
Qed.

(** *** Referential integrity *)

Lemma sql_eq_true a b :
  Pg.sql_eq a b = true ↔ ∃ i, a = Some (Str i) ∧ b = Some (Str i).
Proof.
  unfold Pg.sql_eq. split.
  - destruct a as [[]|], b as [[]|]; try done.
    intros ->%bool_decide_eq_true. eauto.
  - intros (i & -> & ->). by apply bool_decide_eq_true.
Qed.

Lemma references_true t v :
  Pg.references t v = true ↔ ∃ d i, d ∈ t ∧ v = Some (Str i) ∧ d !! "id" = Some (Str i).
Proof.
  unfold Pg.references. rewrite bool_decide_eq_true, Exists_exists.
  split.
  - intros (d & Hd & (i & -> & Hi)%Is_true_true%sql_eq_true). eauto.
  - intros (d & i & Hd & -> & Hi). exists d. split; [done|].
    apply Is_true_true, sql_eq_true. eauto.
Qed.

Lemma referential_integrity_true s :
  Pg.referential_integrity s = true ↔
  ∀ l, l ∈ Pg.links s →
    Pg.references (Pg.devices s) (l !! "from_id") = true
    ∧ Pg.references (Pg.devices s) (l !! "to_id") = true.
Proof.
  unfold Pg.referential_integrity, Pg.fkeys_ok. rewrite forallb_forall.
  split; intros Hri l Hl.
  - apply andb_true_iff, Hri. by apply list_elem_of_In.
  - apply andb_true_iff, Hri. by apply list_elem_of_In.
Qed.

(** The ids of a table decide what refers to it. *)
Lemma references_ids t t' v :
  (∀ i, (∃ d, d ∈ t ∧ d !! "id" = Some (Str i)) → ∃ d, d ∈ t' ∧ d !! "id" = Some (Str i)) →
  Pg.references t v = true → Pg.references t' v = true.
Proof.
  intros Hids (d & i & Hd & -> & Hi)%references_true.
  destruct (Hids i) as (d' & Hd' & Hi'); [by eauto|].
  apply references_true. eauto.
Qed.

Lemma updated_ids cols sets id t (u : list (bool * gmap string val)) :
  Pg.assigns sets Pg.pkey = false → Forall2 (updated cols sets id) t u →
  Forall2 (λ r r', r' !! "id" = r !! "id") t u.*2.
Proof.
  intros Ha Hu. apply bool_decide_eq_false in Ha. rewrite Exists_exists in Ha.
  induction Hu as [|r br t u Hbr _ IH]; simpl; constructor; [|done].
  unfold updated in Hbr. destruct (Pg.sql_eq _ _); [|by subst br].
  destruct Hbr as (_ & Hset & _). apply (set_lookup_other _ _ _ _ _ Hset).
  intros (a & Hk & Ha')%list_elem_of_fmap_1. apply Ha. exists a. split; [done|].
  rewrite <- Hk. unfold Pg.pkey. by left.
Qed.

Lemma Forall2_ids t t' i :
  Forall2 (λ r r', r' !! "id" = r !! "id") t t' →
  (∃ d, d ∈ t ∧ d !! "id" = Some (Str i)) → ∃ d, d ∈ t' ∧ d !! "id" = Some (Str i).
Proof.
  intros Hf (d & Hd & Hi). apply list_elem_of_lookup_1 in Hd as [n Hn].
  destruct (Forall2_lookup_l _ _ _ _ _ Hf Hn) as (d' & Hn' & Heq).
  exists d'. split; [by eapply list_elem_of_lookup_2|congruence].
Qed.

Lemma update_devices_integrity sets id s rs s' :
  Pg.update_devices sets id s = inr (rs, s') →
  Pg.referential_integrity s = true → Pg.referential_integrity s' = true.
Proof.
  unfold Pg.update_devices. intros Hb Hri.
  apply bind_inr in Hb as (u & Hu & Hb). apply update_where_id_inr in Hu.
  rewrite referential_integrity_true in Hri. apply referential_integrity_true.
  destruct (Pg.assigns sets Pg.pkey) eqn:Ha; simpl in Hb.
  - destruct (Pg.index_ok _ _ _); [|done]. simpl in Hb.
    destruct (forallb _ _) eqn:Hfk; [|done]. simpl in Hb.
    injection Hb as <- <-. simpl. intros l Hl.
    rewrite forallb_forall in Hfk.
    pose proof Hl as Hl'. apply list_elem_of_In, Hfk, andb_true_iff in Hl'.
    destruct (Hri l Hl) as [Hf Ht]. rewrite Hf, Ht in Hl'. by destruct Hl'.
  - injection Hb as <- <-. simpl. intros l Hl.
    destruct (Hri l Hl) as [Hf Ht].
    split; (eapply references_ids; [|eassumption]); intros i;
      eapply Forall2_ids, updated_ids; eauto.
Qed.

Lemma updated_endpoints cols sets id t (u : list (bool * gmap string val)) ds :
  Pg.assigns sets ["from_id"; "to_id"] = false → Forall2 (updated cols sets id) t u →
  Forall (λ l, Pg.fkeys_ok ds l = true) t → Forall (λ l, Pg.fkeys_ok ds l = true) u.*2.
Proof.
  intros Ha Hu. apply bool_decide_eq_false in Ha. rewrite Exists_exists in Ha.
  induction Hu as [|r br t u Hbr _ IH]; simpl; [done|].
  intros [Hr Ht]%Forall_cons. constructor; [|by apply IH].
  unfold updated in Hbr. destruct (Pg.sql_eq _ _); [|by subst br].
  destruct Hbr as (_ & Hset & _). unfold Pg.fkeys_ok in *.
  rewrite !(set_lookup_other _ _ _ _ _ Hset); [done| |].
  - intros (a & Hk & Ha')%list_elem_of_fmap_1. apply Ha. exists a. split; [done|].
    rewrite <- Hk. set_solver.
  - intros (a & Hk & Ha')%list_elem_of_fmap_1. apply Ha. exists a. split; [done|].
    rewrite <- Hk. set_solver.
Qed.

Lemma update_links_integrity sets id s rs s' :
  Pg.update_links sets id s = inr (rs, s') →
  Pg.referential_integrity s = true → Pg.referential_integrity s' = true.
Proof.
  unfold Pg.update_links. intros Hb Hri.
  apply bind_inr in Hb as (u & Hu & Hb). apply update_where_id_inr in Hu.
  destruct (_ && _); [done|]. destruct (_ && _); [done|].
  unfold Pg.referential_integrity in *. rewrite forallb_forall in Hri.
  destruct (Pg.assigns sets ["from_id"; "to_id"]) eqn:Ha; simpl in Hb.
  - destruct (forallb _ u) eqn:Hfk; [|done]. simpl in Hb.
    injection Hb as <- <-. simpl. apply forallb_forall. intros l Hl.
    apply list_elem_of_In, list_elem_of_fmap_1 in Hl as ([b l'] & -> & Hl).
    rewrite forallb_forall in Hfk. specialize (Hfk _ (proj1 (list_elem_of_In _ _) Hl)).
    simpl in *. destruct b; [done|].
    apply list_elem_of_lookup_1 in Hl as [n Hn].
    destruct (Forall2_lookup_r _ _ _ _ _ Hu Hn) as (r & Hr & Hup).
    unfold updated in Hup. destruct (Pg.sql_eq _ _); [by destruct Hup|].
    injection Hup as <-. apply Hri, list_elem_of_In. by eapply list_elem_of_lookup_2.
  - injection Hb as <- <-. simpl. apply forallb_forall. intros l Hl.
    apply list_elem_of_In in Hl.
    assert (Forall (λ l, Pg.fkeys_ok (Pg.devices s) l = true) u.*2) as Hall.
    { eapply updated_endpoints; eauto. apply Forall_forall. intros l' Hl'.
      by apply Hri, list_elem_of_In. }
    rewrite Forall_forall in Hall. by apply Hall.
Qed.

Lemma delete_from_devices_integrity id s :
  Pg.referential_integrity s = true →
  Pg.referential_integrity (Pg.delete_from_devices id s).2 = true.
Proof.
  rewrite !referential_integrity_true. unfold Pg.delete_from_devices; simpl.
  intros Hri l [Hgone Hl]%list_elem_of_filter.
  assert (∀ v, Pg.references (Pg.devices s) v = true →
    Pg.references (filter (λ d, Pg.sql_eq (d !! "id") (Some id)) (Pg.devices s)) v = false →
    Pg.references (filter (λ d, ¬ Pg.sql_eq (d !! "id") (Some id)) (Pg.devices s)) v = true)
    as Hkeep.
  { intros v (d & i & Hd & -> & Hi)%references_true Hnot.
    apply references_true. exists d, i. split; [|done].
    apply list_elem_of_filter. split; [|done]. intros Heq.
    apply not_true_iff_false in Hnot. apply Hnot, references_true.
    exists d, i. split; [|done]. apply list_elem_of_filter. done. }
  destruct (Hri l Hl) as [Hf Ht].
  split; apply Hkeep; try done; apply not_true_iff_false; intros Hr; apply Hgone;
    [left|right]; by apply Is_true_true.
Qed.

(** After the DELETE, no link refers to a deleted id. *)
Lemma delete_from_devices_cascade (id : string) s l :
  (Pg.delete_from_devices (Str id) s).1 ≠ [] →
  l ∈ Pg.links (Pg.delete_from_devices (Str id) s).2 →
  l !! "from_id" ≠ Some (Str id) ∧ l !! "to_id" ≠ Some (Str id).
Proof.
  unfold Pg.delete_from_devices; simpl. intros Hgone [Hl _]%list_elem_of_filter.
  destruct (filter _ (Pg.devices s)) as [|d gone] eqn:Hf; [done|].
  assert (d !! "id" = Some (Str id)) as Hd.
  { assert (d ∈ filter (λ d, Pg.sql_eq (d !! "id") (Some (Str id))) (Pg.devices s)) as Hin
      by (rewrite Hf; left).
    apply list_elem_of_filter in Hin as [(i & Hi & [= <-])%Is_true_true%sql_eq_true _].
    done. }
  split; intros Heq; apply Hl; [left|right]; apply Is_true_true, references_true;
    exists d, id; (split; [left|done]).
Qed.

(** *** INSERT *)

Lemma insert_into_devices_inr g p1 p2 p3 p4 p5 p6 s rs s' :
  Pg.insert_into_devices g p1 p2 p3 p4 p5 p6 s = inr (rs, s') →
  ∃ row, rs = [row]
    ∧ s' = {| Pg.devices := Pg.devices s ++ [row]; Pg.links := Pg.links s |}
    ∧ row !! "id" = Some (Str (Pg.gen_random_uuid g))
    ∧ Pg.conflicts Pg.pkey row (Pg.devices s) = false.
Proof.
  unfold Pg.insert_into_devices. intros Hb.
  repeat (apply bind_inr in Hb as (? & _ & Hb)).
  destruct (Pg.conflicts _ _ _) eqn:Hc; [done|]. injection Hb as <- <-.
  eexists. repeat split; try done.
Qed.

Lemma insert_into_links_inr g p1 p2 p3 p4 p5 p6 s rs s' :
  Pg.insert_into_links g p1 p2 p3 p4 p5 p6 s = inr (rs, s') →
  ∃ row, rs = [row]
    ∧ s' = {| Pg.devices := Pg.devices s; Pg.links := Pg.links s ++ [row] |}
    ∧ row !! "id" = Some (Str (Pg.gen_random_uuid g))
    ∧ Pg.conflicts Pg.pkey row (Pg.links s) = false
    ∧ Pg.fkeys_ok (Pg.devices s) row = true.
Proof.
  unfold Pg.insert_into_links. intros Hb.
  repeat (apply bind_inr in Hb as (? & _ & Hb)).
  destruct (Pg.conflicts Pg.pkey _ _) eqn:Hc; [done|]. simpl in Hb.
  destruct (Pg.conflicts Pg.links_unique _ _); [done|].
  destruct (Pg.fkeys_ok _ _) eqn:Hfk; [|done]. injection Hb as <- <-.
  eexists. repeat split; try done.
Qed.

End pg_facts.

(** ** The routes *)

Section routes_facts.
Context `{Zod.Pattern}.

Implicit Types (r l d : gmap string val).


(** *** Where the store of a route's answer comes from *)

Lemma post_devices_store g body s :
  (post_devices g body s).1 = s
  ∨ ∃ p1 p2 p3 p4 p5 p6 rs,
      Pg.insert_into_devices g p1 p2 p3 p4 p5 p6 s = inr (rs, (post_devices g body s).1).
Proof.
  unfold post_devices. destruct (Zod.safeParse _ _); [|by left].
  destruct (Pg.insert_into_devices _ _ _ _ _ _ _ _) as [|[rs s']] eqn:Hi; [by left|].
  right. by repeat eexists.
Qed.

Lemma post_links_store g body s :
  (post_links g body s).1 = s
  ∨ ∃ p1 p2 p3 p4 p5 p6 rs,
      Pg.insert_into_links g p1 p2 p3 p4 p5 p6 s = inr (rs, (post_links g body s).1).
Proof.
  unfold post_links. destruct (Zod.safeParse _ _); [|by left].
  destruct (Pg.insert_into_links _ _ _ _ _ _ _ _) as [|[rs s']] eqn:Hi.
  - left. by repeat case_bool_decide.
  - right. by repeat eexists.
Qed.

Lemma patch_devices_id_store id body s :
  (patch_devices_id id body s).1 = s
  ∨ ∃ sets i rs, Pg.update_devices sets i s = inr (rs, (patch_devices_id id body s).1).
Proof.
  unfold patch_devices_id. destruct (Zod.safeParse_uuid _); [|by left].
  destruct (Zod.safeParse _ _); [|by left]. case_bool_decide; [by left|].
  destruct (Pg.update_devices _ _ _) as [|[rs s']] eqn:Hu; [by left|].
  right. do 2 eexists. exists rs. destruct (rs !! 0%nat); exact Hu.
Qed.

Lemma patch_devices_id_position_store id body s :
  (patch_devices_id_position id body s).1 = s
  ∨ ∃ sets i rs,
      Pg.update_devices sets i s = inr (rs, (patch_devices_id_position id body s).1).
Proof.
  unfold patch_devices_id_position. destruct (Zod.safeParse_uuid _); [|by left].
  destruct (Zod.safeParse _ _); [|by left].
  destruct (Pg.update_devices _ _ _) as [|[rs s']] eqn:Hu; [by left|].
  right. do 2 eexists. exists rs. destruct (rs !! 0%nat); exact Hu.
Qed.

Lemma patch_links_id_store id body s :
  (patch_links_id id body s).1 = s
  ∨ ∃ sets i rs, Pg.update_links sets i s = inr (rs, (patch_links_id id body s).1).
Proof.
  unfold patch_links_id. destruct (Zod.safeParse_uuid _); [|by left].
  destruct (Zod.safeParse _ _); [|by left]. case_bool_decide; [by left|].
  destruct (Pg.update_links _ _ _) as [|[rs s']] eqn:Hu; [by left|].
  right. do 2 eexists. exists rs. destruct (rs !! 0%nat); exact Hu.
Qed.

Lemma delete_devices_id_store id s :
  (delete_devices_id id s).1 = s
  ∨ (delete_devices_id id s).1 = (Pg.delete_from_devices (Str id) s).2.
Proof.
  unfold delete_devices_id. unfold Zod.safeParse_uuid. destruct (Zod.is_uuid id); [|by left].
  right. destruct (Pg.delete_from_devices _ _) as [rs s']. by destruct (rs !! 0%nat).
Qed.

Lemma delete_links_id_store id s :
  (delete_links_id id s).1 = s
  ∨ (delete_links_id id s).1 = (Pg.delete_from_links (Str id) s).2.
Proof.
  unfold delete_links_id. unfold Zod.safeParse_uuid. destruct (Zod.is_uuid id); [|by left].
  right. destruct (Pg.delete_from_links _ _) as [rs s']. by destruct (rs !! 0%nat).
Qed.

(** C3. Referential integrity (both endpoints of every link are ids of
    device rows) is preserved by every request; and when DELETE
    /devices/:id is answered 204, no link of the store has the deleted id as
    its [from_id] or its [to_id]. *)
Theorem referential_integrity_preserved (g : Pg.defaults) (req : request) (s : Pg.store) :
  Pg.referential_integrity s = true →
  Pg.referential_integrity (routes g req s).1 = true
  ∧ ∀ id, req = DELETE_devices_id id → status (routes g req s).2 = 204 →
      ∀ l, l ∈ Pg.links (routes g req s).1 →
        l !! "from_id" ≠ Some (Str id) ∧ l !! "to_id" ≠ Some (Str id).
Proof.
  intros Hri. split.
  - destruct req as [| | |id|b|id b|id b|id| |b|id b|id]; simpl; try done.
    + destruct (get_devices_id id s) as [s' resp] eqn:Hg. unfold get_devices_id in Hg.
      repeat case_match; by simplify_eq.
    + destruct (post_devices_store g b s) as [->|(?&?&?&?&?&?&rs&Hi)]; [done|].
      apply insert_into_devices_inr in Hi as (row & _ & -> & _ & _).
      rewrite referential_integrity_true in Hri. apply referential_integrity_true.
      simpl. intros l Hl. destruct (Hri l Hl) as [Hf Ht].
      split; (eapply references_ids; [|eassumption]); intros i (d & Hd & Hi);
        exists d; (split; [|done]); apply elem_of_app; by left.
    + destruct (patch_devices_id_store id b s) as [->|(?&?&?&Hu)]; [done|].
      by eapply update_devices_integrity.
    + destruct (patch_devices_id_position_store id b s) as [->|(?&?&?&Hu)]; [done|].
      by eapply update_devices_integrity.
    + destruct (delete_devices_id_store id s) as [->| ->]; [done|].
      by apply delete_from_devices_integrity.
    + destruct (post_links_store g b s) as [->|(?&?&?&?&?&?&rs&Hi)]; [done|].
      apply insert_into_links_inr in Hi as (row & _ & -> & _ & _ & Hfk).
      unfold Pg.referential_integrity in *. simpl.
      rewrite forallb_app, Hri. simpl. by rewrite Hfk.
    + destruct (patch_links_id_store id b s) as [->|(?&?&?&Hu)]; [done|].
      by eapply update_links_integrity.
    + destruct (delete_links_id_store id s) as [->| ->]; [done|].
      unfold Pg.referential_integrity in *. simpl.
      rewrite forallb_forall in *. intros l Hl. apply Hri.
      apply list_elem_of_In. apply list_elem_of_In in Hl.
      by apply list_elem_of_filter in Hl as [_ Hl].
  - intros id -> Hst l Hl. simpl in *. unfold delete_devices_id in *.
    unfold Zod.safeParse_uuid in *. destruct (Zod.is_uuid id); [|done].
    pose proof (delete_from_devices_cascade id s l) as Hc.
    destruct (Pg.delete_from_devices (Str id) s) as [rs s']. simpl in *.
    destruct rs as [|r rs]; [done|]. by apply Hc.
Qed.

Lemma select_lookup cols r k :
  Pg.select cols r !! k = if decide (k ∈ cols) then r !! k else None.
Proof.
  unfold Pg.select. rewrite map_lookup_filter.
  destruct (r !! k) as [v|]; simpl; [|by case_decide].
  case_decide; [by rewrite option_guard_True | by rewrite option_guard_False].
Qed.

#[local] Instance created_at_le_total : Total Pg.created_at_le.
Proof. intros a b. unfold Pg.created_at_le. lia. Qed.

Lemma node_id d : ∃ o, node d = Obj o ∧ o !! "id" = d !! "id".
Proof.
  eexists. split; [done|]. rewrite !properties_cons. simpl. by destruct (d !! "id").
Qed.

Lemma edge_ends l :
  ∃ o, edge l = Obj o ∧ o !! "id" = l !! "id"
       ∧ o !! "source" = l !! "from_id" ∧ o !! "target" = l !! "to_id".
Proof.
  eexists. split; [done|]. rewrite !properties_cons, !properties_nil. simpl.
  repeat split.
  - by destruct (l !! "id").
  - by destruct (l !! "from_id").
  - by destruct (l !! "to_id").
Qed.

(** C5. GET /topology answers one node per device row and one edge per link
    row; the nodes follow the device rows and the edges the link rows in
    ascending [created_at]; every node carries the id of its device, every
    edge the id of its link, and the edge's [source] and [target] are the
    link's [from_id] and [to_id]. *)
Theorem get_topology_projection (g : Pg.defaults) (s : Pg.store) :
  ∃ nodes edges ds ls,
    routes g GET_topology s
    = (s, {| status := 200;
             sent := json (Some (object [("nodes", Some (Arr nodes));
                                         ("edges", Some (Arr edges))])) |})
    ∧ length nodes = length (Pg.devices s)
    ∧ length edges = length (Pg.links s)
    ∧ ds ≡ₚ Pg.devices s
    ∧ Sorted (λ a b, (Pg.created_at a ≤ Pg.created_at b)%Z) ds
    ∧ Forall2 (λ n d, ∃ o, n = Obj o ∧ o !! "id" = d !! "id") nodes ds
    ∧ ls ≡ₚ Pg.links s
    ∧ Sorted (λ a b, (Pg.created_at a ≤ Pg.created_at b)%Z) ls
    ∧ Forall2 (λ e l, ∃ o, e = Obj o ∧ o !! "id" = l !! "id"
                           ∧ o !! "source" = l !! "from_id"
                           ∧ o !! "target" = l !! "to_id") edges ls.
Proof.
  eexists _, _, (Pg.order_by_created_at (Pg.devices s)), (Pg.order_by_created_at (Pg.links s)).
  split; [reflexivity|].
  unfold Pg.order_by_created_at.
  repeat split.
  - rewrite !length_fmap. apply Permutation_length, merge_sort_Permutation.
  - rewrite !length_fmap. apply Permutation_length, merge_sort_Permutation.
  - apply merge_sort_Permutation.
  - apply (Sorted_merge_sort Pg.created_at_le).
  - rewrite <- list_fmap_compose. apply Forall2_fmap_l, Forall_Forall2_diag, Forall_forall.
    intros d _. destruct (node_id (Pg.select ["id"; "name"; "type"; "ip"; "status"; "x"; "y"] d))
      as (o & Ho & Hid).
    exists o. split; [done|]. rewrite Hid, select_lookup. by rewrite decide_True by set_solver.
  - apply merge_sort_Permutation.
  - apply (Sorted_merge_sort Pg.created_at_le).
  - rewrite <- list_fmap_compose. apply Forall2_fmap_l, Forall_Forall2_diag, Forall_forall.
    intros l _.
    destruct (edge_ends (Pg.select ["id"; "from_id"; "to_id"; "status"; "label";
                                    "from_handle"; "to_handle"] l))
      as (o & Ho & Hid & Hs & Ht).
    exists o. split; [done|]. rewrite Hid, Hs, Ht, !select_lookup.
    by rewrite !decide_True by set_solver.
Qed.

(** *** What a successful parse holds *)

Lemma elem_of_entries_of sh m k v :
  (k, v) ∈ entries_of sh m ↔ ∃ t, (k, t) ∈ sh ∧ t (m !! k) = inr (Some v).
Proof.
  unfold entries_of. rewrite list_elem_of_omap. split.
  - intros ([k' t] & Hin & Hm). simpl in Hm.
    destruct (t (m !! k')) as [|[v'|]] eqn:E; simplify_eq. eauto.
  - intros (t & Hin & Ht). exists (k, t). simpl. by rewrite Ht.
Qed.

Lemma NoDup_entries_of sh m : NoDup sh.*1 → NoDup (entries_of sh m).*1.
Proof.
  induction sh as [|[k t] sh IH]; simpl; [intros _; constructor|].
  intros [Hk Hnd]%NoDup_cons. unfold entries_of; simpl.
  destruct (t (m !! k)) as [|[v|]]; simpl; try by apply IH.
  apply NoDup_cons. split; [|by apply IH]. intros Hin. apply Hk.
  apply list_elem_of_fmap_1 in Hin as ([k' v'] & -> & Hin).
  apply elem_of_entries_of in Hin as (t' & Hin & _).
  apply (list_elem_of_fmap_2 fst) in Hin. done.
Qed.

Lemma param_nullish v : param (Some v ?? Some Null) = v.
Proof. by destruct v. Qed.

Lemma optional_Some t x v : Zod.optional t x = inr (Some v) → t x = inr (Some v).
Proof. by destruct x. Qed.

Lemma string_returns_input n : returns_input (Zod.string n).
Proof. by intros x o (a & -> & -> & _)%string_inr. Qed.
Lemma enum_returns_input values : returns_input (Zod.enum values).
Proof. by intros x o (a & -> & -> & _)%enum_inr. Qed.
Lemma number_returns_input : returns_input Zod.number.
Proof. by intros x o (a & -> & ->)%number_inr. Qed.
Lemma uuid_returns_input : returns_input Zod.uuid.
Proof. by intros x o (a & -> & -> & _)%uuid_inr. Qed.
Lemma optional_returns_input t : returns_input t → returns_input (Zod.optional t).
Proof. intros Ht [x|] o; simpl; [apply Ht | by intros [= <-]]. Qed.

Lemma elem_of_entries_of_lookup sh m k v :
  Forall (λ kt, returns_input kt.2) sh →
  Forall (λ kt, ∃ o, kt.2 (m !! kt.1) = inr o) sh →
  (k, v) ∈ entries_of sh m ↔ k ∈ sh.*1 ∧ m !! k = Some v.
Proof.
  rewrite !Forall_forall. intros Hret Hok. rewrite elem_of_entries_of. split.
  - intros (t & Hin & Ht). split; [by apply (list_elem_of_fmap_2 fst) in Hin|].
    symmetry. by apply (Hret _ Hin).
  - intros [([k' t] & -> & Hin)%list_elem_of_fmap_1 Hm]. simpl in *.
    exists t. split; [done|]. destruct (Hok _ Hin) as [o Ho]. simpl in Ho.
    rewrite Ho. f_equal. rewrite <- Hm. by apply (Hret _ Hin).
Qed.

Lemma deviceUpdateSchema_fields m fields :
  Zod.safeParse deviceUpdateSchema (Obj m) = Zod.success fields →
  NoDup fields.*1
  ∧ (∀ k v, (k, v) ∈ fields ↔
            k ∈ ["name"; "type"; "ip"; "status"; "x"; "y"] ∧ m !! k = Some v)
  ∧ (∀ k v, (k, v) ∈ fields → device_value k v).
Proof.
  intros (m' & [= <-] & Hall & ->)%safeParse_success.
  split; [by apply NoDup_entries_of; compute; repeat constructor; set_solver|].
  split.
  - intros k v.
    change ["name"; "type"; "ip"; "status"; "x"; "y"] with (Zod.shape deviceUpdateSchema).*1.
    apply elem_of_entries_of_lookup; [|done].
    cbv [deviceUpdateSchema deviceCreateSchema Zod.partial Zod.shape]. simpl.
    repeat apply Forall_cons_2; try apply Forall_nil_2; simpl;
      eauto using string_returns_input, enum_returns_input, number_returns_input,
                  optional_returns_input.
  - intros k v. rewrite elem_of_entries_of.
    cbv [deviceUpdateSchema deviceCreateSchema Zod.partial Zod.shape].
    simpl. unfold device_value.
    intros (t & Hin & Ht).
    repeat (apply elem_of_cons in Hin as [[= -> ->]|Hin]); try by apply elem_of_nil in Hin.
    all: repeat apply optional_Some in Ht.
    all: first [ apply string_inr in Ht as (a & Hm & [= ->] & Hlen)
               | apply enum_inr in Ht as (a & Hm & [= ->] & Hlen)
               | apply number_inr in Ht as (a & Hm & [= ->]) ].
    all: naive_solver.
Qed.

(** *** UPDATE of the one row a primary key selects *)

Lemma index_key_pkey r (id : string) :
  r !! "id" = Some (Str id) → Pg.index_key Pg.pkey r = Some [id].
Proof. intros Hid. unfold Pg.pkey. simpl. by rewrite Hid. Qed.

Lemma unique_pkey_others (before after : list (gmap string val)) row (id : string) :
  Pg.unique Pg.pkey (before ++ row :: after) = true → row !! "id" = Some (Str id) →
  ∀ r, r ∈ before ++ after → Pg.sql_eq (r !! "id") (Some (Str id)) = false.
Proof.
  intros Hu Hid r Hr. apply bool_decide_eq_true in Hu.
  assert (omap (Pg.index_key Pg.pkey) (row :: after)
          = [id] :: omap (Pg.index_key Pg.pkey) after) as Hrow.
  { change (omap (Pg.index_key Pg.pkey) (row :: after))
      with (match Pg.index_key Pg.pkey row with
            | Some y => y :: omap (Pg.index_key Pg.pkey) after
            | None => omap (Pg.index_key Pg.pkey) after
            end).
    by rewrite (index_key_pkey _ _ Hid). }
  unfold Pg.unique in Hu. rewrite omap_app, Hrow in Hu.
  apply NoDup_app in Hu as (_ & Hdisj & [Hnotin _]%NoDup_cons).
  apply not_true_iff_false. intros (i & Hi & [= ->])%sql_eq_true.
  apply index_key_pkey in Hi.
  apply elem_of_app in Hr as [Hr|Hr].
  - apply (Hdisj [i]); [|left]. apply list_elem_of_omap. eauto.
  - apply Hnotin. apply list_elem_of_omap. eauto.
Qed.

Lemma Forall2_not_updated cols sets id (rows : list (gmap string val)) :
  (∀ r, r ∈ rows → Pg.sql_eq (r !! "id") (Some id) = false) →
  Forall2 (updated cols sets id) rows (pair false <$> rows).
Proof.
  intros Hno. apply Forall2_fmap_r, Forall_Forall2_diag, Forall_forall.
  intros r Hr. unfold updated. by rewrite (Hno r Hr).
Qed.

Lemma update_where_id_one cols sets (id : string) before row after row' :
  (∀ r, r ∈ before ++ after → Pg.sql_eq (r !! "id") (Some (Str id)) = false) →
  row !! "id" = Some (Str id) →
  Pg.set cols sets row = inr row' → Pg.check_row cols row' = inr () →
  Pg.update_where_id cols sets (Str id) (before ++ row :: after)
  = inr ((pair false <$> before) ++ (true, row') :: (pair false <$> after)).
Proof.
  intros Hothers Hid Hset Hck. apply update_where_id_inr.
  apply Forall2_app; [|constructor].
  - apply Forall2_not_updated. intros r Hr. apply Hothers, elem_of_app. by left.
  - unfold updated. rewrite Hid. simpl. by rewrite bool_decide_true.
  - apply Forall2_not_updated. intros r Hr. apply Hothers, elem_of_app. by right.
Qed.

Lemma marked_rows (before after : list (gmap string val)) row' :
  ((pair false <$> before) ++ (true, row') :: (pair false <$> after)).*2
  = before ++ row' :: after
  ∧ (filter (λ br : bool * gmap string val, br.1 = true)
       ((pair false <$> before) ++ (true, row') :: (pair false <$> after))).*2
    = [row'].
Proof.
  assert (∀ rows : list (gmap string val),
            filter (λ br : bool * gmap string val, br.1 = true) (pair false <$> rows) = [])
    as Hnone.
  { intros rows. induction rows as [|r rows IH]; [done|].
    rewrite fmap_cons, filter_cons_False; [done|]. by intros [=]. }
  split.
  - rewrite fmap_app, fmap_cons, <- !list_fmap_compose. simpl.
    by rewrite !list_fmap_id.
  - rewrite filter_app, filter_cons_True, !Hnone by done. done.
Qed.

Lemma update_devices_one sets (id : string) s before row after row' :
  Pg.unique Pg.pkey (Pg.devices s) = true →
  Pg.devices s = before ++ row :: after →
  row !! "id" = Some (Str id) →
  Pg.assigns sets Pg.pkey = false →
  Pg.set Pg.devices_columns sets row = inr row' →
  Pg.check_row Pg.devices_columns row' = inr () →
  Pg.update_devices sets (Str id) s
  = inr ([row'], {| Pg.devices := before ++ row' :: after; Pg.links := Pg.links s |}).
Proof.
  intros Hu Hd Hid Ha Hset Hck. unfold Pg.update_devices. rewrite Hd in *.
  rewrite (update_where_id_one _ _ _ _ _ _ row'); try done;
    [|by eapply unique_pkey_others].
  simpl. rewrite Ha. simpl.
  destruct (marked_rows before after row') as [-> ->]. done.
Qed.

Lemma filter_all {A} (P : A → Prop) `{∀ x, Decision (P x)} (l : list A) :
  Forall P l → filter P l = l.
Proof.
  induction 1 as [|x l Hx _ IH]; [done|]. by rewrite filter_cons_True, IH.
Qed.

Lemma check_column_ext r r' c :
  r !! Pg.col_name c = r' !! Pg.col_name c → Pg.check_column r c = Pg.check_column r' c.
Proof. unfold Pg.check_column. by intros ->. Qed.

Lemma rows_ok_elem cols (rows : list (gmap string val)) r :
  Pg.rows_ok cols rows = true → r ∈ rows → Forall (λ c, Pg.check_column r c = None) cols.
Proof.
  unfold Pg.rows_ok. rewrite forallb_forall. intros Hok Hr%list_elem_of_In.
  specialize (Hok _ Hr). apply check_row_inr.
  by destruct (Pg.check_row cols r) as [|[]].
Qed.

Lemma device_setParts_spec m fields :
  Zod.safeParse deviceUpdateSchema (Obj m) = Zod.success fields →
  filter (λ kv, kv.1 ∈ ["name"; "type"; "ip"; "status"; "x"; "y"]) fields = fields
  ∧ Pg.column <$> device_setParts fields = fields.*1
  ∧ (∀ a, a ∈ device_setParts fields → (Pg.column a, Pg.value a) ∈ fields)
  ∧ (∀ k v, (k, v) ∈ fields →
       ∃ a, a ∈ device_setParts fields ∧ Pg.column a = k ∧ Pg.value a = v)
  ∧ Pg.assigns (device_setParts fields) Pg.pkey = false
  ∧ Forall (λ a, Pg.column a ∈ Pg.col_name <$> Pg.devices_columns
                 ∧ match Pg.type a with
                   | Some ty => Pg.cast (Pg.value a) ty = inr (Pg.value a)
                   | None => True
                   end) (device_setParts fields).
Proof.
  intros (Hnd & Hin & Hval)%deviceUpdateSchema_fields.
  assert (filter (λ kv : string * val, kv.1 ∈ ["name"; "type"; "ip"; "status"; "x"; "y"]) fields
          = fields) as Hall.
  { apply filter_all, Forall_forall. intros [k v] Hkv. by apply Hin in Hkv as [? _]. }
  unfold device_setParts. rewrite Hall.
  assert (∀ a, a ∈ device_setParts fields → (Pg.column a, Pg.value a) ∈ fields) as Hsets.
  { unfold device_setParts. rewrite Hall. intros a ([k v] & -> & Hkv)%list_elem_of_fmap_1.
    cbn [Pg.column Pg.value fst snd]. by rewrite param_nullish. }
  unfold device_setParts in Hsets. rewrite Hall in Hsets.
  split; [done|]. split; [|split; [done|split; [|split]]].
  - rewrite <- list_fmap_compose. by apply list_fmap_ext.
  - intros k v Hkv. eexists. split; [by apply list_elem_of_fmap_2|].
    cbn [Pg.column Pg.value fst snd]. by rewrite param_nullish.
  - apply bool_decide_eq_false. rewrite Exists_exists. intros (a & Ha & Hid).
    apply Hsets, Hin in Ha as [Ha _]. unfold Pg.pkey in Hid.
    apply list_elem_of_singleton in Hid. rewrite Hid in Ha. set_solver.
  - apply Forall_forall. intros a Ha. pose proof (Hsets a Ha) as Hkv.
    apply list_elem_of_fmap_1 in Ha as ([k v] & -> & _).
    cbn [Pg.column Pg.value Pg.type fst snd] in *. rewrite param_nullish in *.
    pose proof (Hval _ _ Hkv) as Hv. apply Hin in Hkv as [Hk _].
    split; [repeat (apply elem_of_cons in Hk as [->|Hk]; [compute_done|]); by apply elem_of_nil in Hk|].
    destruct Hv as [[-> _]|[[-> (a & -> & Ha)]|[[-> _]|[[-> (a & -> & Ha)]|[[-> _]|[-> _]]]]]];
      try done; simpl.
    + by apply (cast_label a "device_type" _ eq_refl).
    + by apply (cast_label a "device_status" _ eq_refl).
Qed.

Lemma consistent_true s :
  Pg.consistent s = true →
  Pg.rows_ok Pg.devices_columns (Pg.devices s) = true
  ∧ Pg.unique Pg.pkey (Pg.devices s) = true
  ∧ Pg.rows_ok Pg.links_columns (Pg.links s) = true
  ∧ Pg.unique Pg.pkey (Pg.links s) = true
  ∧ Pg.unique Pg.links_unique (Pg.links s) = true
  ∧ Pg.referential_integrity s = true.
Proof. unfold Pg.consistent. rewrite !andb_true_iff. naive_solver. Qed.

(** The row that the SET list of a valid payload makes of a device row: a
    recognized field of the payload holds the payload's value, every other
    column holds what it held. *)
Lemma device_setParts_lookup m fields row row' :
  Zod.safeParse deviceUpdateSchema (Obj m) = Zod.success fields →
  Pg.set Pg.devices_columns (device_setParts fields) row = inr row' →
  (∀ k v, k ∈ ["name"; "type"; "ip"; "status"; "x"; "y"] → m !! k = Some v →
     row' !! k = Some v)
  ∧ (∀ k, k ∉ ["name"; "type"; "ip"; "status"; "x"; "y"] ∨ m !! k = None →
     row' !! k = row !! k).
Proof.
  intros Hparse Hset.
  destruct (deviceUpdateSchema_fields _ _ Hparse) as (Hnd & Hin & Hval).
  destruct (device_setParts_spec _ _ Hparse) as (Hall & Hcols & Hsets & Hfields & Hassigns & Hok).
  split.
  - intros k v Hk Hm. destruct (Hfields k v) as (a & Ha & <- & <-); [by apply Hin|].
    eapply set_lookup_assigned; [done| |done]. by rewrite Hcols.
  - intros k Hk. eapply set_lookup_other; [done|]. rewrite Hcols.
    intros ([k' v] & -> & Hkv)%list_elem_of_fmap_1. apply Hin in Hkv as [? ?]. simpl in *.
    destruct Hk; [done|congruence].
Qed.

(** That row satisfies the column constraints of [devices] when the row it
    comes from does: what the validator lets through, the columns accept. *)
Lemma device_setParts_check m fields row row' :
  Zod.safeParse deviceUpdateSchema (Obj m) = Zod.success fields →
  Pg.check_row Pg.devices_columns row = inr () →
  Pg.set Pg.devices_columns (device_setParts fields) row = inr row' →
  Pg.check_row Pg.devices_columns row' = inr ().
Proof.
  intros Hparse Hrowok%check_row_inr Hset.
  destruct (deviceUpdateSchema_fields _ _ Hparse) as (Hnd & Hin & Hval).
  destruct (device_setParts_lookup _ _ _ _ Hparse Hset) as [Hnew Hold].
  apply check_row_inr. unfold Pg.devices_columns in *.
  repeat (apply Forall_cons in Hrowok as [? Hrowok]).
  assert (∀ c, Pg.check_column row c = None →
            (Pg.col_name c ∉ ["name"; "type"; "ip"; "status"; "x"; "y"]
             ∨ m !! Pg.col_name c = None) →
            Pg.check_column row' c = None) as Hsame.
  { intros c Hc Hk. rewrite <- Hc. apply check_column_ext. by apply Hold. }
  assert (∀ c v, m !! Pg.col_name c = Some v → device_value (Pg.col_name c) v →
            Pg.col_name c ∈ ["name"; "type"; "ip"; "status"; "x"; "y"] →
            Pg.check_column {[ Pg.col_name c := v ]} c = None →
            Pg.check_column row' c = None) as Hchanged.
  { intros c v Hm _ Hk <-. apply check_column_ext.
    rewrite lookup_singleton_eq. by apply Hnew. }
  repeat apply Forall_cons_2; try apply Forall_nil_2.
  - apply Hsame; [done|]. left. compute_done.
  - destruct (m !! "name") as [v|] eqn:Hm; [|by apply Hsame; [|right]].
    assert (device_value "name" v) as Hv by (by apply Hval, Hin; split; [compute_done|]).
    apply (Hchanged _ v); [done|done|compute_done|].
    destruct Hv as [[_ (a & -> & _)]|Hv]; [done|]. naive_solver.
  - destruct (m !! "type") as [v|] eqn:Hm; [|by apply Hsame; [|right]].
    assert (device_value "type" v) as Hv by (by apply Hval, Hin; split; [compute_done|]).
    apply (Hchanged _ v); [done|done|compute_done|].
    destruct Hv as [[? _]|[[_ (a & -> & Ha)]|Hv]]; [done| |naive_solver].
    unfold Pg.check_column. cbn [Pg.col_name Pg.col_type Pg.not_null Pg.check_in].
    rewrite lookup_singleton_eq. cbn. by rewrite bool_decide_true.
  - destruct (m !! "ip") as [v|] eqn:Hm; [|by apply Hsame; [|right]].
    assert (device_value "ip" v) as Hv by (by apply Hval, Hin; split; [compute_done|]).
    apply (Hchanged _ v); [done|done|compute_done|].
    destruct Hv as [[? _]|[[? _]|[[_ (a & ->)]|Hv]]]; [done|done|done|naive_solver].
  - destruct (m !! "status") as [v|] eqn:Hm; [|by apply Hsame; [|right]].
    assert (device_value "status" v) as Hv by (by apply Hval, Hin; split; [compute_done|]).
    apply (Hchanged _ v); [done|done|compute_done|].
    destruct Hv as [[? _]|[[? _]|[[? _]|[[_ (a & -> & Ha)]|Hv]]]];
      [done|done|done| |naive_solver].
    unfold Pg.check_column. cbn [Pg.col_name Pg.col_type Pg.not_null Pg.check_in].
    rewrite lookup_singleton_eq. cbn. by rewrite bool_decide_true.
  - destruct (m !! "x") as [v|] eqn:Hm; [|by apply Hsame; [|right]].
    assert (device_value "x" v) as Hv by (by apply Hval, Hin; split; [compute_done|]).
    apply (Hchanged _ v); [done|done|compute_done|].
    destruct Hv as [[? _]|[[? _]|[[? _]|[[? _]|[[_ (a & ->)]|[? _]]]]]]; done.
  - destruct (m !! "y") as [v|] eqn:Hm; [|by apply Hsame; [|right]].
    assert (device_value "y" v) as Hv by (by apply Hval, Hin; split; [compute_done|]).
    apply (Hchanged _ v); [done|done|compute_done|].
    destruct Hv as [[? _]|[[? _]|[[? _]|[[? _]|[[? _]|[_ (a & ->)]]]]]]; done.
  - apply Hsame; [done|]. left. compute_done.
Qed.

(** PATCH /devices/:id on a valid payload, for the device row the id
    selects: 200, and the row the SET list makes takes its place. *)
Lemma patch_devices_id_valid (g : Pg.defaults) (s : Pg.store) (id : string)
    (m : gmap string val) (fields : list (string * val)) (row : gmap string val) :
  Pg.consistent s = true →
  Zod.is_uuid id = true →
  row ∈ Pg.devices s → row !! "id" = Some (Str id) →
  Zod.safeParse deviceUpdateSchema (Obj m) = Zod.success fields → fields ≠ [] →
  ∃ before after row',
    Pg.devices s = before ++ row :: after
    ∧ Pg.set Pg.devices_columns (device_setParts fields) row = inr row'
    ∧ routes g (PATCH_devices_id id (Obj m)) s
      = ({| Pg.devices := before ++ row' :: after; Pg.links := Pg.links s |},
         {| status := 200; sent := json (Some (Obj row')) |}).
Proof.
  intros (Hrows & Hpk & _)%consistent_true Huuid Hrow Hid Hparse Hne.
  destruct (device_setParts_spec _ _ Hparse) as (Hall & _ & _ & _ & Hassigns & Hok).
  pose proof (rows_ok_elem _ _ row Hrows Hrow) as Hrowok%check_row_inr.
  apply list_elem_of_split in Hrow as (before & after & Hd).
  destruct (set_inr _ _ row Hok) as [row' Hset].
  exists before, after, row'. split; [done|]. split; [done|].
  unfold routes, patch_devices_id, Zod.safeParse_uuid. rewrite Huuid, Hparse.
  fold (device_setParts fields). rewrite Hall.
  rewrite bool_decide_false by (by destruct fields).
  rewrite (update_devices_one _ _ _ before row after row'); try done.
  by eapply device_setParts_check.
Qed.


(** *** POST /links on a valid payload *)

Lemma prop_entries_of sh m k :
  NoDup sh.*1 →
  Forall (λ kt, returns_input kt.2) sh →
  Forall (λ kt, ∃ o, kt.2 (m !! kt.1) = inr o) sh →
  prop (entries_of sh m) k = if decide (k ∈ sh.*1) then m !! k else None.
Proof.
  intros Hnd Hret Hok. unfold prop. apply option_eq. intros v.
  rewrite <- elem_of_list_to_map by by apply NoDup_entries_of.
  rewrite elem_of_entries_of_lookup by done.
  case_decide; naive_solver.
Qed.

Lemma sql_eq_param a v : Pg.sql_eq a (Some (param (v ?? Some Null))) = Pg.sql_eq a v.
Proof. by destruct a as [[]|], v as [[]|]. Qed.

Lemma same_tuple_param f t a b l :
  same_tuple f t (Some (param (a ?? Some Null))) (Some (param (b ?? Some Null))) l
  = same_tuple f t a b l.
Proof. unfold same_tuple. by rewrite !sql_eq_param. Qed.

Lemma existsb_same_tuple_param f t a b (links : list (gmap string val)) :
  existsb (same_tuple f t (Some (param (a ?? Some Null))) (Some (param (b ?? Some Null)))) links
  = existsb (same_tuple f t a b) links.
Proof.
  induction links as [|l links IH]; simpl; [done|]. by rewrite IH, same_tuple_param.
Qed.

Lemma index_key_links_unique l k :
  Pg.index_key Pg.links_unique l = Some k ↔
  ∃ f t a b, k = [f; t; a; b] ∧ l !! "from_id" = Some (Str f) ∧ l !! "to_id" = Some (Str t)
             ∧ l !! "from_handle" = Some (Str a) ∧ l !! "to_handle" = Some (Str b).
Proof.
  unfold Pg.links_unique. simpl. split.
  - destruct (l !! "from_id") as [[]|], (l !! "to_id") as [[]|],
      (l !! "from_handle") as [[]|], (l !! "to_handle") as [[]|]; simpl; try done.
    intros [= <-]. by repeat eexists.
  - by intros (f & t & a & b & -> & -> & -> & -> & ->).
Qed.

Lemma conflicts_links_unique r (f t : string) (links : list (gmap string val)) :
  r !! "from_id" = Some (Str f) → r !! "to_id" = Some (Str t) →
  Pg.conflicts Pg.links_unique r links
  = existsb (same_tuple f t (r !! "from_handle") (r !! "to_handle")) links.
Proof.
  intros Hf Ht. apply eq_true_iff_eq. rewrite existsb_exists. unfold Pg.conflicts.
  destruct (Pg.index_key Pg.links_unique r) as [k|] eqn:Hk.
  - apply index_key_links_unique in Hk as (f' & t' & a & b & -> & Hf' & Ht' & Ha & Hb).
    rewrite Hf in Hf'. rewrite Ht in Ht'. simplify_eq. rewrite Ha, Hb.
    rewrite bool_decide_eq_true. split.
    + intros (l & Hl%eq_sym%index_key_links_unique & Hin)%list_elem_of_fmap_1.
      destruct Hl as (?&?&?&?& [= <- <- <- <-] & Hlf & Hlt & Hla & Hlb).
      exists l. split; [by apply list_elem_of_In|]. unfold same_tuple.
      rewrite Hlf, Hlt, Hla, Hlb. simpl. by rewrite !bool_decide_true.
    + intros (l & Hin%list_elem_of_In & Hsame). unfold same_tuple in Hsame.
      rewrite !andb_true_iff in Hsame. destruct Hsame as [[[Hlf Hlt] Hla] Hlb].
      apply sql_eq_true in Hlf as (? & Hlf & [= <-]).
      apply sql_eq_true in Hlt as (? & Hlt & [= <-]).
      apply sql_eq_true in Hla as (? & Hla & [= <-]).
      apply sql_eq_true in Hlb as (? & Hlb & [= <-]).
      apply list_elem_of_fmap. exists l. split; [|done].
      symmetry. apply index_key_links_unique. by repeat eexists.
  - split; [done|]. intros (l & _ & Hsame). unfold same_tuple in Hsame.
    rewrite !andb_true_iff in Hsame. destruct Hsame as [[_ Hla] Hlb].
    apply sql_eq_true in Hla as (a & _ & Ha). apply sql_eq_true in Hlb as (b & _ & Hb).
    assert (Pg.index_key Pg.links_unique r = Some [f; t; a; b]) as Hk'
      by (apply index_key_links_unique; by repeat eexists).
    congruence.
Qed.

Lemma linkCreateSchema_success m data :
  Zod.safeParse linkCreateSchema (Obj m) = Zod.success data →
  (∀ k, prop data k
        = if decide (k ∈ ["fromId"; "toId"; "status"; "label"; "fromHandle"; "toHandle"])
          then m !! k else None)
  ∧ (∃ f, m !! "fromId" = Some (Str f) ∧ Zod.is_uuid f = true)
  ∧ (∃ t, m !! "toId" = Some (Str t) ∧ Zod.is_uuid t = true)
  ∧ (m !! "status" = None ∨ ∃ a, m !! "status" = Some (Str a) ∧ a ∈ ["up"; "warn"; "down"])
  ∧ (m !! "label" = None ∨ ∃ a, m !! "label" = Some (Str a))
  ∧ (m !! "fromHandle" = None ∨ ∃ a, m !! "fromHandle" = Some (Str a))
  ∧ (m !! "toHandle" = None ∨ ∃ a, m !! "toHandle" = Some (Str a)).
Proof.
  intros (m' & [= <-] & Hall & ->)%safeParse_success. split.
  - intros k.
    change ["fromId"; "toId"; "status"; "label"; "fromHandle"; "toHandle"]
      with (Zod.shape linkCreateSchema).*1.
    apply prop_entries_of; [compute; repeat constructor; set_solver| |done].
    cbv [linkCreateSchema Zod.shape].
    repeat apply Forall_cons_2; try apply Forall_nil_2; simpl;
      eauto using string_returns_input, enum_returns_input, uuid_returns_input,
                  optional_returns_input.
  - cbv [linkCreateSchema Zod.shape] in Hall.
    repeat (apply Forall_cons in Hall as [[? ?] Hall]). cbn [fst snd] in *.
    repeat match goal with
    | H : Zod.uuid _ = inr _ |- _ => apply uuid_inr in H as (? & ? & _ & ?)
    | H : Zod.optional _ _ = inr _ |- _ => apply optional_inr in H as [[? _]|[_ H]]
    | H : Zod.string _ _ = inr _ |- _ => apply string_inr in H as (? & ? & _ & _)
    | H : Zod.enum _ _ = inr _ |- _ => apply enum_inr in H as (? & ? & _ & ?)
    end; repeat split; eauto.
Qed.

(** POST /links, for a payload the validator accepts and a new id: 409 when a
    stored link has the payload's endpoints and both of its handles, 400
    when an endpoint is no device, and otherwise 201 with the inserted row. *)
Lemma post_links_valid g s m data (f t : string) :
  Zod.safeParse linkCreateSchema (Obj m) = Zod.success data →
  m !! "fromId" = Some (Str f) → m !! "toId" = Some (Str t) →
  Pg.fresh g (Pg.links s) = true →
  routes g (POST_links (Obj m)) s
  = if existsb (same_tuple f t (m !! "fromHandle") (m !! "toHandle")) (Pg.links s)
    then (s, {| status := 409; sent := message "Link already exists" |})
    else if Pg.references (Pg.devices s) (Some (Str f))
            && Pg.references (Pg.devices s) (Some (Str t))
    then ({| Pg.devices := Pg.devices s; Pg.links := Pg.links s ++ [link_row g m] |},
          {| status := 201; sent := json (Some (Obj (link_row g m))) |})
    else (s, {| status := 400; sent := message "fromId/toId invalid (device not found)" |}).
Proof.
  intros Hparse Hf Ht Hfresh.
  destruct (linkCreateSchema_success _ _ Hparse)
    as (Hprop & _ & _ & Hstatus & Hlabel & Hfh & Hth).
  unfold routes, post_links. rewrite Hparse, !Hprop.
  rewrite !decide_True by compute_done.
  unfold Pg.insert_into_links.
  assert (Pg.cast (param (m !! "status" ?? Some Null)) "link_status"
          = inr (param (m !! "status" ?? Some Null))) as ->.
  { destruct Hstatus as [->|(a & -> & Ha)]; [done|].
    by apply (cast_label a "link_status" _ eq_refl). }
  replace (Pg.cast (Str "up") "link_status") with (@inr Pg.DatabaseError val (Str "up"))
    by reflexivity.
  cbn [mbind Pg.query_bind]. fold (link_row g m).
  assert (link_row g m !! "from_id" = Some (Str f)) as Hrf by (unfold link_row; by rewrite Hf).
  assert (link_row g m !! "to_id" = Some (Str t)) as Hrt by (unfold link_row; by rewrite Ht).
  assert (Pg.check_row Pg.links_columns (link_row g m) = inr ()) as ->.
  { apply check_row_inr. unfold Pg.links_columns.
    repeat apply Forall_cons_2; try apply Forall_nil_2; unfold Pg.check_column;
      cbn [Pg.col_name Pg.col_type Pg.not_null Pg.check_in].
    - reflexivity.
    - by rewrite Hrf.
    - by rewrite Hrt.
    - replace (link_row g m !! "status")
        with (Some (Pg.coalesce (param (m !! "status" ?? Some Null)) (Str "up")))
        by reflexivity.
      destruct Hstatus as [->|(a & -> & Ha)]; [done|].
      cbn. by rewrite bool_decide_true.
    - replace (link_row g m !! "label") with (Some (param (m !! "label" ?? Some Null)))
        by reflexivity.
      by destruct Hlabel as [->|(a & ->)].
    - replace (link_row g m !! "from_handle")
        with (Some (param (m !! "fromHandle" ?? Some Null))) by reflexivity.
      by destruct Hfh as [->|(a & ->)].
    - replace (link_row g m !! "to_handle")
        with (Some (param (m !! "toHandle" ?? Some Null))) by reflexivity.
      by destruct Hth as [->|(a & ->)].
    - reflexivity. }
  cbn [mbind Pg.query_bind].
  rewrite (fresh_conflicts g _ (link_row g m) Hfresh eq_refl).
  rewrite (conflicts_links_unique _ f t _ Hrf Hrt).
  replace (link_row g m !! "from_handle")
    with (Some (param (m !! "fromHandle" ?? Some Null))) by reflexivity.
  replace (link_row g m !! "to_handle")
    with (Some (param (m !! "toHandle" ?? Some Null))) by reflexivity.
  replace (existsb (same_tuple f t (Some (param (m !! "fromHandle" ?? Some Null)))
                      (Some (param (m !! "toHandle" ?? Some Null)))) (Pg.links s))
    with (existsb (same_tuple f t (m !! "fromHandle") (m !! "toHandle")) (Pg.links s))
    by (symmetry; apply existsb_same_tuple_param).
  cbn [orb].
  destruct (existsb _ _); [done|].
  unfold Pg.fkeys_ok. rewrite Hrf, Hrt.
  by destruct (_ && _).
Qed.

(** The 409 of POST /links: a stored link with the endpoints of the payload
    and both of its handles, which are strings, is a conflict, and the store
    keeps its rows. *)
Lemma post_links_conflict g s m data (f t a b : string) l :
  Zod.safeParse linkCreateSchema (Obj m) = Zod.success data →
  m !! "fromId" = Some (Str f) → m !! "toId" = Some (Str t) →
  m !! "fromHandle" = Some (Str a) → m !! "toHandle" = Some (Str b) →
  Pg.fresh g (Pg.links s) = true →
  l ∈ Pg.links s →
  l !! "from_id" = Some (Str f) → l !! "to_id" = Some (Str t) →
  l !! "from_handle" = Some (Str a) → l !! "to_handle" = Some (Str b) →
  routes g (POST_links (Obj m)) s
  = (s, {| status := 409; sent := message "Link already exists" |}).
Proof.
  intros Hparse Hf Ht Ha Hb Hfresh Hl Hlf Hlt Hla Hlb.
  rewrite (post_links_valid g s m data f t Hparse Hf Ht Hfresh).
  assert (existsb (same_tuple f t (m !! "fromHandle") (m !! "toHandle")) (Pg.links s) = true)
    as ->; [|done].
  apply existsb_exists. exists l. split; [by apply list_elem_of_In|].
  unfold same_tuple. rewrite Ha, Hb, Hlf, Hlt, Hla, Hlb. simpl.
  by rewrite !bool_decide_true.
Qed.

(** A payload that lacks a handle is never answered 409, whatever links
    the store holds: NULL is equal to nothing in the unique index. *)
Lemma post_links_without_handles g s m data :
  Zod.safeParse linkCreateSchema (Obj m) = Zod.success data →
  m !! "fromHandle" = None ∨ m !! "toHandle" = None →
  Pg.fresh g (Pg.links s) = true →
  status (routes g (POST_links (Obj m)) s).2 ≠ 409.
Proof.
  intros Hparse Hnone Hfresh.
  destruct (linkCreateSchema_success _ _ Hparse) as (_ & (f & Hf & _) & (t & Ht & _) & _).
  rewrite (post_links_valid g s m data f t Hparse Hf Ht Hfresh).
  assert (existsb (same_tuple f t (m !! "fromHandle") (m !! "toHandle")) (Pg.links s) = false)
    as ->.
  { apply not_true_iff_false. intros (l & _ & Hsame)%existsb_exists.
    unfold same_tuple in Hsame. rewrite !andb_true_iff in Hsame.
    destruct Hsame as [[_ (? & _ & Ha)%sql_eq_true] (? & _ & Hb)%sql_eq_true].
    destruct Hnone; congruence. }
  by destruct (_ && _).
Qed.


(** *** A text column that holds a string keeps holding one *)

Lemma unique_pkey_eq (t : list (gmap string val)) r r' (i : string) :
  Pg.unique Pg.pkey t = true → r ∈ t → r' ∈ t →
  r !! "id" = Some (Str i) → r' !! "id" = Some (Str i) → r = r'.
Proof.
  intros Hu (before & after & ->)%list_elem_of_split Hr' Hi Hi'.
  pose proof (unique_pkey_others _ _ _ _ Hu Hi r') as Hothers.
  apply elem_of_app in Hr' as [Hr'|[->|Hr']%elem_of_cons]; [|done|].
  - exfalso. assert (Pg.sql_eq (r' !! "id") (Some (Str i)) = true) as Ht
      by (apply sql_eq_true; eauto).
    rewrite Hothers in Ht; [done|apply elem_of_app; by left].
  - exfalso. assert (Pg.sql_eq (r' !! "id") (Some (Str i)) = true) as Ht
      by (apply sql_eq_true; eauto).
    rewrite Hothers in Ht; [done|apply elem_of_app; by right].
Qed.

Lemma keeps_text_subseteq c (t t' : list (gmap string val)) :
  Pg.unique Pg.pkey t = true → t' ⊆ t → keeps_text c t t'.
Proof.
  intros Hu Hsub r r' i Hr Hr' Hi Hi' Htext.
  by rewrite <- (unique_pkey_eq t r r' i Hu Hr (Hsub _ Hr') Hi Hi').
Qed.

Lemma conflicts_pkey_false (t : list (gmap string val)) row r (i : string) :
  Pg.conflicts Pg.pkey row t = false → row !! "id" = Some (Str i) → r ∈ t →
  r !! "id" ≠ Some (Str i).
Proof.
  unfold Pg.conflicts. intros Hc Hrow Hr Hi.
  rewrite (index_key_pkey _ _ Hrow) in Hc. apply bool_decide_eq_false in Hc.
  apply Hc, list_elem_of_fmap. exists r. by rewrite (index_key_pkey _ _ Hi).
Qed.

Lemma keeps_text_insert c (t : list (gmap string val)) row :
  Pg.unique Pg.pkey t = true → Pg.conflicts Pg.pkey row t = false →
  keeps_text c t (t ++ [row]).
Proof.
  intros Hu Hc r r' i Hr [Hr'| ->%list_elem_of_singleton]%elem_of_app Hi Hi' Htext.
  - by rewrite <- (unique_pkey_eq t r r' i Hu Hr Hr' Hi Hi').
  - by destruct (conflicts_pkey_false _ _ _ _ Hc Hi' Hr).
Qed.

Lemma keeps_text_update c (t t' : list (gmap string val)) :
  Pg.unique Pg.pkey t = true →
  Forall2 (λ r r', r' !! "id" = r !! "id" ∧ (is_text (r !! c) → is_text (r' !! c))) t t' →
  keeps_text c t t'.
Proof.
  intros Hu Hf r r' i Hr Hr' Hi Hi' Htext.
  apply list_elem_of_lookup_1 in Hr' as [n Hn].
  destruct (Forall2_lookup_r _ _ _ _ _ Hf Hn) as (r0 & Hr0 & Hid & Hkeep).
  apply list_elem_of_lookup_2 in Hr0.
  rewrite Hi' in Hid. symmetry in Hid.
  rewrite (unique_pkey_eq t r r0 i Hu Hr Hr0 Hi Hid) in Htext. by apply Hkeep.
Qed.

Lemma updated_keeps_text cols sets id (t : list (gmap string val))
    (u : list (bool * gmap string val)) c :
  Pg.assigns sets Pg.pkey = false →
  (∀ a, a ∈ sets → Pg.column a = c → ∃ x, Pg.value a = Str x) →
  Forall2 (updated cols sets id) t u →
  Forall2 (λ r r', r' !! "id" = r !! "id" ∧ (is_text (r !! c) → is_text (r' !! c))) t u.*2.
Proof.
  intros Ha Hval Hu. pose proof (updated_ids _ _ _ _ _ Ha Hu) as Hids.
  induction Hu as [|r br t u Hbr _ IH]; simpl in *; [constructor|].
  apply Forall2_cons in Hids as [Hid Hids]. constructor; [|by apply IH].
  split; [done|]. unfold updated in Hbr. destruct (Pg.sql_eq _ _); [|by subst br].
  destruct Hbr as (_ & Hset & _).
  destruct (set_lookup _ _ _ _ c Hset) as [-> | (a & Hin & Hc & ->)]; [done|].
  intros _. destruct (Hval a Hin Hc) as [x ->]. by exists x.
Qed.

Lemma update_devices_inr sets id s rs s' :
  Pg.update_devices sets id s = inr (rs, s') →
  ∃ u, Forall2 (updated Pg.devices_columns sets id) (Pg.devices s) u
       ∧ Pg.devices s' = u.*2 ∧ Pg.links s' = Pg.links s.
Proof.
  unfold Pg.update_devices. intros Hb.
  apply bind_inr in Hb as (u & Hu%update_where_id_inr & Hb).
  repeat (destruct (_ && _); [done|]). injection Hb as <- <-. eauto.
Qed.

Lemma update_links_inr sets id s rs s' :
  Pg.update_links sets id s = inr (rs, s') →
  ∃ u, Forall2 (updated Pg.links_columns sets id) (Pg.links s) u
       ∧ Pg.links s' = u.*2 ∧ Pg.devices s' = Pg.devices s.
Proof.
  unfold Pg.update_links. intros Hb.
  apply bind_inr in Hb as (u & Hu%update_where_id_inr & Hb).
  repeat (destruct (_ && _); [done|]). injection Hb as <- <-. eauto.
Qed.

(** *** The two PATCH routes, when they reach the store *)

Lemma linkUpdateSchema_fields m fields :
  Zod.safeParse linkUpdateSchema (Obj m) = Zod.success fields →
  ∀ k v, (k, v) ∈ fields →
    k ∈ ["status"; "label"; "fromHandle"; "toHandle"] ∧ m !! k = Some v
    ∧ ∃ a, v = Str a ∧ (k = "status" → a ∈ ["up"; "warn"; "down"]).
Proof.
  intros (m' & [= <-] & Hall & ->)%safeParse_success k v.
  rewrite elem_of_entries_of.
  cbv [linkUpdateSchema Zod.partial Zod.shape]. simpl.
  intros (t & Hin & Ht).
  repeat (apply elem_of_cons in Hin as [[= -> ->]|Hin]); try by apply elem_of_nil in Hin.
  all: repeat apply optional_Some in Ht.
  all: first [ apply string_inr in Ht as (a & Hm & [= ->] & Hlen)
             | apply enum_inr in Ht as (a & Hm & [= ->] & Hlen) ].
  all: split; [compute_done|]; split; [done|]; exists a; split; [done|]; done.
Qed.

Lemma device_setParts_values m fields :
  Zod.safeParse deviceUpdateSchema (Obj m) = Zod.success fields →
  Pg.assigns (device_setParts fields) Pg.pkey = false
  ∧ ∀ a, a ∈ device_setParts fields → Pg.column a = "ip" → ∃ x, Pg.value a = Str x.
Proof.
  intros Hparse.
  destruct (device_setParts_spec _ _ Hparse) as (_ & _ & Hsets & _ & Hassigns & _).
  destruct (deviceUpdateSchema_fields _ _ Hparse) as (_ & _ & Hval).
  split; [done|]. intros a Ha Hc. apply Hsets, Hval in Ha. rewrite Hc in Ha.
  destruct Ha as [[? _]|[[? _]|[[_ Ha]|[[? _]|[[? _]|[? _]]]]]]; done.
Qed.

Lemma link_setParts_values m fields :
  Zod.safeParse linkUpdateSchema (Obj m) = Zod.success fields →
  Pg.assigns (link_setParts fields) Pg.pkey = false
  ∧ ∀ a, a ∈ link_setParts fields → ∃ x, Pg.value a = Str x.
Proof.
  intros Hparse. pose proof (linkUpdateSchema_fields _ _ Hparse) as Hval.
  assert (∀ a, a ∈ link_setParts fields →
            Pg.column a ∈ ["status"; "label"; "from_handle"; "to_handle"]
            ∧ ∃ x, Pg.value a = Str x) as Hsets.
  { intros a ([k v] & -> & [Hk Hkv]%list_elem_of_filter)%list_elem_of_fmap_1.
    split; [done|]. apply list_elem_of_fmap_1 in Hkv as ([k0 v0] & [= -> ->] & Hkv).
    cbn [Pg.value snd]. rewrite param_nullish.
    destruct (Hval _ _ Hkv) as (_ & _ & x & -> & _). by exists x. }
  split; [|by intros a [_ ?]%Hsets].
  apply bool_decide_eq_false. rewrite Exists_exists. intros (a & [Ha _]%Hsets & Hid).
  unfold Pg.pkey in Hid. apply list_elem_of_singleton in Hid. rewrite Hid in Ha.
  by repeat (apply elem_of_cons in Ha as [?|Ha]; [done|]); apply elem_of_nil in Ha.
Qed.

Lemma patch_devices_id_update id body s :
  (patch_devices_id id body s).1 = s
  ∨ ∃ fields rs,
      Zod.safeParse deviceUpdateSchema body = Zod.success fields
      ∧ Pg.update_devices (device_setParts fields) (Str id) s
        = inr (rs, (patch_devices_id id body s).1).
Proof.
  unfold patch_devices_id, Zod.safeParse_uuid. destruct (Zod.is_uuid id); [|by left].
  destruct (Zod.safeParse _ _) as [fields|] eqn:Hp; [|by left]. case_bool_decide; [by left|].
  fold (device_setParts fields).
  destruct (Pg.update_devices _ _ _) as [|[rs s']] eqn:Hu; [by left|].
  right. exists fields, rs. split; [done|]. by destruct (rs !! 0%nat).
Qed.

Lemma patch_links_id_update id body s :
  (patch_links_id id body s).1 = s
  ∨ ∃ fields rs,
      Zod.safeParse linkUpdateSchema body = Zod.success fields
      ∧ Pg.update_links (link_setParts fields) (Str id) s
        = inr (rs, (patch_links_id id body s).1).
Proof.
  unfold patch_links_id, Zod.safeParse_uuid. destruct (Zod.is_uuid id); [|by left].
  destruct (Zod.safeParse _ _) as [fields|] eqn:Hp; [|by left]. case_bool_decide; [by left|].
  fold (link_setParts fields).
  destruct (Pg.update_links _ _ _) as [|[rs s']] eqn:Hu; [by left|].
  right. exists fields, rs. split; [done|]. by destruct (rs !! 0%nat).
Qed.

Lemma patch_devices_id_position_update id body s :
  (patch_devices_id_position id body s).1 = s
  ∨ ∃ x y rs,
      Pg.update_devices
        [ {| Pg.column := "x"; Pg.type := None; Pg.value := x |};
          {| Pg.column := "y"; Pg.type := None; Pg.value := y |} ] (Str id) s
      = inr (rs, (patch_devices_id_position id body s).1).
Proof.
  unfold patch_devices_id_position, Zod.safeParse_uuid. destruct (Zod.is_uuid id); [|by left].
  destruct (Zod.safeParse _ _) as [data|] eqn:Hp; [|by left].
  destruct (Pg.update_devices _ _ _) as [|[rs s']] eqn:Hu; [by left|].
  right. do 2 eexists. exists rs. destruct (rs !! 0%nat); exact Hu.
Qed.

(** *** Replacing the string of a text column *)

Lemma patch_devices_id_ip g s (id a : string) row :
  Pg.consistent s = true → Zod.is_uuid id = true →
  row ∈ Pg.devices s → row !! "id" = Some (Str id) →
  ∃ before after row',
    Pg.devices s = before ++ row :: after
    ∧ routes g (PATCH_devices_id id (Obj {[ "ip" := Str a ]})) s
      = ({| Pg.devices := before ++ row' :: after; Pg.links := Pg.links s |},
         {| status := 200; sent := json (Some (Obj row')) |})
    ∧ row' !! "ip" = Some (Str a).
Proof.
  intros Hs Hu Hrow Hid.
  assert (Zod.safeParse deviceUpdateSchema (Obj {[ "ip" := Str a ]})
          = Zod.success [("ip", Str a)]) as Hparse by reflexivity.
  destruct (patch_devices_id_valid g s id {[ "ip" := Str a ]} [("ip", Str a)] row)
    as (before & after & row' & Hd & Hset & Hr); try done.
  destruct (device_setParts_lookup _ _ _ _ Hparse Hset) as [Hnew _].
  exists before, after, row'. split; [done|]. split; [done|].
  apply Hnew; [compute_done|]. by rewrite lookup_singleton_eq.
Qed.

Lemma check_row_insert_text cols row c (a : string) :
  Pg.check_row cols row = inr () →
  Forall (λ col, Pg.col_name col = c → Pg.col_type col = Pg.text ∧ Pg.check_in col = None) cols →
  Pg.check_row cols (<[c := Str a]> row) = inr ().
Proof.
  rewrite !check_row_inr, !Forall_forall. intros Hok Htext col Hcol.
  destruct (decide (Pg.col_name col = c)) as [Hc|Hc].
  - destruct (Htext col Hcol Hc) as [Hty Hck]. unfold Pg.check_column.
    rewrite Hc, lookup_insert_eq, Hty, Hck. done.
  - rewrite <- (Hok col Hcol). apply check_column_ext. by rewrite lookup_insert_ne.
Qed.

Lemma update_links_one sets (id : string) s before row after row' :
  Pg.unique Pg.pkey (Pg.links s) = true →
  Pg.links s = before ++ row :: after →
  row !! "id" = Some (Str id) →
  Pg.assigns sets Pg.pkey = false →
  Pg.assigns sets ["from_id"; "to_id"] = false →
  Pg.set Pg.links_columns sets row = inr row' →
  Pg.check_row Pg.links_columns row' = inr () →
  Pg.update_links sets (Str id) s
  = inr ([row'], {| Pg.devices := Pg.devices s; Pg.links := before ++ row' :: after |})
  ∨ (Pg.assigns sets Pg.links_unique = true
     ∧ Pg.update_links sets (Str id) s = inl Pg.unique_violation).
Proof.
  intros Hu Hd Hid Ha Hfk Hset Hck. unfold Pg.update_links. rewrite Hd in *.
  rewrite (update_where_id_one _ _ _ _ _ _ row'); try done;
    [|by eapply unique_pkey_others].
  simpl. rewrite Ha, Hfk. simpl.
  destruct (Pg.assigns sets Pg.links_unique); simpl.
  - destruct (Pg.index_ok _ _ _); simpl; [|by right].
    left. by destruct (marked_rows before after row') as [-> ->].
  - left. by destruct (marked_rows before after row') as [-> ->].
Qed.

(** PATCH /links/:id with one text field set to a string: the row takes
    the string, unless the unique index on the handles refuses the row. *)
Lemma patch_links_id_text g s (id k a : string) row :
  Pg.consistent s = true → Zod.is_uuid id = true →
  row ∈ Pg.links s → row !! "id" = Some (Str id) →
  k ∈ ["label"; "fromHandle"; "toHandle"] →
  (∃ before after row',
     Pg.links s = before ++ row :: after
     ∧ routes g (PATCH_links_id id (Obj {[ k := Str a ]})) s
       = ({| Pg.devices := Pg.devices s; Pg.links := before ++ row' :: after |},
          {| status := 200; sent := json (Some (Obj row')) |})
     ∧ row' !! mapKey k = Some (Str a))
  ∨ (k ≠ "label"
     ∧ routes g (PATCH_links_id id (Obj {[ k := Str a ]})) s = (s, internal_server_error)).
Proof.
  intros (_ & _ & Hrows & Hpk & _ & _)%consistent_true Huuid Hrow Hid Hk.
  pose proof (rows_ok_elem _ _ row Hrows Hrow) as Hrowok%check_row_inr.
  apply list_elem_of_split in Hrow as (before & after & Hd).
  unfold routes, patch_links_id, Zod.safeParse_uuid. rewrite Huuid.
  assert (∀ sets col,
    sets = [ {| Pg.column := col; Pg.type := None; Pg.value := Str a |} ] →
    col ∈ ["label"; "from_handle"; "to_handle"] →
    Pg.update_links sets (Str id) s
    = inr ([<[col := Str a]> row],
           {| Pg.devices := Pg.devices s;
              Pg.links := before ++ <[col := Str a]> row :: after |})
    ∨ (col ≠ "label" ∧ Pg.update_links sets (Str id) s = inl Pg.unique_violation)) as Hupd.
  { intros sets col -> Hcol.
    destruct (update_links_one [ {| Pg.column := col; Pg.type := None; Pg.value := Str a |} ]
                id s before row after (<[col := Str a]> row)) as [Hok|[Hassign Hfail]];
      try done.
    - by repeat (apply elem_of_cons in Hcol as [->|Hcol]; [compute_done|]);
        apply elem_of_nil in Hcol.
    - by repeat (apply elem_of_cons in Hcol as [->|Hcol]; [compute_done|]);
        apply elem_of_nil in Hcol.
    - simpl. rewrite bool_decide_true; [done|].
      by repeat (apply elem_of_cons in Hcol as [->|Hcol]; [compute_done|]);
        apply elem_of_nil in Hcol.
    - apply check_row_insert_text; [done|].
      unfold Pg.links_columns.
      repeat (apply elem_of_cons in Hcol as [->|Hcol]);
        try (by apply elem_of_nil in Hcol);
        repeat apply Forall_cons_2; try apply Forall_nil_2; by cbn.
    - by left.
    - right. split; [|done]. intros ->. by vm_compute in Hassign. }
  repeat (apply elem_of_cons in Hk as [->|Hk]); try (by apply elem_of_nil in Hk).
  - replace (Zod.safeParse linkUpdateSchema (Obj {[ "label" := Str a ]}))
      with (Zod.success [("label", Str a)]) by reflexivity.
    match goal with
    | |- context [filter ?P ?fs] =>
        replace (filter P fs) with [("label", Str a)] by reflexivity
    end.
    rewrite bool_decide_false by done. cbn [fmap list_fmap].
    match goal with
    | |- context [Pg.update_links ?sets _ _] =>
        replace sets with [ {| Pg.column := "label"; Pg.type := None; Pg.value := Str a |} ]
          by reflexivity
    end.
    destruct (Hupd _ "label" eq_refl ltac:(compute_done)) as [Hok|[? _]]; [|done].
    left. exists before, after, (<["label" := Str a]> row). split; [done|].
    split; [|by rewrite lookup_insert_eq].
    by rewrite Hok.
  - replace (Zod.safeParse linkUpdateSchema (Obj {[ "fromHandle" := Str a ]}))
      with (Zod.success [("fromHandle", Str a)]) by reflexivity.
    match goal with
    | |- context [filter ?P ?fs] =>
        replace (filter P fs) with [("from_handle", Str a)] by reflexivity
    end.
    rewrite bool_decide_false by done. cbn [fmap list_fmap].
    match goal with
    | |- context [Pg.update_links ?sets _ _] =>
        replace sets with [ {| Pg.column := "from_handle"; Pg.type := None; Pg.value := Str a |} ]
          by reflexivity
    end.
    destruct (Hupd _ "from_handle" eq_refl ltac:(compute_done)) as [Hok|[_ Hfail]].
    + left. exists before, after, (<["from_handle" := Str a]> row). split; [done|].
      split; [|by rewrite lookup_insert_eq].
      by rewrite Hok.
    + right. split; [done|]. by rewrite Hfail.
  - replace (Zod.safeParse linkUpdateSchema (Obj {[ "toHandle" := Str a ]}))
      with (Zod.success [("toHandle", Str a)]) by reflexivity.
    match goal with
    | |- context [filter ?P ?fs] =>
        replace (filter P fs) with [("to_handle", Str a)] by reflexivity
    end.
    rewrite bool_decide_false by done. cbn [fmap list_fmap].
    match goal with
    | |- context [Pg.update_links ?sets _ _] =>
        replace sets with [ {| Pg.column := "to_handle"; Pg.type := None; Pg.value := Str a |} ]
          by reflexivity
    end.
    destruct (Hupd _ "to_handle" eq_refl ltac:(compute_done)) as [Hok|[_ Hfail]].
    + left. exists before, after, (<["to_handle" := Str a]> row). split; [done|].
      split; [|by rewrite lookup_insert_eq].
      by rewrite Hok.
    + right. split; [done|]. by rewrite Hfail.
Qed.

Lemma deviceUpdateSchema_null m k :
  k ∈ ["name"; "type"; "ip"; "status"; "x"; "y"] → m !! k = Some Null →
  ∃ error, Zod.safeParse deviceUpdateSchema (Obj m) = Zod.failure error.
Proof.
  intros Hk Hm.
  assert (∃ t c, (k, t) ∈ Zod.shape deviceUpdateSchema ∧ t (Some Null) = inl c)
    as (t & c & Hin & Hc).
  { cbv [deviceUpdateSchema deviceCreateSchema Zod.partial Zod.shape]. simpl.
    repeat (apply elem_of_cons in Hk as [->|Hk]);
      try (by apply elem_of_nil in Hk);
      do 2 eexists; (split; [repeat first [apply list_elem_of_here | apply list_elem_of_further]
                            | reflexivity]). }
  rewrite <- Hm in Hc. by eapply safeParse_failure.
Qed.

Lemma linkUpdateSchema_null m k :
  k ∈ ["status"; "label"; "fromHandle"; "toHandle"] → m !! k = Some Null →
  ∃ error, Zod.safeParse linkUpdateSchema (Obj m) = Zod.failure error.
Proof.
  intros Hk Hm.
  assert (∃ t c, (k, t) ∈ Zod.shape linkUpdateSchema ∧ t (Some Null) = inl c)
    as (t & c & Hin & Hc).
  { cbv [linkUpdateSchema Zod.partial Zod.shape]. simpl.
    repeat (apply elem_of_cons in Hk as [->|Hk]);
      try (by apply elem_of_nil in Hk);
      do 2 eexists; (split; [repeat first [apply list_elem_of_here | apply list_elem_of_further]
                            | reflexivity]). }
  rewrite <- Hm in Hc. by eapply safeParse_failure.
Qed.


(** C6 (amended). No validator rejects a payload for a field it does not
    know: adding or changing a key that the shape of the schema does not
    name leaves the result of [safeParse] as it was, for the position schema
    as for the four others. The position schema asks for [x] and [y] and
    reads nothing else: it accepts a payload exactly when both are numbers
    (not NaN), whatever other fields the payload has. *)
Theorem unknown_fields_are_stripped (o : Zod.ZodObject) (m : gmap string val)
    (k : string) (v : val) :
  o ∈ [ deviceCreateSchema; deviceUpdateSchema; devicePositionSchema;
        linkCreateSchema; linkUpdateSchema ] →
  k ∉ (Zod.shape o).*1 →
  Zod.safeParse o (Obj (<[k := v]> m)) = Zod.safeParse o (Obj m)
  ∧ ((∃ data, Zod.safeParse devicePositionSchema (Obj m) = Zod.success data)
     ↔ ∃ x y, m !! "x" = Some (Num x) ∧ m !! "y" = Some (Num y)
              ∧ PrimFloat.is_nan x = false ∧ PrimFloat.is_nan y = false).
Proof.
  intros _ Hk. split; [by apply safeParse_strip|].
  split.
  - intros (data & (m' & [= <-] & Hall & _)%safeParse_success).
    cbv [devicePositionSchema Zod.shape] in Hall.
    repeat (apply Forall_cons in Hall as [[? ?] Hall]). cbn [fst snd] in *.
    destruct (m !! "x") as [[]|], (m !! "y") as [[]|]; simpl in *; try done.
    repeat case_match; try done. by repeat eexists.
  - intros (x & y & Hx & Hy & Hnx & Hny). eexists. apply safeParse_success.
    exists m. split; [done|]. split; [|done].
    cbv [devicePositionSchema Zod.shape].
    repeat apply Forall_cons_2; try apply Forall_nil_2; cbn [fst snd].
    + rewrite Hx. simpl. rewrite Hnx. by eexists.
    + rewrite Hy. simpl. rewrite Hny. by eexists.
Qed.

End routes_facts.

(** ** The canvas *)

Section canvas_facts.

Lemma startsWith_true s q : startsWith s q = true ↔ ∃ post, s = (q ++ post)%string.
Proof.
  revert s. induction q as [|a q IH]; intros s.
  - split; [by exists s|by destruct s].
  - destruct s as [|b s]; simpl.
    + split; [done|]. by intros [post [=]].
    + rewrite andb_true_iff, bool_decide_eq_true, IH. split.
      * intros [-> [post ->]]. by exists post.
      * intros [post [= -> ->]]. split; [done|]. by exists post.
Qed.

(** [includes] is the substring test. *)
Lemma includes_true s q : includes s q = true ↔ ∃ pre post, s = (pre ++ q ++ post)%string.
Proof.
  induction s as [|b s IH].
  - change (includes "" q) with (startsWith "" q || false).
    rewrite orb_false_r, startsWith_true. split.
    + intros [post ->]. by exists "", post.
    + intros (pre & post & Heq). destruct pre; simpl in *; [by exists post|done].
  - change (includes (String b s) q) with (startsWith (String b s) q || includes s q).
    rewrite orb_true_iff, startsWith_true, IH. split.
    + intros [[post ->]|(pre & post & ->)].
      * by exists "", post.
      * by exists (String b pre), post.
    + intros (pre & post & Heq). destruct pre as [|c pre]; simpl in *.
      * left. by exists post.
      * right. injection Heq as -> ->. by exists pre, post.
Qed.

Lemma toLowerCase_empty s : toLowerCase s = "" ↔ s = "".
Proof. by destruct s. Qed.


(** C8 (amended). After a selection-change event the selected node id is
    the id of the first node reported, if any, and the selected edge id the
    id of the first edge reported, if any; each is recorded without looking
    at the other. So a node and an edge are both recorded exactly when the
    canvas reports at least one of each, and the state is one of Nothing-,
    Node- or Edge-selected whenever the canvas reports a single kind. *)
Theorem onSelectionChange_first_of_each (params : Canvas.OnSelectionChangeParams)
    (st : Canvas.state) :
  Canvas.selectedNodeId (Canvas.onSelectionChange params st)
  = Canvas.FlowNode.id <$> head (Canvas.selected_nodes params)
  ∧ Canvas.selectedEdgeId (Canvas.onSelectionChange params st)
    = Canvas.FlowEdge.id <$> head (Canvas.selected_edges params)
  ∧ (is_Some (Canvas.selectedNodeId (Canvas.onSelectionChange params st))
     ∧ is_Some (Canvas.selectedEdgeId (Canvas.onSelectionChange params st))
     ↔ Canvas.selected_nodes params ≠ [] ∧ Canvas.selected_edges params ≠ []).
Proof.
  unfold Canvas.onSelectionChange; simpl.
  destruct (Canvas.selected_nodes params) as [|n ns],
           (Canvas.selected_edges params) as [|e es]; simpl;
    (split; [done|split; [done|]]); split.
  all: try (intros [[? ?] [? ?]]; by simplify_eq).
  all: intros [? ?]; done.
Qed.

End canvas_facts.

(** ** The routes and the canvas on the small inventory *)

(** The inventory satisfies the constraints of both tables. *)
Lemma inventory_consistent : Pg.consistent inventory = true.
Proof. vm_compute. reflexivity. Qed.


(** C3 on the inventory: DELETE /devices/:id of SW1, which the link starts
    from. *)
Lemma referential_integrity_preserved_run :
  Pg.referential_integrity inventory = true
  ∧ Pg.referential_integrity
      (routes (H := hyphenated) next (DELETE_devices_id sw1_id) inventory).1 = true
  ∧ status (routes (H := hyphenated) next (DELETE_devices_id sw1_id) inventory).2 = 204
  ∧ ∀ l, l ∈ Pg.links (routes (H := hyphenated) next (DELETE_devices_id sw1_id) inventory).1 →
      l !! "from_id" ≠ Some (Str sw1_id) ∧ l !! "to_id" ≠ Some (Str sw1_id).
Proof.
  split; [vm_compute; reflexivity|].
  destruct (referential_integrity_preserved (H := hyphenated) next
              (DELETE_devices_id sw1_id) inventory) as [Hri Hdel];
    [vm_compute; reflexivity|].
  split; [exact Hri|]. split; [vm_compute; reflexivity|].
  apply (Hdel sw1_id); [reflexivity | vm_compute; reflexivity].
Defined.




(** C6 (amended) on a position payload to which [name] is added. *)
Lemma unknown_fields_are_stripped_run :
  Zod.safeParse devicePositionSchema
    (Obj (<["name" := Str "SW9"]> (properties [("x", Some (Num 1%float)); ("y", Some (Num 2%float))])))
  = Zod.safeParse devicePositionSchema
      (Obj (properties [("x", Some (Num 1%float)); ("y", Some (Num 2%float))])).
Proof.
  apply (unknown_fields_are_stripped (H := hyphenated) devicePositionSchema
           (properties [("x", Some (Num 1%float)); ("y", Some (Num 2%float))]) "name" (Str "SW9")).
  - apply list_elem_of_further, list_elem_of_further, list_elem_of_here.
  - vm_compute. intros Hin. by repeat (apply elem_of_cons in Hin as [?|Hin]; [done|]);
      apply elem_of_nil in Hin.
Defined.

(** C6, as stated, fails: a position payload with a third field is accepted,
    and PATCH /devices/:id/position answers 200. *)
Lemma position_payload_with_extra_field_accepted :
  Zod.safeParse devicePositionSchema
    (object [("x", Some (Num 120%float)); ("y", Some (Num 340%float));
             ("name", Some (Str "SW9"))])
  = Zod.success [("x", Num 120%float); ("y", Num 340%float)]
  ∧ status (routes (H := hyphenated) next
              (PATCH_devices_id_position sw1_id
                 (object [("x", Some (Num 120%float)); ("y", Some (Num 340%float));
                          ("name", Some (Str "SW9"))]))
              inventory).2 = 200.
Proof. split; vm_compute; reflexivity. Qed.

(** C8, as stated, fails: when the canvas reports a node and an edge, both
    are recorded as selected, and both are found. *)
Lemma node_and_edge_selected_together :
  let st := Canvas.onSelectionChange
              {| Canvas.selected_nodes := [a_node]; Canvas.selected_edges := [an_edge] |}
              {| Canvas.nodes := [a_node]; Canvas.edges := [an_edge];
                 Canvas.selectedNodeId := None; Canvas.selectedEdgeId := None;
                 Canvas.linkFrom := ""; Canvas.linkTo := ""; Canvas.linkLabel := "";
                 Canvas.query := "" |} in
  Canvas.selectedNodeId st = Some sw1_id ∧ Canvas.selectedEdgeId st = Some uplink_id
  ∧ Canvas.selectedNode st = Some a_node ∧ Canvas.selectedEdge st = Some an_edge.
Proof. repeat split; vm_compute; reflexivity. Qed.

(** C2, on the failing input: the store holds a link from SW1 to RT1
    without handles; POST /links with the same two endpoints and no handles
    is answered 201, not 409, and the store then holds two links with the
    same (from_id, to_id, from_handle, to_handle). *)
Theorem post_links_duplicate_without_handles :
  ∃ row,
    routes (H := hyphenated) next
      (POST_links (object [("fromId", Some (Str sw1_id)); ("toId", Some (Str rt1_id))]))
      inventory
    = ({| Pg.devices := [sw1; rt1]; Pg.links := [uplink; row] |},
       {| status := 201; sent := json (Some (Obj row)) |})
    ∧ row !! "from_id" = uplink !! "from_id"
    ∧ row !! "to_id" = uplink !! "to_id"
    ∧ row !! "from_handle" = uplink !! "from_handle"
    ∧ row !! "to_handle" = uplink !! "to_handle".
Proof.
  exists (link_row next (properties [("fromId", Some (Str sw1_id)); ("toId", Some (Str rt1_id))])).
  repeat split; vm_compute; reflexivity.
Qed.

(** * Further properties of the routes *)

Section more_store_facts.

Implicit Types (r l d : gmap string val) (t : list (gmap string val)).

Lemma store_eta (s : Pg.store) : {| Pg.devices := Pg.devices s; Pg.links := Pg.links s |} = s.
Proof. by destruct s. Qed.

Lemma references_nil v : Pg.references [] v = false.
Proof. unfold Pg.references. apply bool_decide_eq_false. by intros ?%Exists_nil. Qed.

(** *** An UPDATE or a DELETE that selects no row *)

Lemma updated_rows cols sets id t (u : list (bool * gmap string val)) :
  Forall2 (updated cols sets id) t u →
  (filter (λ br : bool * gmap string val, br.1 = true) u).*2 = [] →
  u = pair false <$> t.
Proof.
  induction 1 as [|r br t u Hbr _ IH]; [done|].
  unfold updated in Hbr. destruct (Pg.sql_eq _ _).
  - destruct br as [b r']. simpl in Hbr. destruct Hbr as (-> & _).
    by rewrite filter_cons_True.
  - subst br. rewrite filter_cons_False by (by intros [=]).
    intros Hnil. by rewrite fmap_cons, <- IH.
Qed.

Lemma fmap_snd_pair {A} (b : bool) (xs : list A) : (pair b <$> xs).*2 = xs.
Proof. rewrite <- list_fmap_compose. apply list_fmap_id. Qed.

Lemma update_devices_no_row sets id s s' :
  Pg.update_devices sets id s = inr ([], s') → s' = s.
Proof.
  unfold Pg.update_devices. intros Hb.
  apply bind_inr in Hb as (u & Hu%update_where_id_inr & Hb).
  repeat (destruct (_ && _); [done|]). injection Hb as Hrs <-.
  rewrite (updated_rows _ _ _ _ _ Hu Hrs), fmap_snd_pair. apply store_eta.
Qed.

Lemma update_links_no_row sets id s s' :
  Pg.update_links sets id s = inr ([], s') → s' = s.
Proof.
  unfold Pg.update_links. intros Hb.
  apply bind_inr in Hb as (u & Hu%update_where_id_inr & Hb).
  repeat (destruct (_ && _); [done|]). injection Hb as Hrs <-.
  rewrite (updated_rows _ _ _ _ _ Hu Hrs), fmap_snd_pair. apply store_eta.
Qed.

Lemma filter_nil_all {A} (P : A → Prop) `{∀ x, Decision (P x)} (xs : list A) :
  filter P xs = [] → filter (λ x, ¬ P x) xs = xs.
Proof.
  induction xs as [|x xs IH]; [done|]. destruct (decide (P x)).
  - by rewrite filter_cons_True.
  - rewrite filter_cons_False by done. intros Hnil.
    by rewrite filter_cons_True, IH.
Qed.

Lemma delete_from_devices_no_row id s :
  (Pg.delete_from_devices id s).1 = [] → (Pg.delete_from_devices id s).2 = s.
Proof.
  unfold Pg.delete_from_devices; simpl. intros Hnil%fmap_nil_inv.
  rewrite Hnil, (filter_nil_all _ _ Hnil).
  rewrite (filter_all _ (Pg.links s)); [apply store_eta|].
  apply Forall_forall. intros l _. rewrite !references_nil. by intros [?|?].
Qed.

Lemma delete_from_links_no_row id s :
  (Pg.delete_from_links id s).1 = [] → (Pg.delete_from_links id s).2 = s.
Proof.
  unfold Pg.delete_from_links; simpl. intros Hnil%fmap_nil_inv.
  rewrite (filter_nil_all _ _ Hnil). apply store_eta.
Qed.

(** *** The constraints of a table after an INSERT, an UPDATE, a DELETE *)

Lemma unique_true on t : Pg.unique on t = true ↔ NoDup (omap (Pg.index_key on) t).
Proof. apply bool_decide_eq_true. Qed.

Lemma conflicts_false on r t :
  Pg.conflicts on r t = false ↔
  ∀ k, Pg.index_key on r = Some k → k ∉ omap (Pg.index_key on) t.
Proof.
  unfold Pg.conflicts. destruct (Pg.index_key on r) as [k|]; [|by split].
  rewrite bool_decide_eq_false, list_elem_of_fmap. split.
  - intros Hk ? [= <-] (x & Hx & Hkx)%list_elem_of_omap. apply Hk. eauto.
  - intros Hk (x & Hkx & Hx). apply (Hk k eq_refl), list_elem_of_omap. eauto.
Qed.

Lemma rows_ok_Forall cols t :
  Pg.rows_ok cols t = true ↔ Forall (λ r, Pg.check_row cols r = inr ()) t.
Proof.
  unfold Pg.rows_ok. induction t as [|r t IH]; simpl; [by split|].
  rewrite andb_true_iff, Forall_cons, IH.
  by destruct (Pg.check_row cols r) as [|[]]; split; intros [? ?].
Qed.

Lemma unique_insert on t row :
  Pg.unique on t = true → Pg.conflicts on row t = false → Pg.unique on (t ++ [row]) = true.
Proof.
  rewrite !unique_true, conflicts_false, omap_app. intros Hnd Hk.
  apply NoDup_app. split; [done|]. simpl.
  destruct (Pg.index_key on row) as [k|]; split; try apply NoDup_nil_2.
  - intros x Hx ->%list_elem_of_singleton. by apply (Hk k).
  - apply NoDup_singleton.
  - by intros ? ? ?%elem_of_nil.
Qed.

Lemma omap_cons {A B} (f : A → option B) x (xs : list A) :
  omap f (x :: xs) = option_list (f x) ++ omap f xs.
Proof. simpl. by destruct (f x). Qed.

Lemma omap_sublist {A B} (f : A → option B) (xs ys : list A) :
  xs `sublist_of` ys → omap f xs `sublist_of` omap f ys.
Proof.
  induction 1 as [|x xs ys _ IH|x xs ys _ IH]; simpl; [done| |];
    destruct (f x); try done; by constructor.
Qed.

Lemma unique_sublist on t t' :
  t' `sublist_of` t → Pg.unique on t = true → Pg.unique on t' = true.
Proof.
  rewrite !unique_true. intros Hs Hnd. exact (sublist_NoDup _ _ Hnd (omap_sublist _ _ _ Hs)).
Qed.

Lemma rows_ok_sublist cols t t' :
  t' `sublist_of` t → Pg.rows_ok cols t = true → Pg.rows_ok cols t' = true.
Proof.
  rewrite !rows_ok_Forall, !Forall_forall. intros Hs Ht r Hr. apply Ht.
  by eapply sublist_submseteq, elem_of_submseteq in Hs.
Qed.

Lemma updated_rows_ok cols sets id t (u : list (bool * gmap string val)) :
  Forall2 (updated cols sets id) t u →
  Pg.rows_ok cols t = true → Pg.rows_ok cols u.*2 = true.
Proof.
  rewrite !rows_ok_Forall. induction 1 as [|r br t u Hbr _ IH]; [done|].
  intros [Hr Ht]%Forall_cons. rewrite fmap_cons. apply Forall_cons. split; [|by apply IH].
  unfold updated in Hbr. destruct (Pg.sql_eq _ _); [by destruct Hbr as (_ & _ & ?)|by subst].
Qed.

Lemma index_key_ext on r r' :
  (∀ c, c ∈ on → r' !! c = r !! c) → Pg.index_key on r' = Pg.index_key on r.
Proof.
  induction on as [|c on IH]; [done|]. intros Hc. simpl.
  rewrite (Hc c) by apply list_elem_of_here.
  rewrite IH; [done|]. intros c' ?. apply Hc. by apply list_elem_of_further.
Qed.

Lemma assigns_false sets cols :
  Pg.assigns sets cols = false ↔ ∀ c, c ∈ cols → c ∉ Pg.column <$> sets.
Proof.
  unfold Pg.assigns. rewrite bool_decide_eq_false, Exists_exists. split.
  - intros Hno c Hc (a & -> & Ha)%list_elem_of_fmap. apply Hno. eauto.
  - intros Hno (a & Ha & Hc). apply (Hno _ Hc), list_elem_of_fmap. eauto.
Qed.

(** An UPDATE that assigns no column of an index leaves every key as it
    was. *)
Lemma updated_keys cols sets id on t (u : list (bool * gmap string val)) :
  Pg.assigns sets on = false → Forall2 (updated cols sets id) t u →
  omap (Pg.index_key on) u.*2 = omap (Pg.index_key on) t.
Proof.
  rewrite assigns_false. intros Hon.
  induction 1 as [|r br t u Hbr _ IH]; [done|]. rewrite fmap_cons, !omap_cons, IH.
  unfold updated in Hbr. destruct (Pg.sql_eq _ _); [|by subst].
  destruct Hbr as (_ & Hset & _). rewrite (index_key_ext on r br.2); [done|].
  intros c Hc. eapply set_lookup_other; [done|]. by apply Hon.
Qed.

Lemma not_updated_sublist cols sets id t (u : list (bool * gmap string val)) :
  Forall2 (updated cols sets id) t u →
  (filter (λ br : bool * gmap string val, br.1 = false) u).*2 `sublist_of` t.
Proof.
  induction 1 as [|r br t u Hbr _ IH]; [done|].
  unfold updated in Hbr. destruct (Pg.sql_eq _ _).
  - destruct br as [b r']. simpl in Hbr. destruct Hbr as (-> & _).
    rewrite filter_cons_False by done. by constructor.
  - subst br. rewrite filter_cons_True by done. rewrite fmap_cons. by constructor.
Qed.

(** The check of an index after an UPDATE: when the rows that were not
    updated have distinct keys, and none of them a key of [before], the
    table that passes has distinct keys. *)
Lemma index_ok_NoDup on (after : list (bool * gmap string val)) before :
  Pg.index_ok on before after = true →
  NoDup (omap (Pg.index_key on) before) →
  NoDup (omap (Pg.index_key on) (filter (λ br : bool * gmap string val, br.1 = false) after).*2) →
  (∀ k, k ∈ omap (Pg.index_key on) before →
        k ∉ omap (Pg.index_key on)
              (filter (λ br : bool * gmap string val, br.1 = false) after).*2) →
  NoDup (omap (Pg.index_key on) (before ++ after.*2)).
Proof.
  revert before. induction after as [|[b r] rest IH]; intros before Hok Hb Ha Hdisj.
  { by rewrite fmap_nil, app_nil_r. }
  simpl in Hok. apply andb_true_iff in Hok as [Hr Hok].
  rewrite fmap_cons. cbn [snd]. rewrite (cons_middle r), app_assoc.
  destruct b.
  - rewrite filter_cons_False in Ha, Hdisj by done.
    simpl in Hr. apply negb_true_iff in Hr. rewrite conflicts_false in Hr.
    apply IH; [done| |done|].
    + rewrite omap_app. apply NoDup_app. split; [done|]. simpl.
      destruct (Pg.index_key on r) as [k|] eqn:Hk; split; try apply NoDup_nil_2.
      * intros x Hx ->%list_elem_of_singleton.
        apply (Hr k eq_refl). rewrite omap_app. apply elem_of_app. by left.
      * apply NoDup_singleton.
      * by intros ? ? ?%elem_of_nil.
    + intros k. rewrite omap_app. intros [Hin|Hin]%elem_of_app; [by apply Hdisj|].
      simpl in Hin. destruct (Pg.index_key on r) as [k'|] eqn:Hk; [|by apply elem_of_nil in Hin].
      apply list_elem_of_singleton in Hin as ->. intros Hin.
      apply (Hr k' eq_refl). rewrite omap_app. apply elem_of_app. right.
      apply list_elem_of_omap in Hin as (x & Hx & Hkx). apply list_elem_of_omap.
      exists x. split; [|done].
      apply list_elem_of_fmap in Hx as (br & -> & Hbr). apply list_elem_of_fmap.
      exists br. split; [done|]. by apply list_elem_of_filter in Hbr as [_ ?].
  - rewrite filter_cons_True in Ha, Hdisj by done. rewrite fmap_cons in Ha, Hdisj.
    cbn [snd omap list_omap] in Ha, Hdisj.
    apply IH; [done| | |].
    + rewrite omap_app. apply NoDup_app. split; [done|]. simpl.
      destruct (Pg.index_key on r) as [k|] eqn:Hk; split; try apply NoDup_nil_2.
      * intros x Hx ->%list_elem_of_singleton. apply (Hdisj k Hx). apply list_elem_of_here.
      * apply NoDup_singleton.
      * by intros ? ? ?%elem_of_nil.
    + destruct (Pg.index_key on r); [by apply NoDup_cons in Ha as [_ ?]|done].
    + intros k. rewrite omap_app. intros [Hin|Hin]%elem_of_app.
      * intros Hin'. apply (Hdisj k Hin).
        destruct (Pg.index_key on r); [by apply list_elem_of_further|done].
      * simpl in Hin.
        destruct (Pg.index_key on r) as [k'|] eqn:Hk; [|by apply elem_of_nil in Hin].
        apply list_elem_of_singleton in Hin as ->. by apply NoDup_cons in Ha as [? _].
Qed.

Lemma updated_unique cols sets id on t (u : list (bool * gmap string val)) :
  Forall2 (updated cols sets id) t u →
  Pg.assigns sets on && negb (Pg.index_ok on [] u) = false →
  Pg.unique on t = true → Pg.unique on u.*2 = true.
Proof.
  intros Hu Hchk. rewrite !unique_true. intros Hnd.
  apply andb_false_iff in Hchk as [Ha|Hok%negb_false_iff].
  - by rewrite (updated_keys _ _ _ _ _ _ Ha Hu).
  - apply (index_ok_NoDup on u []) in Hok; [done|apply NoDup_nil_2| |].
    + exact (sublist_NoDup _ _ Hnd (omap_sublist _ _ _ (not_updated_sublist _ _ _ _ _ Hu))).
    + by intros k ?%elem_of_nil.
Qed.

Lemma update_devices_consistent sets id s rs s' :
  Pg.update_devices sets id s = inr (rs, s') →
  Pg.consistent s = true → Pg.consistent s' = true.
Proof.
  intros Hupd Hs. pose proof Hs as (Hd & Hdk & Hl & Hlk & Hlu & Hri)%consistent_true.
  pose proof (update_devices_integrity _ _ _ _ _ Hupd Hri) as Hri'.
  unfold Pg.update_devices in Hupd.
  apply bind_inr in Hupd as (u & Hu%update_where_id_inr & Hupd).
  destruct (_ && _) eqn:Hpk in Hupd; [done|]. destruct (_ && _) in Hupd; [done|].
  injection Hupd as _ <-. unfold Pg.consistent in *. rewrite Hri'. cbn [Pg.devices Pg.links].
  rewrite (updated_rows_ok _ _ _ _ _ Hu Hd), (updated_unique _ _ _ _ _ _ Hu Hpk Hdk).
  by rewrite Hl, Hlk, Hlu.
Qed.

Lemma update_links_consistent sets id s rs s' :
  Pg.update_links sets id s = inr (rs, s') →
  Pg.consistent s = true → Pg.consistent s' = true.
Proof.
  intros Hupd Hs. pose proof Hs as (Hd & Hdk & Hl & Hlk & Hlu & Hri)%consistent_true.
  pose proof (update_links_integrity _ _ _ _ _ Hupd Hri) as Hri'.
  unfold Pg.update_links in Hupd.
  apply bind_inr in Hupd as (u & Hu%update_where_id_inr & Hupd).
  destruct (_ && _) eqn:Hpk in Hupd; [done|].
  destruct (_ && _) eqn:Hlk' in Hupd; [done|]. destruct (_ && _) in Hupd; [done|].
  injection Hupd as _ <-. unfold Pg.consistent in *. rewrite Hri'. cbn [Pg.devices Pg.links].
  rewrite (updated_rows_ok _ _ _ _ _ Hu Hl), (updated_unique _ _ _ _ _ _ Hu Hpk Hlk).
  by rewrite (updated_unique _ _ _ _ _ _ Hu Hlk' Hlu), Hd, Hdk.
Qed.

Lemma insert_into_devices_checked g p1 p2 p3 p4 p5 p6 s rs s' :
  Pg.insert_into_devices g p1 p2 p3 p4 p5 p6 s = inr (rs, s') →
  ∃ row, rs = [row]
    ∧ s' = {| Pg.devices := Pg.devices s ++ [row]; Pg.links := Pg.links s |}
    ∧ Pg.check_row Pg.devices_columns row = inr ()
    ∧ Pg.conflicts Pg.pkey row (Pg.devices s) = false.
Proof.
  unfold Pg.insert_into_devices. intros Hi.
  do 6 (apply bind_inr in Hi as (? & _ & Hi)).
  apply bind_inr in Hi as ([] & Hchk & Hi).
  destruct (Pg.conflicts _ _ _) eqn:Hc; [done|]. injection Hi as <- <-. eauto.
Qed.

Lemma insert_into_links_checked g p1 p2 p3 p4 p5 p6 s rs s' :
  Pg.insert_into_links g p1 p2 p3 p4 p5 p6 s = inr (rs, s') →
  ∃ row, rs = [row]
    ∧ s' = {| Pg.devices := Pg.devices s; Pg.links := Pg.links s ++ [row] |}
    ∧ Pg.check_row Pg.links_columns row = inr ()
    ∧ Pg.conflicts Pg.pkey row (Pg.links s) = false
    ∧ Pg.conflicts Pg.links_unique row (Pg.links s) = false
    ∧ Pg.fkeys_ok (Pg.devices s) row = true.
Proof.
  unfold Pg.insert_into_links. intros Hi.
  do 2 (apply bind_inr in Hi as (? & _ & Hi)).
  apply bind_inr in Hi as ([] & Hchk & Hi).
  destruct (_ || _) eqn:Hc; [done|]. apply orb_false_iff in Hc as [Hc1 Hc2].
  destruct (negb _) eqn:Hfk; [done|]. apply negb_false_iff in Hfk.
  injection Hi as <- <-. eexists. eauto 10.
Qed.

Lemma rows_ok_insert cols t row :
  Pg.rows_ok cols t = true → Pg.check_row cols row = inr () →
  Pg.rows_ok cols (t ++ [row]) = true.
Proof.
  rewrite !rows_ok_Forall. intros Ht Hrow. apply Forall_app. split; [done|].
  by apply Forall_singleton.
Qed.

Lemma insert_into_devices_consistent g p1 p2 p3 p4 p5 p6 s rs s' :
  Pg.insert_into_devices g p1 p2 p3 p4 p5 p6 s = inr (rs, s') →
  Pg.consistent s = true → Pg.consistent s' = true.
Proof.
  intros (row & _ & -> & Hchk & Hc)%insert_into_devices_checked
         (Hd & Hdk & Hl & Hlk & Hlu & Hri)%consistent_true.
  unfold Pg.consistent. cbn [Pg.devices Pg.links].
  rewrite (rows_ok_insert _ _ _ Hd Hchk), (unique_insert _ _ _ Hdk Hc), Hl, Hlk, Hlu.
  rewrite referential_integrity_true in Hri. apply referential_integrity_true.
  simpl. intros l Hl'. destruct (Hri l Hl') as [Hf Ht].
  split; (eapply references_ids; [|eassumption]); intros i (d & Hd' & Hi);
    exists d; (split; [|done]); apply elem_of_app; by left.
Qed.

Lemma insert_into_links_consistent g p1 p2 p3 p4 p5 p6 s rs s' :
  Pg.insert_into_links g p1 p2 p3 p4 p5 p6 s = inr (rs, s') →
  Pg.consistent s = true → Pg.consistent s' = true.
Proof.
  intros (row & _ & -> & Hchk & Hc & Hcu & Hfk)%insert_into_links_checked
         (Hd & Hdk & Hl & Hlk & Hlu & Hri)%consistent_true.
  unfold Pg.consistent. cbn [Pg.devices Pg.links].
  rewrite (rows_ok_insert _ _ _ Hl Hchk), (unique_insert _ _ _ Hlk Hc),
    (unique_insert _ _ _ Hlu Hcu), Hd, Hdk.
  unfold Pg.referential_integrity in *. simpl.
  rewrite forallb_app, Hri. simpl. by rewrite Hfk.
Qed.

Lemma delete_from_devices_consistent id s :
  Pg.consistent s = true → Pg.consistent (Pg.delete_from_devices id s).2 = true.
Proof.
  intros Hs. pose proof Hs as (Hd & Hdk & Hl & Hlk & Hlu & Hri)%consistent_true.
  pose proof (delete_from_devices_integrity id s Hri) as Hri'.
  unfold Pg.consistent. rewrite Hri'. unfold Pg.delete_from_devices. cbn [snd Pg.devices Pg.links].
  rewrite (rows_ok_sublist _ _ _ (sublist_filter _ _) Hd),
    (unique_sublist _ _ _ (sublist_filter _ _) Hdk),
    (rows_ok_sublist _ _ _ (sublist_filter _ _) Hl),
    (unique_sublist _ _ _ (sublist_filter _ _) Hlk).
  by rewrite (unique_sublist _ _ _ (sublist_filter _ _) Hlu).
Qed.

Lemma delete_from_links_consistent id s :
  Pg.consistent s = true → Pg.consistent (Pg.delete_from_links id s).2 = true.
Proof.
  intros (Hd & Hdk & Hl & Hlk & Hlu & Hri)%consistent_true.
  unfold Pg.consistent. unfold Pg.delete_from_links. cbn [snd Pg.devices Pg.links].
  rewrite Hd, Hdk, (rows_ok_sublist _ _ _ (sublist_filter _ _) Hl),
    (unique_sublist _ _ _ (sublist_filter _ _) Hlk),
    (unique_sublist _ _ _ (sublist_filter _ _) Hlu).
  unfold Pg.referential_integrity in *. simpl.
  rewrite forallb_forall in *. intros l Hl'. apply Hri.
  apply list_elem_of_In. apply list_elem_of_In in Hl'.
  by apply list_elem_of_filter in Hl' as [_ Hl'].
Qed.

(** *** A statement whose WHERE clause matches no row *)

Lemma sql_eq_false_iff a (id : string) :
  Pg.sql_eq a (Some (Str id)) = false ↔ a ≠ Some (Str id).
Proof.
  rewrite <- not_true_iff_false, sql_eq_true. split.
  - intros Hno ->. apply Hno. by exists id.
  - intros Hne (i & -> & [= ->]). done.
Qed.

Lemma index_ok_not_updated on t before : Pg.index_ok on before (pair false <$> t) = true.
Proof. revert before. induction t as [|r t IH]; intros before; [done|]. simpl. apply IH. Qed.

Lemma filter_not_updated t :
  filter (λ br : bool * gmap string val, br.1 = true) (pair false <$> t) = [].
Proof. induction t as [|r t IH]; [done|]. rewrite fmap_cons. by rewrite filter_cons_False. Qed.

Lemma update_where_id_none cols sets id t :
  (∀ r, r ∈ t → Pg.sql_eq (r !! "id") (Some id) = false) →
  Pg.update_where_id cols sets id t = inr (pair false <$> t).
Proof. intros Hno. by apply update_where_id_inr, Forall2_not_updated. Qed.

Lemma update_devices_none sets id s :
  (∀ r, r ∈ Pg.devices s → Pg.sql_eq (r !! "id") (Some id) = false) →
  Pg.update_devices sets id s = inr ([], s).
Proof.
  intros Hno. unfold Pg.update_devices. rewrite (update_where_id_none _ _ _ _ Hno).
  cbn [mbind Pg.query_bind]. rewrite index_ok_not_updated, filter_not_updated, fmap_snd_pair.
  rewrite andb_false_r.
  assert (forallb (λ l, implb (Pg.references (Pg.devices s) (l !! "from_id"))
                          (Pg.references (Pg.devices s) (l !! "from_id"))
                        && implb (Pg.references (Pg.devices s) (l !! "to_id"))
                             (Pg.references (Pg.devices s) (l !! "to_id")))
            (Pg.links s) = true) as ->.
  { apply forallb_forall. intros l _. by rewrite !implb_same. }
  rewrite andb_false_r. by rewrite store_eta.
Qed.

Lemma update_links_none sets id s :
  (∀ r, r ∈ Pg.links s → Pg.sql_eq (r !! "id") (Some id) = false) →
  Pg.update_links sets id s = inr ([], s).
Proof.
  intros Hno. unfold Pg.update_links. rewrite (update_where_id_none _ _ _ _ Hno).
  cbn [mbind Pg.query_bind]. rewrite !index_ok_not_updated, filter_not_updated, fmap_snd_pair.
  rewrite !andb_false_r.
  assert (forallb (λ br : bool * gmap string val, negb br.1 || Pg.fkeys_ok (Pg.devices s) br.2)
            (pair false <$> Pg.links s) = true) as ->.
  { apply forallb_forall. by intros br (l & -> & _)%list_elem_of_In%list_elem_of_fmap. }
  rewrite andb_false_r. by rewrite store_eta.
Qed.

Lemma filter_none {A} (P : A → Prop) `{∀ x, Decision (P x)} (xs : list A) :
  (∀ x, x ∈ xs → ¬ P x) → filter P xs = [].
Proof.
  induction xs as [|x xs IH]; [done|]. intros Hno.
  rewrite filter_cons_False by (apply Hno, list_elem_of_here).
  apply IH. intros y Hy. by apply Hno, list_elem_of_further.
Qed.

Lemma select_where_id_none (id : string) t :
  (∀ r, r ∈ t → r !! "id" ≠ Some (Str id)) → Pg.select_where_id (Str id) t = [].
Proof.
  intros Hno. apply filter_none. intros r Hr Heq. apply Is_true_true, sql_eq_true in Heq.
  destruct Heq as (i & Hi & [= ->]). by apply (Hno r).
Qed.

Lemma delete_from_devices_none (id : string) s :
  (∀ r, r ∈ Pg.devices s → r !! "id" ≠ Some (Str id)) →
  Pg.delete_from_devices (Str id) s = ([], s).
Proof.
  intros Hno. pose proof (delete_from_devices_no_row (Str id) s) as Hs.
  assert ((Pg.delete_from_devices (Str id) s).1 = []) as Hnil.
  { unfold Pg.delete_from_devices. cbn [fst].
    fold (Pg.select_where_id (Str id) (Pg.devices s)). by rewrite select_where_id_none. }
  destruct (Pg.delete_from_devices _ _) as [rs s']. simpl in *. by rewrite Hnil, Hs.
Qed.

Lemma delete_from_links_none (id : string) s :
  (∀ r, r ∈ Pg.links s → r !! "id" ≠ Some (Str id)) →
  Pg.delete_from_links (Str id) s = ([], s).
Proof.
  intros Hno. pose proof (delete_from_links_no_row (Str id) s) as Hs.
  assert ((Pg.delete_from_links (Str id) s).1 = []) as Hnil.
  { unfold Pg.delete_from_links. cbn [fst].
    fold (Pg.select_where_id (Str id) (Pg.links s)). by rewrite select_where_id_none. }
  destruct (Pg.delete_from_links _ _) as [rs s']. simpl in *. by rewrite Hnil, Hs.
Qed.

Lemma check_row_insert_number cols row c (f : float) :
  Pg.check_row cols row = inr () →
  Forall (λ col, Pg.col_name col = c → Pg.col_type col = Pg.double_precision) cols →
  Pg.check_row cols (<[c := Num f]> row) = inr ().
Proof.
  rewrite !check_row_inr, !Forall_forall. intros Hok Hnum col Hcol.
  destruct (decide (Pg.col_name col = c)) as [Hc|Hc].
  - unfold Pg.check_column. rewrite Hc, lookup_insert_eq, (Hnum col Hcol Hc).
    simpl. by destruct (Pg.check_in col).
  - rewrite <- (Hok col Hcol). apply check_column_ext. by rewrite lookup_insert_ne.
Qed.

(** The check of an index when exactly one row was updated. *)
Lemma index_ok_one on acc (before after : list (gmap string val)) row' :
  Pg.index_ok on acc ((pair false <$> before) ++ (true, row') :: (pair false <$> after))
  = negb (Pg.conflicts on row' (acc ++ before ++ after)).
Proof.
  revert acc. induction before as [|r before IH]; intros acc.
  - simpl. rewrite index_ok_not_updated, fmap_snd_pair. by rewrite andb_true_r.
  - simpl. rewrite IH. by rewrite <- app_assoc.
Qed.

Lemma check_row_insert_label cols row c (a : string) :
  Pg.check_row cols row = inr () →
  Forall (λ col, Pg.col_name col = c →
                 Pg.col_type col = Pg.text
                 ∧ ∀ allowed, Pg.check_in col = Some allowed → a ∈ allowed) cols →
  Pg.check_row cols (<[c := Str a]> row) = inr ().
Proof.
  rewrite !check_row_inr, !Forall_forall. intros Hok Htext col Hcol.
  destruct (decide (Pg.col_name col = c)) as [Hc|Hc].
  - destruct (Htext col Hcol Hc) as [Hty Hck]. unfold Pg.check_column.
    rewrite Hc, lookup_insert_eq, Hty. simpl.
    destruct (Pg.check_in col) as [allowed|]; [|done].
    by rewrite bool_decide_true by by apply Hck.
  - rewrite <- (Hok col Hcol). apply check_column_ext. by rewrite lookup_insert_ne.
Qed.

End more_store_facts.

Section more_routes_facts.
Context `{Zod.Pattern}.

Implicit Types (r l d : gmap string val).

(** X1. A request that only reads, and a request that is answered with an
    error status (400, 404, 409, 500), leave the store as it was: every
    route validates and lets the store check its constraints before a row
    changes, and a statement that fails changes nothing. *)
Theorem error_leaves_store_unchanged (g : Pg.defaults) (req : request) (s : Pg.store) :
  reads req = true ∨ (400 ≤ status (routes g req s).2)%nat →
  (routes g req s).1 = s.
Proof.
  intros Hreq.
  destruct req as [| | |id|b|id b|id b|id| |b|id b|id]; simpl in *; try done.
  - unfold get_devices_id. by repeat case_match.
  - destruct Hreq as [[=]|Herr]. unfold post_devices in *.
    destruct (Zod.safeParse _ _); [|done].
    destruct (Pg.insert_into_devices _ _ _ _ _ _ _ _) as [|[rs s']]; [done|].
    simpl in Herr. lia.
  - destruct Hreq as [[=]|Herr]. unfold patch_devices_id in *.
    destruct (Zod.safeParse_uuid _); [|done]. destruct (Zod.safeParse _ _); [|done].
    case_bool_decide; [done|].
    destruct (Pg.update_devices _ _ _) as [|[rs s']] eqn:Hu; [done|].
    destruct rs as [|r rs]; simpl in *; [by eapply update_devices_no_row | lia].
  - destruct Hreq as [[=]|Herr]. unfold patch_devices_id_position in *.
    destruct (Zod.safeParse_uuid _); [|done]. destruct (Zod.safeParse _ _); [|done].
    destruct (Pg.update_devices _ _ _) as [|[rs s']] eqn:Hu; [done|].
    destruct rs as [|r rs]; simpl in *; [by eapply update_devices_no_row | lia].
  - destruct Hreq as [[=]|Herr]. unfold delete_devices_id in *.
    destruct (Zod.safeParse_uuid _); [|done].
    pose proof (delete_from_devices_no_row (Str data) s) as Hno.
    destruct (Pg.delete_from_devices _ _) as [rs s'].
    destruct rs as [|r rs]; simpl in *; [by apply Hno | lia].
  - destruct Hreq as [[=]|Herr]. unfold post_links in *.
    destruct (Zod.safeParse _ _); [|done].
    destruct (Pg.insert_into_links _ _ _ _ _ _ _ _) as [|[rs s']].
    + by repeat case_bool_decide.
    + simpl in Herr. lia.
  - destruct Hreq as [[=]|Herr]. unfold patch_links_id in *.
    destruct (Zod.safeParse_uuid _); [|done]. destruct (Zod.safeParse _ _); [|done].
    case_bool_decide; [done|].
    destruct (Pg.update_links _ _ _) as [|[rs s']] eqn:Hu; [done|].
    destruct rs as [|r rs]; simpl in *; [by eapply update_links_no_row | lia].
  - destruct Hreq as [[=]|Herr]. unfold delete_links_id in *.
    destruct (Zod.safeParse_uuid _); [|done].
    pose proof (delete_from_links_no_row (Str data) s) as Hno.
    destruct (Pg.delete_from_links _ _) as [rs s'].
    destruct rs as [|r rs]; simpl in *; [by apply Hno | lia].
Qed.

(** X2. Every request leaves a store that satisfies the constraints of the
    two tables (column constraints, both primary keys, the unique index of
    links, both foreign keys) in a state that satisfies them. *)
Theorem consistent_preserved (g : Pg.defaults) (req : request) (s : Pg.store) :
  Pg.consistent s = true → Pg.consistent (routes g req s).1 = true.
Proof.
  intros Hs.
  destruct req as [| | |id|b|id b|id b|id| |b|id b|id]; simpl; try done.
  - unfold get_devices_id. by repeat case_match.
  - destruct (post_devices_store g b s) as [->|(?&?&?&?&?&?&rs&Hi)]; [done|].
    by eapply insert_into_devices_consistent.
  - destruct (patch_devices_id_store id b s) as [->|(?&?&?&Hu)]; [done|].
    by eapply update_devices_consistent.
  - destruct (patch_devices_id_position_store id b s) as [->|(?&?&?&Hu)]; [done|].
    by eapply update_devices_consistent.
  - destruct (delete_devices_id_store id s) as [->| ->]; [done|].
    by apply delete_from_devices_consistent.
  - destruct (post_links_store g b s) as [->|(?&?&?&?&?&?&rs&Hi)]; [done|].
    by eapply insert_into_links_consistent.
  - destruct (patch_links_id_store id b s) as [->|(?&?&?&Hu)]; [done|].
    by eapply update_links_consistent.
  - destruct (delete_links_id_store id s) as [->| ->]; [done|].
    by apply delete_from_links_consistent.
Qed.


Lemma no_row_sql_eq (id : string) (t : list (gmap string val)) :
  (∀ r, r ∈ t → r !! "id" ≠ Some (Str id)) →
  ∀ r, r ∈ t → Pg.sql_eq (r !! "id") (Some (Str id)) = false.
Proof. intros Hno r Hr. by apply sql_eq_false_iff, Hno. Qed.

Lemma get_devices_id_none g s (id : string) :
  Zod.is_uuid id = true → (∀ r, r ∈ Pg.devices s → r !! "id" ≠ Some (Str id)) →
  routes g (GET_devices_id id) s = (s, {| status := 404; sent := message "Device not found" |}).
Proof.
  intros Huuid Hno. unfold routes, get_devices_id, Zod.safeParse_uuid. rewrite Huuid.
  by rewrite select_where_id_none.
Qed.

Lemma delete_devices_id_none g s (id : string) :
  Zod.is_uuid id = true → (∀ r, r ∈ Pg.devices s → r !! "id" ≠ Some (Str id)) →
  routes g (DELETE_devices_id id) s
  = (s, {| status := 404; sent := message "Device not found" |}).
Proof.
  intros Huuid Hno. unfold routes, delete_devices_id, Zod.safeParse_uuid. rewrite Huuid.
  by rewrite delete_from_devices_none.
Qed.

Lemma delete_links_id_none g s (id : string) :
  Zod.is_uuid id = true → (∀ r, r ∈ Pg.links s → r !! "id" ≠ Some (Str id)) →
  routes g (DELETE_links_id id) s = (s, {| status := 404; sent := message "Link not found" |}).
Proof.
  intros Huuid Hno. unfold routes, delete_links_id, Zod.safeParse_uuid. rewrite Huuid.
  by rewrite delete_from_links_none.
Qed.

Lemma patch_devices_id_none g s (id : string) m fields :
  Zod.is_uuid id = true → (∀ r, r ∈ Pg.devices s → r !! "id" ≠ Some (Str id)) →
  Zod.safeParse deviceUpdateSchema (Obj m) = Zod.success fields → fields ≠ [] →
  routes g (PATCH_devices_id id (Obj m)) s
  = (s, {| status := 404; sent := message "Device not found" |}).
Proof.
  intros Huuid Hno Hparse Hne. pose proof (no_row_sql_eq _ _ Hno) as Hno'.
  destruct (device_setParts_spec _ _ Hparse) as (Hall & _).
  unfold routes, patch_devices_id, Zod.safeParse_uuid. rewrite Huuid, Hparse, Hall.
  rewrite bool_decide_false by (by destruct fields).
  by rewrite update_devices_none.
Qed.

Lemma patch_devices_id_position_none g s (id : string) body data :
  Zod.is_uuid id = true → (∀ r, r ∈ Pg.devices s → r !! "id" ≠ Some (Str id)) →
  Zod.safeParse devicePositionSchema body = Zod.success data →
  routes g (PATCH_devices_id_position id body) s
  = (s, {| status := 404; sent := message "Device not found" |}).
Proof.
  intros Huuid Hno Hparse. pose proof (no_row_sql_eq _ _ Hno) as Hno'.
  unfold routes, patch_devices_id_position, Zod.safeParse_uuid. rewrite Huuid, Hparse.
  by rewrite update_devices_none.
Qed.



Lemma devicePositionSchema_success m (x y : float) :
  m !! "x" = Some (Num x) → m !! "y" = Some (Num y) →
  PrimFloat.is_nan x = false → PrimFloat.is_nan y = false →
  Zod.safeParse devicePositionSchema (Obj m) = Zod.success [("x", Num x); ("y", Num y)].
Proof.
  intros Hx Hy Hnx Hny. unfold Zod.safeParse, devicePositionSchema.
  cbn [Zod.shape Zod.parse_shape]. rewrite Hx, Hy. unfold Zod.number. by rewrite Hnx, Hny.
Qed.

Lemma patch_devices_id_position_valid (g : Pg.defaults) (s : Pg.store) (id : string)
    (m : gmap string val) (x y : float) (row : gmap string val) :
  Pg.consistent s = true →
  Zod.is_uuid id = true →
  row ∈ Pg.devices s → row !! "id" = Some (Str id) →
  m !! "x" = Some (Num x) → m !! "y" = Some (Num y) →
  PrimFloat.is_nan x = false → PrimFloat.is_nan y = false →
  ∃ before after,
    Pg.devices s = before ++ row :: after
    ∧ routes g (PATCH_devices_id_position id (Obj m)) s
      = ({| Pg.devices := before ++ <["y" := Num y]> (<["x" := Num x]> row) :: after;
            Pg.links := Pg.links s |},
         {| status := 200; sent := json (Some (Obj (<["y" := Num y]> (<["x" := Num x]> row)))) |}).
Proof.
  intros (Hrows & Hpk & _)%consistent_true Huuid Hrow Hid Hx Hy Hnx Hny.
  pose proof (rows_ok_elem _ _ row Hrows Hrow) as Hrowok%check_row_inr.
  apply list_elem_of_split in Hrow as (before & after & Hd).
  exists before, after. split; [done|].
  unfold routes, patch_devices_id_position, Zod.safeParse_uuid.
  rewrite Huuid, (devicePositionSchema_success m x y) by done.
  change (prop [("x", Num x); ("y", Num y)] "x") with (Some (Num x)).
  change (prop [("x", Num x); ("y", Num y)] "y") with (Some (Num y)).
  cbn [param default].
  rewrite (update_devices_one _ _ _ before row after (<["y" := Num y]> (<["x" := Num x]> row)));
    try done.
  do 2 (apply check_row_insert_number;
        [|unfold Pg.devices_columns; repeat apply Forall_cons_2; try apply Forall_nil_2; by cbn]).
  done.
Qed.


(** *** POST /devices on a valid payload *)

Lemma deviceCreateSchema_success m data :
  Zod.safeParse deviceCreateSchema (Obj m) = Zod.success data →
  (∀ k, prop data k
        = if decide (k ∈ ["name"; "type"; "ip"; "status"; "x"; "y"]) then m !! k else None)
  ∧ (∃ a, m !! "name" = Some (Str a) ∧ (2 ≤ String.length a)%nat)
  ∧ (∃ a, m !! "type" = Some (Str a) ∧ a ∈ ["hub"; "switch"; "router"; "ap"; "server"])
  ∧ (m !! "ip" = None ∨ ∃ a, m !! "ip" = Some (Str a))
  ∧ (m !! "status" = None ∨ ∃ a, m !! "status" = Some (Str a) ∧ a ∈ ["up"; "warn"; "down"])
  ∧ (m !! "x" = None ∨ ∃ f, m !! "x" = Some (Num f))
  ∧ (m !! "y" = None ∨ ∃ f, m !! "y" = Some (Num f)).
Proof.
  intros (m' & [= <-] & Hall & ->)%safeParse_success. split.
  - intros k.
    change ["name"; "type"; "ip"; "status"; "x"; "y"] with (Zod.shape deviceCreateSchema).*1.
    apply prop_entries_of; [compute; repeat constructor; set_solver| |done].
    cbv [deviceCreateSchema Zod.shape].
    repeat apply Forall_cons_2; try apply Forall_nil_2; simpl;
      eauto using string_returns_input, enum_returns_input, number_returns_input,
                  optional_returns_input.
  - cbv [deviceCreateSchema Zod.shape] in Hall.
    repeat (apply Forall_cons in Hall as [[? ?] Hall]). cbn [fst snd] in *.
    repeat match goal with
    | H : Zod.optional _ _ = inr _ |- _ => apply optional_inr in H as [[? _]|[_ H]]
    | H : Zod.string _ _ = inr _ |- _ => apply string_inr in H as (? & ? & _ & ?)
    | H : Zod.enum _ _ = inr _ |- _ => apply enum_inr in H as (? & ? & _ & ?)
    | H : Zod.number _ = inr _ |- _ => apply number_inr in H as (? & ? & _)
    end; repeat split; eauto.
Qed.

(** POST /devices, for a payload the validator accepts and a new id: 201
    with the inserted row. *)
Lemma post_devices_valid g s m data :
  Zod.safeParse deviceCreateSchema (Obj m) = Zod.success data →
  Pg.fresh g (Pg.devices s) = true →
  routes g (POST_devices (Obj m)) s
  = ({| Pg.devices := Pg.devices s ++ [device_row g m]; Pg.links := Pg.links s |},
     {| status := 201; sent := json (Some (Obj (device_row g m))) |}).
Proof.
  intros Hparse Hfresh.
  destruct (deviceCreateSchema_success _ _ Hparse)
    as (Hprop & (n & Hname & _) & (ty & Htype & Hty) & Hip & Hstatus & Hx & Hy).
  unfold routes, post_devices. rewrite Hparse, !Hprop.
  rewrite !decide_True by compute_done.
  unfold Pg.insert_into_devices.
  assert (Pg.cast (param (m !! "type")) "device_type" = inr (param (m !! "type"))) as ->.
  { rewrite Htype. by apply (cast_label ty "device_type" _ eq_refl). }
  assert (Pg.cast (param (m !! "status" ?? Some Null)) "device_status"
          = inr (param (m !! "status" ?? Some Null))) as ->.
  { destruct Hstatus as [->|(a & -> & Ha)]; [done|].
    by apply (cast_label a "device_status" _ eq_refl). }
  assert (Pg.cast (param (m !! "x" ?? Some Null)) "double precision"
          = inr (param (m !! "x" ?? Some Null))) as ->
    by (by destruct Hx as [->|(f & ->)]).
  assert (Pg.cast (param (m !! "y" ?? Some Null)) "double precision"
          = inr (param (m !! "y" ?? Some Null))) as ->
    by (by destruct Hy as [->|(f & ->)]).
  replace (Pg.cast (Str "up") "device_status") with (@inr Pg.DatabaseError val (Str "up"))
    by reflexivity.
  replace (Pg.cast (Num 0) "double precision") with (@inr Pg.DatabaseError val (Num 0))
    by reflexivity.
  cbn [mbind Pg.query_bind]. fold (device_row g m).
  assert (Pg.check_row Pg.devices_columns (device_row g m) = inr ()) as ->.
  { apply check_row_inr. unfold Pg.devices_columns.
    repeat apply Forall_cons_2; try apply Forall_nil_2; unfold Pg.check_column;
      cbn [Pg.col_name Pg.col_type Pg.not_null Pg.check_in].
    - reflexivity.
    - replace (device_row g m !! "name") with (Some (param (m !! "name"))) by reflexivity.
      by rewrite Hname.
    - replace (device_row g m !! "type") with (Some (param (m !! "type"))) by reflexivity.
      rewrite Htype. cbn. by rewrite bool_decide_true.
    - replace (device_row g m !! "ip") with (Some (param (m !! "ip" ?? Some Null)))
        by reflexivity.
      by destruct Hip as [->|(a & ->)].
    - replace (device_row g m !! "status")
        with (Some (Pg.coalesce (param (m !! "status" ?? Some Null)) (Str "up")))
        by reflexivity.
      destruct Hstatus as [->|(a & -> & Ha)]; [done|].
      cbn. by rewrite bool_decide_true.
    - replace (device_row g m !! "x")
        with (Some (Pg.coalesce (param (m !! "x" ?? Some Null)) (Num 0))) by reflexivity.
      by destruct Hx as [->|(f & ->)].
    - replace (device_row g m !! "y")
        with (Some (Pg.coalesce (param (m !! "y" ?? Some Null)) (Num 0))) by reflexivity.
      by destruct Hy as [->|(f & ->)].
    - reflexivity. }
  cbn [mbind Pg.query_bind].
  by rewrite (fresh_conflicts g _ (device_row g m) Hfresh eq_refl).
Qed.




(** *** Columns that no route assigns *)

Lemma keeps_value_subseteq c (t t' : list (gmap string val)) :
  Pg.unique Pg.pkey t = true → t' ⊆ t → keeps_value c t t'.
Proof.
  intros Hu Hsub r r' i Hr Hr' Hi Hi'.
  by rewrite <- (unique_pkey_eq t r r' i Hu Hr (Hsub _ Hr') Hi Hi').
Qed.

Lemma keeps_value_insert c (t : list (gmap string val)) row :
  Pg.unique Pg.pkey t = true → Pg.conflicts Pg.pkey row t = false →
  keeps_value c t (t ++ [row]).
Proof.
  intros Hu Hc r r' i Hr [Hr'| ->%list_elem_of_singleton]%elem_of_app Hi Hi'.
  - by rewrite <- (unique_pkey_eq t r r' i Hu Hr Hr' Hi Hi').
  - by destruct (conflicts_pkey_false _ _ _ _ Hc Hi' Hr).
Qed.

Lemma keeps_value_update c (t t' : list (gmap string val)) :
  Pg.unique Pg.pkey t = true →
  Forall2 (λ r r', r' !! "id" = r !! "id" ∧ r' !! c = r !! c) t t' →
  keeps_value c t t'.
Proof.
  intros Hu Hf r r' i Hr Hr' Hi Hi'.
  apply list_elem_of_lookup_1 in Hr' as [n Hn].
  destruct (Forall2_lookup_r _ _ _ _ _ Hf Hn) as (r0 & Hr0 & Hid & Hkeep).
  apply list_elem_of_lookup_2 in Hr0.
  rewrite Hi' in Hid. symmetry in Hid.
  by rewrite (unique_pkey_eq t r r0 i Hu Hr Hr0 Hi Hid).
Qed.

Lemma updated_keeps_value cols sets id (t : list (gmap string val))
    (u : list (bool * gmap string val)) c :
  Pg.assigns sets Pg.pkey = false →
  c ∉ Pg.column <$> sets →
  Forall2 (updated cols sets id) t u →
  Forall2 (λ r r', r' !! "id" = r !! "id" ∧ r' !! c = r !! c) t u.*2.
Proof.
  intros Ha Hc Hu. pose proof (updated_ids _ _ _ _ _ Ha Hu) as Hids.
  induction Hu as [|r br t u Hbr _ IH]; simpl in *; [constructor|].
  apply Forall2_cons in Hids as [Hid Hids]. constructor; [|by apply IH].
  split; [done|]. unfold updated in Hbr. destruct (Pg.sql_eq _ _); [|by subst br].
  destruct Hbr as (_ & Hset & _). by eapply set_lookup_other.
Qed.

Lemma device_setParts_columns fields a :
  a ∈ device_setParts fields → Pg.column a ∈ ["name"; "type"; "ip"; "status"; "x"; "y"].
Proof. by intros ([k v] & -> & [Hk _]%list_elem_of_filter)%list_elem_of_fmap_1. Qed.

Lemma link_setParts_columns fields a :
  a ∈ link_setParts fields → Pg.column a ∈ ["status"; "label"; "from_handle"; "to_handle"].
Proof. by intros ([k v] & -> & [Hk _]%list_elem_of_filter)%list_elem_of_fmap_1. Qed.

Lemma not_assigned (sets : list Pg.assignment) (allowed : list string) c :
  (∀ a, a ∈ sets → Pg.column a ∈ allowed) → c ∉ allowed → c ∉ Pg.column <$> sets.
Proof. intros Hcols Hc (a & -> & Ha)%list_elem_of_fmap_1. by apply Hc, Hcols. Qed.

Lemma assigns_false_allowed (sets : list Pg.assignment) (allowed cols : list string) :
  (∀ a, a ∈ sets → Pg.column a ∈ allowed) → (∀ c, c ∈ cols → c ∉ allowed) →
  Pg.assigns sets cols = false.
Proof.
  intros Hcols Hno. apply assigns_false. intros c Hc. eapply not_assigned; [done|]. by apply Hno.
Qed.

(** X8. No request rewrites what identifies a row: on tables whose ids are
    unique, a device row that is still there after a request holds the
    [created_at] it held, and a link row that is still there holds the
    [from_id], the [to_id] and the [created_at] it held. The endpoints of a
    link can only be changed by deleting the link and creating another. *)
Theorem immutable_columns (g : Pg.defaults) (req : request) (s : Pg.store) :
  Pg.unique Pg.pkey (Pg.devices s) = true →
  Pg.unique Pg.pkey (Pg.links s) = true →
  keeps_value "created_at" (Pg.devices s) (Pg.devices (routes g req s).1)
  ∧ ∀ c, c ∈ ["from_id"; "to_id"; "created_at"] →
      keeps_value c (Pg.links s) (Pg.links (routes g req s).1).
Proof.
  intros Hd Hl.
  assert (∀ c t, Pg.unique Pg.pkey t = true → keeps_value c t t) as Hsame
    by (intros c t Ht; by apply keeps_value_subseteq).
  assert (∀ c, c ∈ ["from_id"; "to_id"; "created_at"] →
            c ∉ ["status"; "label"; "from_handle"; "to_handle"]) as Hlinks.
  { intros c Hc. by repeat (apply elem_of_cons in Hc as [->|Hc]; [compute_done|]);
      apply elem_of_nil in Hc. }
  destruct req as [| | |id|b|id b|id b|id| |b|id b|id]; simpl;
    try (split; [|intros c _]; by apply Hsame).
  - unfold get_devices_id. repeat case_match; split; (try intros c _); by apply Hsame.
  - destruct (post_devices_store g b s) as [->|(?&?&?&?&?&?&rs&Hi)];
      [split; [|intros c _]; by apply Hsame|].
    apply insert_into_devices_inr in Hi as (row & _ & -> & _ & Hc). simpl.
    split; [by apply keeps_value_insert | intros c _; by apply Hsame].
  - destruct (patch_devices_id_update id b s) as [->|(fields & rs & Hp & Hu)];
      [split; [|intros c _]; by apply Hsame|].
    apply update_devices_inr in Hu as (u & Hu & -> & ->).
    split; [|intros c _; by apply Hsame].
    eapply keeps_value_update, updated_keeps_value; [done| | |done].
    + eapply assigns_false_allowed; [apply device_setParts_columns|].
      intros c ->%list_elem_of_singleton. compute_done.
    + eapply not_assigned; [apply device_setParts_columns|compute_done].
  - destruct (patch_devices_id_position_update id b s) as [->|(x & y & rs & Hu)];
      [split; [|intros c _]; by apply Hsame|].
    apply update_devices_inr in Hu as (u & Hu & -> & ->).
    split; [|intros c _; by apply Hsame].
    eapply keeps_value_update, updated_keeps_value; [done| | |done];
      [reflexivity|compute_done].
  - destruct (delete_devices_id_store id s) as [->| ->];
      [split; [|intros c _]; by apply Hsame|].
    simpl. split; (try intros c _); apply keeps_value_subseteq; try done;
      apply list_subseteq_filter.
  - destruct (post_links_store g b s) as [->|(?&?&?&?&?&?&rs&Hi)];
      [split; [|intros c _]; by apply Hsame|].
    apply insert_into_links_inr in Hi as (row & _ & -> & _ & Hc & _). simpl.
    split; [by apply Hsame | intros c _; by apply keeps_value_insert].
  - destruct (patch_links_id_update id b s) as [->|(fields & rs & Hp & Hu)];
      [split; [|intros c _]; by apply Hsame|].
    apply update_links_inr in Hu as (u & Hu & -> & ->).
    split; [by apply Hsame|]. intros c Hc.
    eapply keeps_value_update, updated_keeps_value; [done| | |done].
    + eapply assigns_false_allowed; [apply link_setParts_columns|].
      intros c' ->%list_elem_of_singleton. compute_done.
    + eapply not_assigned; [apply link_setParts_columns|by apply Hlinks].
  - destruct (delete_links_id_store id s) as [->| ->];
      [split; [|intros c _]; by apply Hsame|].
    simpl. split; (try intros c _); apply keeps_value_subseteq; try done;
      apply list_subseteq_filter.
Qed.

(** *** Reading rows *)

Lemma select_where_id_one (t : list (gmap string val)) row (id : string) :
  Pg.unique Pg.pkey t = true → row ∈ t → row !! "id" = Some (Str id) →
  Pg.select_where_id (Str id) t = [row].
Proof.
  intros Hu (before & after & ->)%list_elem_of_split Hid.
  pose proof (unique_pkey_others _ _ _ _ Hu Hid) as Hothers.
  unfold Pg.select_where_id. rewrite filter_app, filter_cons_True.
  - rewrite !filter_none; [done| |]; intros r Hr Heq; apply Is_true_true in Heq;
      rewrite Hothers in Heq; try done; apply elem_of_app; auto.
  - apply Is_true_true, sql_eq_true. eauto.
Qed.

(** X9. GET /devices/:id with the id of a device row, on a table whose ids
    are unique, is answered 200 with that row, exactly as it is stored, and
    changes nothing. *)
Theorem get_devices_id_found (g : Pg.defaults) (s : Pg.store) (id : string)
    (row : gmap string val) :
  Pg.unique Pg.pkey (Pg.devices s) = true →
  Zod.is_uuid id = true →
  row ∈ Pg.devices s → row !! "id" = Some (Str id) →
  routes g (GET_devices_id id) s = (s, {| status := 200; sent := json (Some (Obj row)) |}).
Proof.
  intros Hu Huuid Hrow Hid.
  unfold routes, get_devices_id, Zod.safeParse_uuid. rewrite Huuid.
  by rewrite (select_where_id_one _ row).
Qed.

(** X10. GET /devices and GET /links are answered 200 with every row of the
    table, each exactly as it is stored and each as often as it is stored,
    in ascending order of [created_at]; the store is as it was. *)
Theorem listings_sorted (g : Pg.defaults) (s : Pg.store) :
  ∃ ds ls,
    routes g GET_devices s
    = (s, {| status := 200; sent := json (Some (Arr (Obj <$> ds))) |})
    ∧ routes g GET_links s
      = (s, {| status := 200; sent := json (Some (Arr (Obj <$> ls))) |})
    ∧ ds ≡ₚ Pg.devices s
    ∧ Sorted (λ a b, (Pg.created_at a ≤ Pg.created_at b)%Z) ds
    ∧ ls ≡ₚ Pg.links s
    ∧ Sorted (λ a b, (Pg.created_at a ≤ Pg.created_at b)%Z) ls.
Proof.
  assert (Total Pg.created_at_le) as Htotal.
  { intros a b. unfold Pg.created_at_le. lia. }
  exists (Pg.order_by_created_at (Pg.devices s)), (Pg.order_by_created_at (Pg.links s)).
  split; [done|]. split; [done|]. unfold Pg.order_by_created_at.
  split; [apply merge_sort_Permutation|]. split; [by apply (Sorted_merge_sort _)|].
  split; [apply merge_sort_Permutation|]. by apply (Sorted_merge_sort _).
Qed.

(** *** One request after another *)

Lemma fresh_sql_eq g (t : list (gmap string val)) r :
  Pg.fresh g t = true → r ∈ t →
  Pg.sql_eq (r !! "id") (Some (Str (Pg.gen_random_uuid g))) = false.
Proof.
  unfold Pg.fresh. rewrite forallb_forall. intros Hf Hr%list_elem_of_In.
  by apply negb_true_iff, Hf.
Qed.

Lemma fresh_no_row g (t : list (gmap string val)) r :
  Pg.fresh g t = true → r ∈ t → r !! "id" ≠ Some (Str (Pg.gen_random_uuid g)).
Proof. intros Hf Hr. by apply sql_eq_false_iff, (fresh_sql_eq g t). Qed.

Lemma filter_inserted g (t : list (gmap string val)) row :
  Pg.fresh g t = true → row !! "id" = Some (Str (Pg.gen_random_uuid g)) →
  filter (λ r, Pg.sql_eq (r !! "id") (Some (Str (Pg.gen_random_uuid g)))) (t ++ [row]) = [row]
  ∧ filter (λ r, ¬ Pg.sql_eq (r !! "id") (Some (Str (Pg.gen_random_uuid g)))) (t ++ [row]) = t.
Proof.
  intros Hf Hid.
  assert (Pg.sql_eq (row !! "id") (Some (Str (Pg.gen_random_uuid g))) = true) as Hrow
    by (apply sql_eq_true; eauto).
  rewrite !filter_app. split.
  - rewrite filter_none, filter_cons_True; [done|by apply Is_true_true|].
    intros r Hr Heq. apply Is_true_true in Heq. by rewrite (fresh_sql_eq g t r) in Heq.
  - rewrite filter_all, filter_cons_False, app_nil_r; [done| |].
    + intros Hn. apply Hn. by apply Is_true_true.
    + apply Forall_forall. intros r Hr Heq. apply Is_true_true in Heq.
      by rewrite (fresh_sql_eq g t r) in Heq.
Qed.

Lemma post_devices_201 g body s :
  status (routes g (POST_devices body) s).2 = 201 →
  ∃ row, routes g (POST_devices body) s
         = ({| Pg.devices := Pg.devices s ++ [row]; Pg.links := Pg.links s |},
            {| status := 201; sent := json (Some (Obj row)) |})
         ∧ row !! "id" = Some (Str (Pg.gen_random_uuid g)).
Proof.
  unfold routes, post_devices. destruct (Zod.safeParse _ _); [|done].
  destruct (Pg.insert_into_devices _ _ _ _ _ _ _ _) as [|[rs s']] eqn:Hi; [done|].
  apply insert_into_devices_inr in Hi as (row & -> & -> & Hid & _). eauto.
Qed.

Lemma post_links_201 g body s :
  status (routes g (POST_links body) s).2 = 201 →
  ∃ row, routes g (POST_links body) s
         = ({| Pg.devices := Pg.devices s; Pg.links := Pg.links s ++ [row] |},
            {| status := 201; sent := json (Some (Obj row)) |})
         ∧ row !! "id" = Some (Str (Pg.gen_random_uuid g)).
Proof.
  unfold routes, post_links. destruct (Zod.safeParse _ _); [|done].
  destruct (Pg.insert_into_links _ _ _ _ _ _ _ _) as [|[rs s']] eqn:Hi.
  - by repeat case_bool_decide.
  - apply insert_into_links_inr in Hi as (row & -> & -> & Hid & _). eauto.
Qed.

(** X11. What POST /devices created can be read back: when the id the store
    drew is a new one and in the form the routes accept, and POST /devices
    was answered 201, GET /devices/:id with that id on the store that POST
    left is answered 200 with the body POST sent. *)
Theorem post_devices_then_get (g g' : Pg.defaults) (body : val) (s : Pg.store) :
  Pg.fresh g (Pg.devices s) = true →
  Zod.is_uuid (Pg.gen_random_uuid g) = true →
  status (routes g (POST_devices body) s).2 = 201 →
  routes g' (GET_devices_id (Pg.gen_random_uuid g)) (routes g (POST_devices body) s).1
  = ((routes g (POST_devices body) s).1,
     {| status := 200; sent := sent (routes g (POST_devices body) s).2 |}).
Proof.
  intros Hfresh Huuid (row & -> & Hid)%post_devices_201.
  cbn [fst snd status sent].
  unfold routes, get_devices_id, Zod.safeParse_uuid. rewrite Huuid.
  unfold Pg.select_where_id. cbn [Pg.devices].
  by destruct (filter_inserted g (Pg.devices s) row Hfresh Hid) as [-> _].
Qed.

(** X12. Creating a row and deleting it again restores the store. When the
    id drawn is new to both tables and in the form the routes accept: DELETE
    /links/:id after a POST /links answered 201 is answered 204 and leaves
    the store that was there before the POST; and so does DELETE
    /devices/:id after a POST /devices answered 201, on a store whose links
    all have their endpoints among the devices: the cascade finds no link
    to take along. *)
Theorem create_then_delete (g g' : Pg.defaults) (body : val) (s : Pg.store) :
  Pg.fresh g (Pg.devices s) = true →
  Pg.fresh g (Pg.links s) = true →
  Pg.referential_integrity s = true →
  Zod.is_uuid (Pg.gen_random_uuid g) = true →
  (status (routes g (POST_devices body) s).2 = 201 →
   routes g' (DELETE_devices_id (Pg.gen_random_uuid g)) (routes g (POST_devices body) s).1
   = (s, {| status := 204; sent := send |}))
  ∧ (status (routes g (POST_links body) s).2 = 201 →
     routes g' (DELETE_links_id (Pg.gen_random_uuid g)) (routes g (POST_links body) s).1
     = (s, {| status := 204; sent := send |})).
Proof.
  intros Hfd Hfl Hri Huuid. split.
  - intros (row & -> & Hid)%post_devices_201. cbn [fst].
    unfold routes, delete_devices_id, Zod.safeParse_uuid. rewrite Huuid.
    unfold Pg.delete_from_devices. cbn [Pg.devices Pg.links].
    destruct (filter_inserted g (Pg.devices s) row Hfd Hid) as [-> ->].
    rewrite filter_all; [by rewrite store_eta|].
    apply Forall_forall. intros l Hl.
    rewrite referential_integrity_true in Hri. destruct (Hri l Hl) as [Hf Ht].
    assert (∀ v, Pg.references (Pg.devices s) v = true → ¬ Pg.references [row] v) as Hnot.
    { intros v (d & i & Hd & -> & Hi)%references_true
             (d' & i' & ->%list_elem_of_singleton & [= <-] & Hi')%Is_true_true%references_true.
      rewrite Hid in Hi'. injection Hi' as <-. by apply (fresh_no_row g _ d Hfd Hd). }
    intros [Hx|Hx]; [by apply (Hnot _ Hf)|by apply (Hnot _ Ht)].
  - intros (row & -> & Hid)%post_links_201. cbn [fst].
    unfold routes, delete_links_id, Zod.safeParse_uuid. rewrite Huuid.
    unfold Pg.delete_from_links. cbn [Pg.devices Pg.links].
    destruct (filter_inserted g (Pg.links s) row Hfl Hid) as [-> ->].
    by rewrite store_eta.
Qed.

Lemma filter_not_sql_eq (id : string) (t : list (gmap string val)) r :
  r ∈ filter (λ r, ¬ Pg.sql_eq (r !! "id") (Some (Str id))) t → r !! "id" ≠ Some (Str id).
Proof.
  intros [Hn _]%list_elem_of_filter Hid. apply Hn, Is_true_true, sql_eq_true. eauto.
Qed.

(** X13. A row that was deleted is gone. After DELETE /devices/:id with a
    well-formed id, whatever it answered, GET and DELETE /devices/:id with
    that id are answered 404 and leave the store as it is; after DELETE
    /links/:id, so is DELETE /links/:id. *)
Theorem deleted_is_not_found (g g' : Pg.defaults) (s : Pg.store) (id : string) :
  Zod.is_uuid id = true →
  let s1 := (routes g (DELETE_devices_id id) s).1 in
  let s2 := (routes g (DELETE_links_id id) s).1 in
  routes g' (GET_devices_id id) s1
  = (s1, {| status := 404; sent := message "Device not found" |})
  ∧ routes g' (DELETE_devices_id id) s1
    = (s1, {| status := 404; sent := message "Device not found" |})
  ∧ routes g' (DELETE_links_id id) s2
    = (s2, {| status := 404; sent := message "Link not found" |}).
Proof.
  intros Huuid s1 s2.
  assert (∀ r, r ∈ Pg.devices s1 → r !! "id" ≠ Some (Str id)) as Hno1.
  { subst s1. unfold routes, delete_devices_id, Zod.safeParse_uuid. rewrite Huuid.
    unfold Pg.delete_from_devices. intros r.
    destruct (_ !! 0%nat); cbn [fst Pg.devices]; apply filter_not_sql_eq. }
  assert (∀ r, r ∈ Pg.links s2 → r !! "id" ≠ Some (Str id)) as Hno2.
  { subst s2. unfold routes, delete_links_id, Zod.safeParse_uuid. rewrite Huuid.
    unfold Pg.delete_from_links. intros r.
    destruct (_ !! 0%nat); cbn [fst Pg.links]; apply filter_not_sql_eq. }
  split; [by apply get_devices_id_none|]. split; [by apply delete_devices_id_none|].
  by apply delete_links_id_none.
Qed.

(** *** The status of an answer *)

(** X14. The answers of the routes: the status is one of 200, 201, 204, 400,
    404, 409 and 500; 201 is only answered to a POST, 204 only to a DELETE
    and 409 only to POST /links; and an answer has no body exactly when its
    status is 204. *)
Theorem status_codes (g : Pg.defaults) (req : request) (s : Pg.store) :
  let resp := (routes g req s).2 in
  status resp ∈ [200; 201; 204; 400; 404; 409; 500]%nat
  ∧ (status resp = 201%nat → ∃ b, req = POST_devices b ∨ req = POST_links b)
  ∧ (status resp = 204%nat → ∃ id, req = DELETE_devices_id id ∨ req = DELETE_links_id id)
  ∧ (status resp = 409%nat → ∃ b, req = POST_links b)
  ∧ (sent resp = send ↔ status resp = 204%nat).
Proof.
  destruct req as [| | |id|b|id b|id b|id| |b|id b|id]; cbn zeta; unfold routes.
  - repeat split; try done; compute_done.
  - repeat split; try done; compute_done.
  - repeat split; try done; compute_done.
  - unfold get_devices_id. repeat case_match; repeat split; try done; compute_done.
  - unfold post_devices. repeat case_match; repeat split; try done; eauto; compute_done.
  - unfold patch_devices_id. repeat case_match; repeat split; try done; compute_done.
  - unfold patch_devices_id_position.
    repeat case_match; repeat split; try done; compute_done.
  - unfold delete_devices_id.
    repeat case_match; repeat split; try done; eauto; compute_done.
  - repeat split; try done; compute_done.
  - unfold post_links. repeat case_match; repeat split; try done; eauto; compute_done.
  - unfold patch_links_id. repeat case_match; repeat split; try done; compute_done.
  - unfold delete_links_id. repeat case_match; repeat split; try done; eauto; compute_done.
Qed.


Lemma devicePositionSchema_inv body data :
  Zod.safeParse devicePositionSchema body = Zod.success data →
  ∃ m x y, body = Obj m ∧ m !! "x" = Some (Num x) ∧ m !! "y" = Some (Num y)
           ∧ PrimFloat.is_nan x = false ∧ PrimFloat.is_nan y = false.
Proof.
  intros (m & -> & Hall & _)%safeParse_success. exists m.
  cbv [devicePositionSchema Zod.shape] in Hall.
  repeat (apply Forall_cons in Hall as [[? ?] Hall]). cbn [fst snd] in *.
  destruct (m !! "x") as [[]|], (m !! "y") as [[]|]; simpl in *; try done.
  repeat case_match; try done. by repeat eexists.
Qed.

(** A row with a given id is there, or none is. *)
Lemma row_with_id (id : string) (t : list (gmap string val)) :
  (∃ row, row ∈ t ∧ row !! "id" = Some (Str id))
  ∨ (∀ r, r ∈ t → r !! "id" ≠ Some (Str id)).
Proof.
  destruct (existsb (λ r, Pg.sql_eq (r !! "id") (Some (Str id))) t) eqn:He.
  - left. apply existsb_exists in He as (row & Hrow%list_elem_of_In & Heq).
    apply sql_eq_true in Heq as (i & Hi & [= <-]). eauto.
  - right. intros r Hr Hid.
    assert (existsb (λ r, Pg.sql_eq (r !! "id") (Some (Str id))) t = true) as Ht; [|congruence].
    apply existsb_exists. exists r. split; [by apply list_elem_of_In|].
    apply sql_eq_true. eauto.
Qed.



(** *** What is answered before the store is asked *)

Lemma deviceUpdateSchema_empty m :
  (∀ k, k ∈ ["name"; "type"; "ip"; "status"; "x"; "y"] → m !! k = None) →
  Zod.safeParse deviceUpdateSchema (Obj m) = Zod.success [].
Proof.
  intros Hm. unfold Zod.safeParse, deviceUpdateSchema, Zod.partial, deviceCreateSchema.
  cbn [Zod.shape Zod.parse_shape fmap list_fmap prod_map fst snd].
  rewrite !Hm by compute_done. reflexivity.
Qed.

Lemma linkUpdateSchema_empty m :
  (∀ k, k ∈ ["status"; "label"; "fromHandle"; "toHandle"] → m !! k = None) →
  Zod.safeParse linkUpdateSchema (Obj m) = Zod.success [].
Proof.
  intros Hm. unfold Zod.safeParse, linkUpdateSchema, Zod.partial.
  cbn [Zod.shape Zod.parse_shape fmap list_fmap prod_map fst snd].
  rewrite !Hm by compute_done. reflexivity.
Qed.

(** X16. A PATCH whose payload has none of the fields its route
    recognizes, whatever else it has, is answered 400 "No fields to update"
    and changes nothing: the fields that the validator does not know are
    dropped without an error, and what is left is empty. *)
Theorem no_fields_to_update (g : Pg.defaults) (s : Pg.store) (id : string)
    (m : gmap string val) :
  Zod.is_uuid id = true →
  ((∀ k, k ∈ ["name"; "type"; "ip"; "status"; "x"; "y"] → m !! k = None) →
   routes g (PATCH_devices_id id (Obj m)) s
   = (s, {| status := 400; sent := message "No fields to update" |}))
  ∧ ((∀ k, k ∈ ["status"; "label"; "fromHandle"; "toHandle"] → m !! k = None) →
     routes g (PATCH_links_id id (Obj m)) s
     = (s, {| status := 400; sent := message "No fields to update" |})).
Proof.
  intros Huuid. split; intros Hm.
  - unfold routes, patch_devices_id, Zod.safeParse_uuid.
    by rewrite Huuid, (deviceUpdateSchema_empty m Hm).
  - unfold routes, patch_links_id, Zod.safeParse_uuid.
    by rewrite Huuid, (linkUpdateSchema_empty m Hm).
Qed.

(** X17. The id of the path is checked first: when it is not a uuid, each
    of the six routes that take one answers 400 "Invalid id", whatever the
    body and whatever the store holds, and changes nothing. *)
Theorem invalid_id (g : Pg.defaults) (s : Pg.store) (id : string) (b : val) (req : request) :
  Zod.is_uuid id = false →
  req ∈ [ GET_devices_id id; PATCH_devices_id id b; PATCH_devices_id_position id b;
          DELETE_devices_id id; PATCH_links_id id b; DELETE_links_id id ] →
  routes g req s = (s, {| status := 400; sent := message "Invalid id" |}).
Proof.
  intros Huuid Hreq.
  repeat (apply elem_of_cons in Hreq as [->|Hreq]); try (by apply elem_of_nil in Hreq);
    unfold routes, get_devices_id, patch_devices_id, patch_devices_id_position,
      delete_devices_id, patch_links_id, delete_links_id, Zod.safeParse_uuid;
    by rewrite Huuid.
Qed.

(** *** PATCH /links/:id and the unique index *)

Lemma update_links_conflict sets (id : string) s before row after row' :
  Pg.unique Pg.pkey (Pg.links s) = true →
  Pg.links s = before ++ row :: after →
  row !! "id" = Some (Str id) →
  Pg.assigns sets Pg.pkey = false →
  Pg.assigns sets Pg.links_unique = true →
  Pg.set Pg.links_columns sets row = inr row' →
  Pg.check_row Pg.links_columns row' = inr () →
  Pg.conflicts Pg.links_unique row' (before ++ after) = true →
  Pg.update_links sets (Str id) s = inl Pg.unique_violation.
Proof.
  intros Hu Hd Hid Ha Hlu Hset Hck Hc. unfold Pg.update_links. rewrite Hd in *.
  rewrite (update_where_id_one _ _ _ _ _ _ row'); try done;
    [|by eapply unique_pkey_others].
  cbn [mbind Pg.query_bind]. rewrite Ha, Hlu. cbn [andb].
  rewrite (index_ok_one _ [] before after row'). rewrite app_nil_l. by rewrite Hc.
Qed.

(** X18. PATCH /links/:id has no answer of its own for a duplicate. On a
    store that satisfies its constraints, when another link joins the same
    two devices with handles [a] and [b], and the link of the request
    already has the source handle [a], setting its target handle to [b] is
    refused by the unique index; the route answers 500 "Internal server
    error" (POST /links answers 409 to the same tuple) and the store is as it
    was. *)
Theorem patch_links_id_duplicate (g : Pg.defaults) (s : Pg.store) (id f t a b : string)
    (row l : gmap string val) :
  Pg.consistent s = true → Zod.is_uuid id = true →
  row ∈ Pg.links s → row !! "id" = Some (Str id) →
  l ∈ Pg.links s → l !! "id" ≠ Some (Str id) →
  row !! "from_id" = Some (Str f) → row !! "to_id" = Some (Str t) →
  row !! "from_handle" = Some (Str a) →
  l !! "from_id" = Some (Str f) → l !! "to_id" = Some (Str t) →
  l !! "from_handle" = Some (Str a) → l !! "to_handle" = Some (Str b) →
  routes g (PATCH_links_id id (Obj {[ "toHandle" := Str b ]})) s = (s, internal_server_error).
Proof.
  intros (_ & _ & Hrows & Hpk & _ & _)%consistent_true Huuid Hrow Hid Hl Hlid
         Hrf Hrt Hra Hlf Hlt Hla Hlb.
  pose proof (rows_ok_elem _ _ row Hrows Hrow) as Hrowok%check_row_inr.
  apply list_elem_of_split in Hrow as (before & after & Hd).
  assert (l ∈ before ++ after) as Hother.
  { rewrite Hd in Hl. apply elem_of_app in Hl as [?|[->|?]%elem_of_cons];
      [apply elem_of_app; by left|done|apply elem_of_app; by right]. }
  unfold routes, patch_links_id, Zod.safeParse_uuid. rewrite Huuid.
  replace (Zod.safeParse linkUpdateSchema (Obj {[ "toHandle" := Str b ]}))
    with (Zod.success [("toHandle", Str b)]) by reflexivity.
  match goal with
  | |- context [filter ?P ?fs] =>
      replace (filter P fs) with [("to_handle", Str b)] by reflexivity
  end.
  rewrite bool_decide_false by done. cbn [fmap list_fmap].
  match goal with
  | |- context [Pg.update_links ?sets _ _] =>
      replace sets with [ {| Pg.column := "to_handle"; Pg.type := None; Pg.value := Str b |} ]
        by reflexivity
  end.
  rewrite (update_links_conflict _ id s before row after (<["to_handle" := Str b]> row));
    try done.
  - apply check_row_insert_text; [done|].
    unfold Pg.links_columns. repeat apply Forall_cons_2; try apply Forall_nil_2; by cbn.
  - rewrite (conflicts_links_unique _ f t); [|by rewrite lookup_insert_ne..].
    rewrite lookup_insert_eq, lookup_insert_ne, Hra by done.
    apply existsb_exists. exists l. split; [by apply list_elem_of_In|].
    unfold same_tuple. rewrite Hlf, Hlt, Hla, Hlb. simpl. by rewrite !bool_decide_true.
Qed.

(** PATCH /links/:id with a status alone: the row takes the status; no
    index and no foreign key is looked at again. *)
Lemma patch_links_id_status (g : Pg.defaults) (s : Pg.store) (id : string)
    (st : Canvas.DeviceStatus) (row : gmap string val) :
  Pg.consistent s = true → Zod.is_uuid id = true →
  row ∈ Pg.links s → row !! "id" = Some (Str id) →
  ∃ before after,
    Pg.links s = before ++ row :: after
    ∧ routes g (PATCH_links_id id (object [("status", Some (Str (Canvas.DeviceStatus_literal st)))])) s
      = ({| Pg.devices := Pg.devices s;
            Pg.links := before ++ <["status" := Str (Canvas.DeviceStatus_literal st)]> row :: after |},
         {| status := 200;
            sent := json (Some (Obj (<["status" := Str (Canvas.DeviceStatus_literal st)]> row))) |}).
Proof.
  intros (_ & _ & Hrows & Hpk & _ & _)%consistent_true Huuid Hrow Hid.
  pose proof (rows_ok_elem _ _ row Hrows Hrow) as Hrowok%check_row_inr.
  apply list_elem_of_split in Hrow as (before & after & Hd).
  exists before, after. split; [done|].
  unfold routes, patch_links_id, Zod.safeParse_uuid. rewrite Huuid.
  set (lit := Canvas.DeviceStatus_literal st).
  assert (lit ∈ ["up"; "warn"; "down"]) as Hlit by (subst lit; destruct st; compute_done).
  replace (Zod.safeParse linkUpdateSchema (object [("status", Some (Str lit))]))
    with (Zod.success [("status", Str lit)]) by (subst lit; by destruct st).
  match goal with
  | |- context [filter ?P ?fs] =>
      replace (filter P fs) with [("status", Str lit)] by reflexivity
  end.
  rewrite bool_decide_false by done. cbn [fmap list_fmap].
  match goal with
  | |- context [Pg.update_links ?sets _ _] =>
      replace sets
        with [ {| Pg.column := "status"; Pg.type := Some "link_status"; Pg.value := Str lit |} ]
        by reflexivity
  end.
  destruct (update_links_one
              [ {| Pg.column := "status"; Pg.type := Some "link_status"; Pg.value := Str lit |} ]
              id s before row after (<["status" := Str lit]> row)) as [->|[Hassign _]];
    try done.
  - simpl. by rewrite (cast_label lit "link_status" _ eq_refl Hlit).
  - apply check_row_insert_label; [done|].
    unfold Pg.links_columns. repeat apply Forall_cons_2; try apply Forall_nil_2; cbn;
      try done.
    intros _. split; [done|]. by intros ? [= <-].
Qed.


(** *** What GET /topology shows of a row *)

Lemma check_row_number cols r c :
  Pg.check_row cols r = inr () →
  {| Pg.col_name := c; Pg.col_type := Pg.double_precision; Pg.not_null := true;
     Pg.check_in := None |} ∈ cols →
  ∃ f, r !! c = Some (Num f).
Proof.
  rewrite check_row_inr, Forall_forall. intros Hok Hc. specialize (Hok _ Hc).
  unfold Pg.check_column in Hok. simpl in Hok.
  destruct (r !! c) as [[]|]; simpl in Hok; try done. by eexists.
Qed.

(** X28. The node and the edge that GET /topology makes of a row that
    satisfies the constraints of its table. The node has the type "device",
    the [x] and [y] of the row as its position, and the name, type and
    status of the row as its data; the edge has the status of the row as its
    data. A NULL [ip], [label] or handle is left out of the object, and a
    string is shown as it is; [created_at] is not shown. *)
Theorem get_topology_fields (d l : gmap string val) :
  Pg.check_row Pg.devices_columns d = inr () →
  Pg.check_row Pg.links_columns l = inr () →
  let shown (v : option val) (o : option val) :=
    (v = Some Null → o = None) ∧ (∀ a, v = Some (Str a) → o = Some (Str a)) in
  (∃ o p dt,
     node (Pg.select ["id"; "name"; "type"; "ip"; "status"; "x"; "y"] d) = Obj o
     ∧ o !! "type" = Some (Str "device")
     ∧ o !! "position" = Some (Obj p) ∧ p !! "x" = d !! "x" ∧ p !! "y" = d !! "y"
     ∧ o !! "data" = Some (Obj dt)
     ∧ dt !! "name" = d !! "name" ∧ dt !! "type" = d !! "type"
     ∧ dt !! "status" = d !! "status" ∧ shown (d !! "ip") (dt !! "ip")
     ∧ o !! "created_at" = None)
  ∧ (∃ o dt,
       edge (Pg.select ["id"; "from_id"; "to_id"; "status"; "label"; "from_handle"; "to_handle"] l)
       = Obj o
       ∧ o !! "data" = Some (Obj dt) ∧ dt !! "status" = l !! "status"
       ∧ shown (l !! "label") (o !! "label")
       ∧ shown (l !! "from_handle") (o !! "sourceHandle")
       ∧ shown (l !! "to_handle") (o !! "targetHandle")
       ∧ o !! "created_at" = None).
Proof.
  intros Hd Hl shown. subst shown. cbn beta.
  assert (∀ (v : option val) (o : option val),
            o = v ?? None →
            (v = Some Null → o = None) ∧ (∀ a, v = Some (Str a) → o = Some (Str a)))
    as Hshown by (by intros v o -> ; split; [intros ->|intros a ->]).
  split.
  - destruct (check_row_number _ d "x" Hd) as [fx Hx];
      [unfold Pg.devices_columns;
       repeat first [apply list_elem_of_here | apply list_elem_of_further]|].
    destruct (check_row_number _ d "y" Hd) as [fy Hy];
      [unfold Pg.devices_columns;
       repeat first [apply list_elem_of_here | apply list_elem_of_further]|].
    unfold node, object. rewrite !select_lookup, !decide_True by compute_done.
    rewrite Hx, Hy. cbn [Number].
    eexists _, _, _. split; [reflexivity|].
    split; [rewrite !properties_cons; simpl; by destruct (d !! "id")|].
    split; [rewrite !properties_cons; simpl; by destruct (d !! "id")|].
    split; [by rewrite !properties_cons|].
    split; [by rewrite !properties_cons|].
    split; [rewrite !properties_cons; simpl; by destruct (d !! "id")|].
    split; [rewrite !properties_cons; simpl; by destruct (d !! "name")|].
    split; [rewrite !properties_cons; simpl; by destruct (d !! "name"), (d !! "type")|].
    split; [rewrite !properties_cons, !properties_nil; simpl;
            by destruct (d !! "name"), (d !! "type"), (d !! "ip" ?? None), (d !! "status")|].
    split; [|rewrite !properties_cons, !properties_nil; simpl; by destruct (d !! "id")].
    apply Hshown. rewrite !properties_cons, !properties_nil; simpl.
    by destruct (d !! "name"), (d !! "type"), (d !! "ip" ?? None).
  - unfold edge, object. rewrite !select_lookup, !decide_True by compute_done.
    eexists _, _. split; [reflexivity|].
    split; [rewrite !properties_cons; simpl;
            by destruct (l !! "id"), (l !! "from_id"), (l !! "to_id"),
                 (l !! "label" ?? None)|].
    split; [rewrite !properties_cons, !properties_nil; simpl; by destruct (l !! "status")|].
    split; [apply Hshown; rewrite !properties_cons; simpl;
            by destruct (l !! "id"), (l !! "from_id"), (l !! "to_id"),
                 (l !! "label" ?? None)|].
    split; [apply Hshown; rewrite !properties_cons, !properties_nil; simpl;
            by destruct (l !! "id"), (l !! "from_id"), (l !! "to_id"),
                 (l !! "label" ?? None), (l !! "from_handle" ?? None)|].
    split; [apply Hshown; rewrite !properties_cons, !properties_nil; simpl;
            by destruct (l !! "id"), (l !! "from_id"), (l !! "to_id"),
                 (l !! "label" ?? None), (l !! "from_handle" ?? None),
                 (l !! "to_handle" ?? None)|].
    rewrite !properties_cons, !properties_nil; simpl.
    by destruct (l !! "id"), (l !! "from_id"), (l !! "to_id"), (l !! "label" ?? None),
         (l !! "from_handle" ?? None), (l !! "to_handle" ?? None).
Qed.

End more_routes_facts.

(** * The client and the routes together *)

Section client_facts.
Context `{Zod.Pattern}.

Implicit Types (r l d : gmap string val).

Lemma JSON_number_finite f :
  PrimFloat.is_finite f = true →
  ∃ f', Topology.JSON_number f = Num f' ∧ PrimFloat.is_nan f' = false.
Proof.
  unfold Topology.JSON_number, PrimFloat.is_finite. intros Hf. rewrite Hf.
  destruct (PrimFloat.is_zero f); [by exists 0%float|]. exists f. split; [done|].
  apply negb_true_iff, orb_false_iff in Hf. by destruct Hf.
Qed.

Lemma JSON_number_not_finite f :
  PrimFloat.is_finite f = false → Topology.JSON_number f = Null.
Proof. unfold Topology.JSON_number. by intros ->. Qed.

(** X19. Dropping a node saves where it is. On a store that satisfies its
    constraints, when the node has the id of a device row and its position
    is finite, the one request of [onNodeDragStop] is answered 200 with the
    updated row: [x] and [y] hold the position as JSON carries it (-0 as 0),
    every other column holds what it held, and no other row changes. *)
Theorem onNodeDragStop_saved (g : Pg.defaults) (s : Pg.store) (node : Canvas.FlowNode.t)
    (row : gmap string val) :
  Pg.consistent s = true →
  Zod.is_uuid (Canvas.FlowNode.id node) = true →
  row ∈ Pg.devices s → row !! "id" = Some (Str (Canvas.FlowNode.id node)) →
  PrimFloat.is_finite (Canvas.x (Canvas.FlowNode.position node)) = true →
  PrimFloat.is_finite (Canvas.y (Canvas.FlowNode.position node)) = true →
  ∃ req before after row',
    TopologyCanvas.onNodeDragStop node = [Canvas.api req]
    ∧ Pg.devices s = before ++ row :: after
    ∧ routes g req s
      = ({| Pg.devices := before ++ row' :: after; Pg.links := Pg.links s |},
         {| status := 200; sent := json (Some (Obj row')) |})
    ∧ row' !! "x" = Some (Topology.JSON_number (Canvas.x (Canvas.FlowNode.position node)))
    ∧ row' !! "y" = Some (Topology.JSON_number (Canvas.y (Canvas.FlowNode.position node)))
    ∧ ∀ k, k ∉ ["x"; "y"] → row' !! k = row !! k.
Proof.
  intros Hs Huuid Hrow Hid Hfx Hfy.
  destruct (JSON_number_finite _ Hfx) as (x & Hx & Hnx).
  destruct (JSON_number_finite _ Hfy) as (y & Hy & Hny).
  unfold TopologyCanvas.onNodeDragStop, Topology.patchDevicePosition. rewrite Hx, Hy.
  destruct (patch_devices_id_position_valid g s (Canvas.FlowNode.id node)
              (properties [("x", Some (Num x)); ("y", Some (Num y))]) x y row)
    as (before & after & Hd & Hr); try done.
  eexists _, before, after, (<["y" := Num y]> (<["x" := Num x]> row)).
  split; [reflexivity|]. split; [done|]. split; [exact Hr|].
  split; [by rewrite lookup_insert_ne, lookup_insert_eq|].
  split; [by rewrite lookup_insert_eq|].
  intros k Hk. rewrite !lookup_insert_ne; [done| |]; intros <-; apply Hk; compute_done.
Qed.

Ltac find_in_shape :=
  cbv [deviceCreateSchema devicePositionSchema Zod.shape];
  repeat first [apply list_elem_of_here | apply list_elem_of_further].

Lemma post_devices_invalid g s m k t c :
  (k, t) ∈ Zod.shape deviceCreateSchema → t (m !! k) = inl c →
  (routes g (POST_devices (Obj m)) s).1 = s
  ∧ status (routes g (POST_devices (Obj m)) s).2 = 400%nat.
Proof.
  intros Hk Ht. destruct (safeParse_failure deviceCreateSchema m k t c Hk Ht) as [error He].
  unfold routes, post_devices. by rewrite He.
Qed.

Lemma patch_devices_id_position_invalid g s id m k t c :
  (k, t) ∈ Zod.shape devicePositionSchema → t (m !! k) = inl c →
  (routes g (PATCH_devices_id_position id (Obj m)) s).1 = s
  ∧ status (routes g (PATCH_devices_id_position id (Obj m)) s).2 = 400%nat.
Proof.
  intros Hk Ht. destruct (safeParse_failure devicePositionSchema m k t c Hk Ht) as [error He].
  unfold routes, patch_devices_id_position, Zod.safeParse_uuid.
  destruct (Zod.is_uuid id); [|done]. by rewrite He.
Qed.



(** What [createDevice] sends, for a payload with a name of two characters
    or more and finite numbers: an object that the validator accepts, with
    the fields of the payload. *)
Lemma createDevice_valid (payload : Topology.DevicePayload) :
  (2 ≤ String.length (Topology.name payload))%nat →
  (∀ f, Topology.x payload = Some f → PrimFloat.is_finite f = true) →
  (∀ f, Topology.y payload = Some f → PrimFloat.is_finite f = true) →
  ∃ m data,
    Topology.createDevice payload = POST_devices (Obj m)
    ∧ Zod.safeParse deviceCreateSchema (Obj m) = Zod.success data
    ∧ m !! "name" = Some (Str (Topology.name payload))
    ∧ m !! "type" = Some (Str (Canvas.DeviceType_literal (Topology.type payload)))
    ∧ m !! "ip" = Str <$> Topology.ip payload
    ∧ m !! "status"
      = (λ st, Str (Canvas.DeviceStatus_literal st)) <$> Topology.status payload
    ∧ m !! "x" = Topology.JSON_number <$> Topology.x payload
    ∧ m !! "y" = Topology.JSON_number <$> Topology.y payload.
Proof.
  destruct payload as [name ty ip st x y]. cbn [Topology.name Topology.x Topology.y].
  intros Hlen%Nat.leb_le Hx Hy.
  assert (∃ jx, Topology.JSON_number <$> x = jx
                ∧ (jx = None ∨ ∃ f, jx = Some (Num f) ∧ PrimFloat.is_nan f = false))
    as (jx & Hjx & Hjx').
  { destruct x as [f|]; [|by eauto].
    destruct (JSON_number_finite f (Hx f eq_refl)) as (f' & Hf & Hn).
    eexists. split; [done|]. right. exists f'. simpl. by rewrite Hf. }
  assert (∃ jy, Topology.JSON_number <$> y = jy
                ∧ (jy = None ∨ ∃ f, jy = Some (Num f) ∧ PrimFloat.is_nan f = false))
    as (jy & Hjy & Hjy').
  { destruct y as [f|]; [|by eauto].
    destruct (JSON_number_finite f (Hy f eq_refl)) as (f' & Hf & Hn).
    eexists. split; [done|]. right. exists f'. simpl. by rewrite Hf. }
  unfold Topology.createDevice, object.
  cbn [Topology.name Topology.type Topology.ip Topology.status Topology.x Topology.y].
  rewrite Hjx, Hjy. clear Hjx Hjy Hx Hy.
  set (lit := Canvas.DeviceType_literal ty).
  assert (lit ∈ ["hub"; "switch"; "router"; "ap"; "server"]) as Hty
    by (subst lit; destruct ty; compute_done).
  assert (∀ st', Canvas.DeviceStatus_literal st' ∈ ["up"; "warn"; "down"]) as Hst
    by (intros []; compute_done).
  destruct Hjx' as [->|(fx & -> & Hnx)], Hjy' as [->|(fy & -> & Hny)],
    ip as [ip|], st as [[]|];
    (eexists _, _; split; [reflexivity|]; split; [|by repeat split]);
    apply safeParse_success; (eexists; split; [done|]; split; [|done]);
    cbv [deviceCreateSchema Zod.shape];
    repeat apply Forall_cons_2; try apply Forall_nil_2; cbn [fst snd];
    match goal with
    | |- ∃ o, ?t (?m !! ?k) = inr o =>
        let v := eval vm_compute in (m !! k) in
        change (m !! k) with v
    end;
    unfold Zod.optional, Zod.string, Zod.enum, Zod.number;
    rewrite ?Hlen, ?Hnx, ?Hny, ?bool_decide_true by done; by eexists.
Qed.


(** X22. Changing a status from the panel. With nothing selected no request
    is sent. On a store that satisfies its constraints, when the selected
    node (the selected edge) has the id of a device row (of a link row), the
    one request of [changeNodeStatus] (of [changeEdgeStatus]) is answered 200
    with the updated row: its [status] is the one chosen, every other column
    holds what it held, and no other row changes. In particular the request
    for a link is never refused by the unique index. *)
Theorem change_status_accepted (g : Pg.defaults) (s : Pg.store) (st : Canvas.state)
    (status : Canvas.DeviceStatus) (row : gmap string val) :
  Pg.consistent s = true →
  (Canvas.selectedNode st = None → TopologyCanvas.changeNodeStatus status st = [])
  ∧ (Canvas.selectedEdge st = None → TopologyCanvas.changeEdgeStatus status st = [])
  ∧ (∀ n, Canvas.selectedNode st = Some n →
       Zod.is_uuid (Canvas.FlowNode.id n) = true →
       row ∈ Pg.devices s → row !! "id" = Some (Str (Canvas.FlowNode.id n)) →
       ∃ req before after row',
         TopologyCanvas.changeNodeStatus status st = [Canvas.api req]
         ∧ Pg.devices s = before ++ row :: after
         ∧ routes g req s
           = ({| Pg.devices := before ++ row' :: after; Pg.links := Pg.links s |},
              {| status := 200; sent := json (Some (Obj row')) |})
         ∧ row' !! "status" = Some (Str (Canvas.DeviceStatus_literal status))
         ∧ ∀ k, k ≠ "status" → row' !! k = row !! k)
  ∧ (∀ e, Canvas.selectedEdge st = Some e →
       Zod.is_uuid (Canvas.FlowEdge.id e) = true →
       row ∈ Pg.links s → row !! "id" = Some (Str (Canvas.FlowEdge.id e)) →
       ∃ req before after row',
         TopologyCanvas.changeEdgeStatus status st = [Canvas.api req]
         ∧ Pg.links s = before ++ row :: after
         ∧ routes g req s
           = ({| Pg.devices := Pg.devices s; Pg.links := before ++ row' :: after |},
              {| status := 200; sent := json (Some (Obj row')) |})
         ∧ row' !! "status" = Some (Str (Canvas.DeviceStatus_literal status))
         ∧ ∀ k, k ≠ "status" → row' !! k = row !! k).
Proof.
  intros Hs.
  split; [by unfold TopologyCanvas.changeNodeStatus; intros ->|].
  split; [by unfold TopologyCanvas.changeEdgeStatus; intros ->|].
  set (lit := Canvas.DeviceStatus_literal status).
  split.
  - intros n Hn Huuid Hrow Hid. unfold TopologyCanvas.changeNodeStatus. rewrite Hn.
    unfold Topology.patchDeviceStatus. fold lit.
    assert (Zod.safeParse deviceUpdateSchema (object [("status", Some (Str lit))])
            = Zod.success [("status", Str lit)]) as Hparse
      by (subst lit; by destruct status).
    destruct (patch_devices_id_valid g s (Canvas.FlowNode.id n)
                (properties [("status", Some (Str lit))]) [("status", Str lit)] row)
      as (before & after & row' & Hd & Hset & Hr); try done.
    destruct (device_setParts_lookup _ _ _ _ Hparse Hset) as [Hnew Hold].
    eexists _, before, after, row'. split; [reflexivity|]. split; [done|].
    split; [exact Hr|]. split; [apply Hnew; [compute_done|reflexivity]|].
    intros k Hk. apply Hold. right.
    unfold properties. simpl. by rewrite lookup_insert_ne.
  - intros e He Huuid Hrow Hid. unfold TopologyCanvas.changeEdgeStatus. rewrite He.
    unfold Topology.patchLinkStatus. fold lit.
    destruct (patch_links_id_status g s (Canvas.FlowEdge.id e) status row)
      as (before & after & Hd & Hr); try done.
    eexists _, before, after, (<["status" := Str lit]> row).
    split; [reflexivity|]. split; [done|]. split; [exact Hr|].
    split; [by rewrite lookup_insert_eq|].
    intros k Hk. by rewrite lookup_insert_ne.
Qed.

End client_facts.

(** * The canvas *)

Section more_canvas_facts.

Lemma selectedNode_found st (n : Canvas.FlowNode.t) :
  Canvas.selectedNodeId st = Some (Canvas.FlowNode.id n) → n ∈ Canvas.nodes st →
  ∃ n', Canvas.selectedNode st = Some n' ∧ Canvas.FlowNode.id n' = Canvas.FlowNode.id n
        ∧ n' ∈ Canvas.nodes st.
Proof.
  intros Hid Hn. unfold Canvas.selectedNode. rewrite Hid. simpl.
  destruct (list_find_elem_of (λ x, Canvas.FlowNode.id x = Canvas.FlowNode.id n)
              (Canvas.nodes st) n Hn eq_refl) as [[i n'] Hfind].
  rewrite Hfind. simpl. apply list_find_Some in Hfind as (Hi & Hn' & _).
  exists n'. split; [done|]. split; [done|]. by eapply list_elem_of_lookup_2.
Qed.

Lemma selectedEdge_found st (e : Canvas.FlowEdge.t) :
  Canvas.selectedEdgeId st = Some (Canvas.FlowEdge.id e) → e ∈ Canvas.edges st →
  ∃ e', Canvas.selectedEdge st = Some e' ∧ Canvas.FlowEdge.id e' = Canvas.FlowEdge.id e
        ∧ e' ∈ Canvas.edges st.
Proof.
  intros Hid He. unfold Canvas.selectedEdge. rewrite Hid. simpl.
  destruct (list_find_elem_of (λ x, Canvas.FlowEdge.id x = Canvas.FlowEdge.id e)
              (Canvas.edges st) e He eq_refl) as [[i e'] Hfind].
  rewrite Hfind. simpl. apply list_find_Some in Hfind as (Hi & He' & _).
  exists e'. split; [done|]. split; [done|]. by eapply list_elem_of_lookup_2.
Qed.

(** X23. What the delete dialog deletes, after React Flow has reported a
    selection. If a node of the canvas is selected, the one request is
    DELETE /devices/:id for that node, whether or not an edge is selected
    too. If no node but an edge of the canvas is selected, it is DELETE
    /links/:id for that edge. If nothing is selected no DELETE is sent: a
    toast says so, the dialog is closed and the topology is asked for again.
    Before the answer of a DELETE the hooks are as they were. *)
Theorem confirmDelete_after_selection (h : TopologyCanvas.hooks)
    (params : Canvas.OnSelectionChangeParams) (st : Canvas.state) :
  TopologyCanvas.canvas h = Canvas.onSelectionChange params st →
  (∀ n, head (Canvas.selected_nodes params) = Some n → n ∈ Canvas.nodes st →
     TopologyCanvas.confirmDelete h
     = (h, [Canvas.api (DELETE_devices_id (Canvas.FlowNode.id n))]))
  ∧ (Canvas.selected_nodes params = [] →
     ∀ e, head (Canvas.selected_edges params) = Some e → e ∈ Canvas.edges st →
       TopologyCanvas.confirmDelete h
       = (h, [Canvas.api (DELETE_links_id (Canvas.FlowEdge.id e))]))
  ∧ (Canvas.selected_nodes params = [] → Canvas.selected_edges params = [] →
     (TopologyCanvas.confirmDelete h).2
     = [Canvas.showToast "Nada selecionado."; Canvas.api GET_topology]
     ∧ TopologyCanvas.openConfirmDelete (TopologyCanvas.confirmDelete h).1 = false
     ∧ TopologyCanvas.loading (TopologyCanvas.confirmDelete h).1 = true).
Proof.
  intros Hc. unfold TopologyCanvas.confirmDelete. split; [|split].
  - intros n Hhead Hn.
    destruct (selectedNode_found (TopologyCanvas.canvas h) n) as (n' & -> & Hid & _).
    + rewrite Hc. simpl. destruct (Canvas.selected_nodes params); by simplify_eq/=.
    + by rewrite Hc.
    + unfold Topology.deleteDevice. by rewrite Hid.
  - intros Hnone e Hhead He.
    assert (Canvas.selectedNode (TopologyCanvas.canvas h) = None) as ->.
    { unfold Canvas.selectedNode. rewrite Hc. simpl. by rewrite Hnone. }
    destruct (selectedEdge_found (TopologyCanvas.canvas h) e) as (e' & -> & Hid & _).
    + rewrite Hc. simpl. destruct (Canvas.selected_edges params); by simplify_eq/=.
    + by rewrite Hc.
    + unfold Topology.deleteLink. by rewrite Hid.
  - intros Hnone Hnone'.
    assert (Canvas.selectedNode (TopologyCanvas.canvas h) = None) as ->.
    { unfold Canvas.selectedNode. rewrite Hc. simpl. by rewrite Hnone. }
    assert (Canvas.selectedEdge (TopologyCanvas.canvas h) = None) as ->.
    { unfold Canvas.selectedEdge. rewrite Hc. simpl. by rewrite Hnone'. }
    done.
Qed.


(** X25. Zooming to a search result selects it and nothing else. For an id
    that some node of the canvas has, [zoomToNode] selects the first node
    with that id, leaves no edge selected, asks React Flow to show that node,
    and keeps the nodes, the edges, the link form and the query; every node
    of the search results has such an id. For an id that no node has it
    changes nothing. *)
Theorem zoomToNode_selects (id : string) (st : Canvas.state) :
  let st' := (TopologyCanvas.zoomToNode id st).1 in
  (Canvas.nodes st' = Canvas.nodes st ∧ Canvas.edges st' = Canvas.edges st
   ∧ Canvas.linkFrom st' = Canvas.linkFrom st ∧ Canvas.linkTo st' = Canvas.linkTo st
   ∧ Canvas.linkLabel st' = Canvas.linkLabel st ∧ Canvas.query st' = Canvas.query st)
  ∧ ((∃ n, n ∈ Canvas.nodes st ∧ Canvas.FlowNode.id n = id) →
     ∃ n', (TopologyCanvas.zoomToNode id st).2 = Some n'
           ∧ Canvas.selectedNode st' = Some n'
           ∧ Canvas.FlowNode.id n' = id ∧ n' ∈ Canvas.nodes st
           ∧ Canvas.selectedEdge st' = None)
  ∧ ((∀ n, n ∈ Canvas.nodes st → Canvas.FlowNode.id n ≠ id) →
     TopologyCanvas.zoomToNode id st = (st, None))
  ∧ (∀ n, n ∈ Canvas.filteredNodes st → n ∈ Canvas.nodes st).
Proof.
  intros st'. subst st'. unfold TopologyCanvas.zoomToNode.
  destruct (list_find (λ x, Canvas.FlowNode.id x = id) (Canvas.nodes st)) as [[i n']|] eqn:Hf.
  - pose proof Hf as (Hi & Hid & _)%list_find_Some. cbn [fst snd].
    split; [done|]. split; [|split].
    + intros _. exists n'. split; [done|]. split.
      * unfold Canvas.selectedNode. cbn [Canvas.selectedNodeId Canvas.nodes mbind option_bind].
        by rewrite Hf.
      * split; [done|]. split; [by eapply list_elem_of_lookup_2|]. done.
    + intros Hno. destruct (Hno n'); [by eapply list_elem_of_lookup_2|done].
    + intros n. unfold Canvas.filteredNodes. case_bool_decide; [by intros ?%elem_of_nil|].
      by intros [_ ?]%list_elem_of_filter.
  - cbn [fst snd]. split; [done|]. split; [|split].
    + intros (n & Hn & Hid). apply list_find_None in Hf.
      rewrite Forall_forall in Hf. by destruct (Hf n Hn).
    + done.
    + intros n. unfold Canvas.filteredNodes. case_bool_decide; [by intros ?%elem_of_nil|].
      by intros [_ ?]%list_elem_of_filter.
Qed.

(** X26. A status chosen in the panel is drawn as a reload would draw it.
    What [changeEdgeStatus] hands to [setEdges], on edges that [toFlowEdge]
    made, is what [toFlowEdge] makes of the same edges once the selected one
    has the new status: the colour of the stroke, its width and whether the
    edge is animated all follow the status, and the other edges are as they
    were. *)
Theorem changeEdgeStatus_as_reloaded (selectedEdge : string) (status : Canvas.DeviceStatus)
    (edges : list Topology.TopologyEdge) :
  TopologyCanvas.changeEdgeStatus_setEdges selectedEdge status
    (TopologyCanvas.toFlowEdge <$> edges)
  = TopologyCanvas.toFlowEdge
      <$> ((λ e, if bool_decide (Topology.id e = selectedEdge)
                 then {| Topology.id := Topology.id e;
                         Topology.source := Topology.source e;
                         Topology.target := Topology.target e;
                         Topology.label := Topology.label e;
                         Topology.data := Some (Some status);
                         Topology.sourceHandle := Topology.sourceHandle e;
                         Topology.targetHandle := Topology.targetHandle e |}
                 else e) <$> edges).
Proof.
  unfold TopologyCanvas.changeEdgeStatus_setEdges. rewrite <- !list_fmap_compose.
  apply list_fmap_ext. intros _ e _. simpl.
  destruct (decide (Topology.id e = selectedEdge)) as [Hid|Hid].
  - rewrite bool_decide_false, bool_decide_true by (by try intros ?).
    unfold TopologyCanvas.toFlowEdge. simpl.
    by destruct status, (Topology.data e) as [[[]|]|].
  - by rewrite bool_decide_true, bool_decide_false.
Qed.

(** X27. The theme survives a reload. After the page is mounted the theme
    is "dark" exactly when the stored item was "dark"; after the mount and
    after every click the stored item names the theme and the root element
    has the class "dark" exactly for the dark theme, so that mounting the
    page again gives the same theme and the same document; and two clicks
    bring back the state of the page. *)
Theorem theme_persisted (doc : TopologyPage.document) :
  let stored (p : TopologyPage.Theme * TopologyPage.document) :=
    TopologyPage.localStorage_theme p.2 = Some (TopologyPage.Theme_literal p.1)
    ∧ (TopologyPage.classList_dark p.2 = true ↔ p.1 = TopologyPage.dark) in
  ((TopologyPage.mount doc).1 = TopologyPage.dark
   ↔ TopologyPage.localStorage_theme doc = Some "dark")
  ∧ stored (TopologyPage.mount doc)
  ∧ (∀ p, stored (TopologyPage.onClick p))
  ∧ (∀ p, stored p → TopologyPage.mount p.2 = p)
  ∧ (∀ p, stored p → TopologyPage.onClick (TopologyPage.onClick p) = p).
Proof.
  intros stored. subst stored. cbn beta.
  assert (∀ p : TopologyPage.Theme * TopologyPage.document,
            TopologyPage.localStorage_theme p.2 = Some (TopologyPage.Theme_literal p.1)
            ∧ (TopologyPage.classList_dark p.2 = true ↔ p.1 = TopologyPage.dark) →
            p = (p.1, TopologyPage.effect_theme p.1 p.2)) as Heta.
  { intros [[] [saved cls]] [Hs [Hc1 Hc2]]; simpl in *; subst saved;
      unfold TopologyPage.effect_theme; simpl; do 2 f_equal; destruct cls; try done;
      try (by specialize (Hc1 eq_refl)); by specialize (Hc2 eq_refl). }
  split; [|split; [|split; [|split]]].
  - unfold TopologyPage.mount. case_bool_decide; simpl; by split.
  - unfold TopologyPage.mount. case_bool_decide; simpl; by split.
  - intros [[] doc']; simpl; by split.
  - intros p Hp. rewrite (Heta p Hp) at 2. destruct Hp as [Hs _].
    unfold TopologyPage.mount. rewrite Hs. by destruct p as [[] ?].
  - intros [[] [saved cls]] [Hs [Hc1 Hc2]]; simpl in *; subst saved;
      unfold TopologyPage.onClick, TopologyPage.effect_theme; simpl; do 2 f_equal;
      destruct cls; try done; try (by specialize (Hc1 eq_refl)); by specialize (Hc2 eq_refl).
Qed.

End more_canvas_facts.

(** * Loading the topology and the link form *)

Section load_facts.

(** X29. The link form after the topology is loaded. The nodes of the
    canvas are the nodes of the answer, in its order. With fewer than two
    nodes in the answer the form has no source or no target, and
    [submitCreateLink] only shows "Selecione origem e destino."; with two
    nodes or more it is set from the first to the second: when their ids are
    not empty and differ, the one request is POST /links from the first to
    the second with status "up", and when they are equal the form refuses. *)
Theorem load_sets_link_form (topo : Topology.TopologyResponse) (h : TopologyCanvas.hooks) :
  let st := TopologyCanvas.canvas (TopologyCanvas.load_resolved topo h) in
  Canvas.FlowNode.id <$> Canvas.nodes st = Topology.TopologyNode.id <$> Topology.nodes topo
  ∧ TopologyCanvas.loading (TopologyCanvas.load_resolved topo h) = false
  ∧ ((length (Topology.nodes topo) < 2)%nat →
     Canvas.submitCreateLink st = [Canvas.showToast "Selecione origem e destino."])
  ∧ (∀ a b rest, Topology.nodes topo = a :: b :: rest →
       Canvas.linkFrom st = Topology.TopologyNode.id a ∧ Canvas.linkTo st = Topology.TopologyNode.id b
       ∧ (Topology.TopologyNode.id a ≠ "" → Topology.TopologyNode.id b ≠ "" → Topology.TopologyNode.id a ≠ Topology.TopologyNode.id b →
          ∃ label,
            Canvas.submitCreateLink st
            = [Canvas.api
                 (POST_links
                    (object [ ("fromId", Some (Str (Topology.TopologyNode.id a)));
                              ("toId", Some (Str (Topology.TopologyNode.id b)));
                              ("label", label);
                              ("status", Some (Str "up")) ]))])
       ∧ (Topology.TopologyNode.id a = Topology.TopologyNode.id b → ∀ req, Canvas.api req ∉ Canvas.submitCreateLink st)).
Proof.
  intros st. subst st. split; [|split; [done|split]].
  - unfold TopologyCanvas.load_resolved. cbn [TopologyCanvas.canvas Canvas.nodes].
    rewrite <- list_fmap_compose. by apply list_fmap_ext.
  - intros Hlen. unfold Canvas.submitCreateLink, TopologyCanvas.load_resolved.
    cbn [TopologyCanvas.canvas Canvas.linkFrom Canvas.linkTo].
    destruct (Topology.nodes topo) as [|a [|b rest]]; simpl in *; try lia; try done.
    by rewrite orb_true_r.
  - intros a b rest Hnodes. unfold Canvas.submitCreateLink, TopologyCanvas.load_resolved.
    cbn [TopologyCanvas.canvas Canvas.linkFrom Canvas.linkTo Canvas.linkLabel].
    rewrite Hnodes. cbn [fmap list_fmap lookup list_lookup option_fmap option_map default
                         Canvas.FlowNode.id].
    split; [done|]. split; [done|]. split.
    + intros Ha Hb Hab. rewrite !bool_decide_false by done. cbn [orb]. by eexists.
    + intros Hab req. rewrite Hab. case_bool_decide; simpl.
      * by intros [=]%list_elem_of_singleton.
      * rewrite bool_decide_true by done. by intros [=]%list_elem_of_singleton.
Qed.

End load_facts.

(** * More runs on the small inventory *)

Lemma cabled_consistent : Pg.consistent cabled = true.
Proof. vm_compute. reflexivity. Qed.

Lemma unknown_id_devices r : r ∈ Pg.devices inventory → r !! "id" ≠ Some (Str unknown_id).
Proof.
  intros Hr. by repeat (apply elem_of_cons in Hr as [->|Hr]; [vm_compute; discriminate|]);
    apply elem_of_nil in Hr.
Qed.

Lemma unknown_id_links r : r ∈ Pg.links inventory → r !! "id" ≠ Some (Str unknown_id).
Proof.
  intros Hr. by repeat (apply elem_of_cons in Hr as [->|Hr]; [vm_compute; discriminate|]);
    apply elem_of_nil in Hr.
Qed.

(** X1 on the inventory: PATCH /devices/:id of RT1 with {ip: null}. *)
Lemma error_leaves_store_unchanged_run :
  (400 ≤ status (routes (H := hyphenated) next
                   (PATCH_devices_id rt1_id (Obj (properties [("ip", Some Null)])))
                   inventory).2)%nat
  ∧ (routes (H := hyphenated) next
       (PATCH_devices_id rt1_id (Obj (properties [("ip", Some Null)]))) inventory).1
    = inventory.
Proof.
  assert (400 ≤ status (routes (H := hyphenated) next
                          (PATCH_devices_id rt1_id (Obj (properties [("ip", Some Null)])))
                          inventory).2)%nat as Hst by (vm_compute; lia).
  split; [exact Hst|].
  apply (error_leaves_store_unchanged (H := hyphenated)). right. exact Hst.
Defined.

(** X2 on the inventory: DELETE /devices/:id of SW1. *)
Lemma consistent_preserved_run :
  Pg.consistent inventory = true
  ∧ Pg.consistent (routes (H := hyphenated) next (DELETE_devices_id sw1_id) inventory).1 = true.
Proof.
  split; [vm_compute; reflexivity|].
  apply (consistent_preserved (H := hyphenated)). vm_compute; reflexivity.
Defined.






(** X8 on the inventory: PATCH /links/:id of the uplink with {label:
    "CORE"} keeps its [from_id]. *)
Lemma immutable_columns_run :
  Pg.unique Pg.pkey (Pg.devices inventory) = true
  ∧ Pg.unique Pg.pkey (Pg.links inventory) = true
  ∧ keeps_value "from_id" (Pg.links inventory)
      (Pg.links (routes (H := hyphenated) next
                   (PATCH_links_id uplink_id (Obj (properties [("label", Some (Str "CORE"))])))
                   inventory).1).
Proof.
  split; [vm_compute; reflexivity|]. split; [vm_compute; reflexivity|].
  destruct (immutable_columns (H := hyphenated) next
              (PATCH_links_id uplink_id (Obj (properties [("label", Some (Str "CORE"))])))
              inventory) as [_ Hlinks]; [vm_compute; reflexivity..|].
  apply Hlinks. compute_done.
Defined.

(** X9 on the inventory: GET /devices/:id of RT1. *)
Lemma get_devices_id_found_run :
  Pg.unique Pg.pkey (Pg.devices inventory) = true
  ∧ routes (H := hyphenated) next (GET_devices_id rt1_id) inventory
    = (inventory, {| status := 200; sent := json (Some (Obj rt1)) |}).
Proof.
  split; [vm_compute; reflexivity|].
  apply (get_devices_id_found (H := hyphenated) next inventory rt1_id rt1).
  - vm_compute; reflexivity.
  - vm_compute; reflexivity.
  - apply list_elem_of_further, list_elem_of_here.
  - vm_compute; reflexivity.
Defined.

(** X11 on the inventory: POST /devices {name: "SW2", type: "switch"}, then
    GET /devices/:id of the id that was drawn. *)
Lemma post_devices_then_get_run :
  status (routes (H := hyphenated) next
            (POST_devices (Obj (properties [("name", Some (Str "SW2"));
                                            ("type", Some (Str "switch"))])))
            inventory).2 = 201%nat
  ∧ status (routes (H := hyphenated) next (GET_devices_id (Pg.gen_random_uuid next))
              (routes (H := hyphenated) next
                 (POST_devices (Obj (properties [("name", Some (Str "SW2"));
                                                 ("type", Some (Str "switch"))])))
                 inventory).1).2 = 200%nat.
Proof.
  split; [vm_compute; reflexivity|].
  rewrite (post_devices_then_get (H := hyphenated) next next); [reflexivity|..];
    vm_compute; reflexivity.
Defined.

(** X12 on the inventory: POST /links from RT1 to SW1, then DELETE
    /links/:id of the id that was drawn. *)
Lemma create_then_delete_run :
  status (routes (H := hyphenated) next
            (POST_links (Obj (properties [("fromId", Some (Str rt1_id));
                                          ("toId", Some (Str sw1_id))])))
            inventory).2 = 201%nat
  ∧ routes (H := hyphenated) next (DELETE_links_id (Pg.gen_random_uuid next))
      (routes (H := hyphenated) next
         (POST_links (Obj (properties [("fromId", Some (Str rt1_id));
                                       ("toId", Some (Str sw1_id))])))
         inventory).1
    = (inventory, {| status := 204; sent := send |}).
Proof.
  split; [vm_compute; reflexivity|].
  destruct (create_then_delete (H := hyphenated) next next
              (Obj (properties [("fromId", Some (Str rt1_id)); ("toId", Some (Str sw1_id))]))
              inventory) as [_ Hlinks]; [vm_compute; reflexivity..|].
  apply Hlinks. vm_compute; reflexivity.
Defined.

(** X13 on the inventory: DELETE /devices/:id of SW1, twice. *)
Lemma deleted_is_not_found_run :
  Zod.is_uuid (Pattern := hyphenated) sw1_id = true
  ∧ status (routes (H := hyphenated) next (DELETE_devices_id sw1_id) inventory).2 = 204%nat
  ∧ status (routes (H := hyphenated) next (DELETE_devices_id sw1_id)
              (routes (H := hyphenated) next (DELETE_devices_id sw1_id) inventory).1).2
    = 404%nat.
Proof.
  split; [vm_compute; reflexivity|]. split; [vm_compute; reflexivity|].
  destruct (deleted_is_not_found (H := hyphenated) next next inventory sw1_id)
    as (_ & Hdel & _); [vm_compute; reflexivity|].
  cbv zeta in Hdel. by rewrite Hdel.
Defined.

(** X18 on two links that leave SW1 by the same handle: moving the second
    onto the target handle of the first is answered 500. *)
Lemma patch_links_id_duplicate_run :
  Pg.consistent cabled = true
  ∧ routes (H := hyphenated) next
      (PATCH_links_id cable_ac_id (Obj {[ "toHandle" := Str "b" ]})) cabled
    = (cabled, internal_server_error).
Proof.
  split; [vm_compute; reflexivity|].
  apply (patch_links_id_duplicate (H := hyphenated) next cabled cable_ac_id sw1_id rt1_id
           "a" "b" cable_ac cable_ab).
  - vm_compute; reflexivity.
  - vm_compute; reflexivity.
  - apply list_elem_of_further, list_elem_of_here.
  - vm_compute; reflexivity.
  - apply list_elem_of_here.
  - vm_compute; discriminate.
  - vm_compute; reflexivity.
  - vm_compute; reflexivity.
  - vm_compute; reflexivity.
  - vm_compute; reflexivity.
  - vm_compute; reflexivity.
  - vm_compute; reflexivity.
  - vm_compute; reflexivity.
Defined.


(** X16 on the inventory: PATCH /devices/:id of SW1 with {id: "x"}. *)
Lemma no_fields_to_update_run :
  Zod.is_uuid (Pattern := hyphenated) sw1_id = true
  ∧ routes (H := hyphenated) next (PATCH_devices_id sw1_id (Obj {[ "id" := Str "x" ]})) inventory
    = (inventory, {| status := 400; sent := message "No fields to update" |}).
Proof.
  split; [vm_compute; reflexivity|].
  destruct (no_fields_to_update (H := hyphenated) next inventory sw1_id {[ "id" := Str "x" ]})
    as [Hdev _]; [vm_compute; reflexivity|].
  apply Hdev. intros k Hk.
  by repeat (apply elem_of_cons in Hk as [->|Hk]; [vm_compute; reflexivity|]);
    apply elem_of_nil in Hk.
Defined.

(** X17 on the inventory: DELETE /devices/42. *)
Lemma invalid_id_run :
  Zod.is_uuid (Pattern := hyphenated) "42" = false
  ∧ routes (H := hyphenated) next (DELETE_devices_id "42") inventory
    = (inventory, {| status := 400; sent := message "Invalid id" |}).
Proof.
  split; [vm_compute; reflexivity|].
  apply (invalid_id (H := hyphenated) next inventory "42" Null); [vm_compute; reflexivity|].
  do 3 apply list_elem_of_further. apply list_elem_of_here.
Defined.

(** X19 on the inventory: SW1 is dropped where it is. *)
Lemma onNodeDragStop_saved_run :
  Pg.consistent inventory = true
  ∧ ∃ req before after row',
      TopologyCanvas.onNodeDragStop a_node = [Canvas.api req]
      ∧ Pg.devices inventory = before ++ sw1 :: after
      ∧ routes (H := hyphenated) next req inventory
        = ({| Pg.devices := before ++ row' :: after; Pg.links := Pg.links inventory |},
           {| status := 200; sent := json (Some (Obj row')) |})
      ∧ row' !! "x" = Some (Num 0%float).
Proof.
  split; [vm_compute; reflexivity|].
  destruct (onNodeDragStop_saved (H := hyphenated) next inventory a_node sw1)
    as (req & before & after & row' & Hreq & Hd & Hr & Hx & _).
  - vm_compute; reflexivity.
  - vm_compute; reflexivity.
  - apply list_elem_of_here.
  - vm_compute; reflexivity.
  - vm_compute; reflexivity.
  - vm_compute; reflexivity.
  - exists req, before, after, row'. repeat split; assumption.
Defined.



(** X22 on the inventory: "down" is chosen for SW1, which is selected. *)
Lemma change_status_accepted_run :
  Pg.consistent inventory = true
  ∧ ∃ req before after row',
      TopologyCanvas.changeNodeStatus Canvas.down selecting = [Canvas.api req]
      ∧ Pg.devices inventory = before ++ sw1 :: after
      ∧ routes (H := hyphenated) next req inventory
        = ({| Pg.devices := before ++ row' :: after; Pg.links := Pg.links inventory |},
           {| status := 200; sent := json (Some (Obj row')) |})
      ∧ row' !! "status" = Some (Str "down").
Proof.
  split; [vm_compute; reflexivity|].
  destruct (change_status_accepted (H := hyphenated) next inventory selecting Canvas.down sw1)
    as (_ & _ & Hnode & _); [vm_compute; reflexivity|].
  destruct (Hnode a_node) as (req & before & after & row' & Hreq & Hd & Hr & Hs & _).
  - vm_compute; reflexivity.
  - vm_compute; reflexivity.
  - apply list_elem_of_here.
  - vm_compute; reflexivity.
  - exists req, before, after, row'. repeat split; assumption.
Defined.

(** X23 on the canvas with SW1 and the uplink both selected: the device is
    what the dialog deletes. *)
Lemma confirmDelete_after_selection_run :
  TopologyCanvas.canvas form
  = Canvas.onSelectionChange
      {| Canvas.selected_nodes := [a_node]; Canvas.selected_edges := [an_edge] |} selecting
  ∧ TopologyCanvas.confirmDelete form = (form, [Canvas.api (DELETE_devices_id sw1_id)]).
Proof.
  split; [vm_compute; reflexivity|].
  destruct (confirmDelete_after_selection form
              {| Canvas.selected_nodes := [a_node]; Canvas.selected_edges := [an_edge] |}
              selecting) as [Hnode _]; [vm_compute; reflexivity|].
  apply (Hnode a_node); [reflexivity | apply list_elem_of_here].
Defined.

(** X28 on the inventory: the node of RT1 and the edge of the uplink. *)
Lemma get_topology_fields_run :
  Pg.check_row Pg.devices_columns rt1 = inr ()
  ∧ Pg.check_row Pg.links_columns uplink = inr ()
  ∧ ∃ o dt,
      node (Pg.select ["id"; "name"; "type"; "ip"; "status"; "x"; "y"] rt1) = Obj o
      ∧ o !! "data" = Some (Obj dt)
      ∧ dt !! "ip" = Some (Str "10.0.0.1")
      ∧ o !! "created_at" = None.
Proof.
  split; [vm_compute; reflexivity|]. split; [vm_compute; reflexivity|].
  destruct (get_topology_fields rt1 uplink)
    as [(o & p & dt & Ho & _ & _ & _ & _ & Hdata & _ & _ & _ & [_ Hip] & Hc) _];
    [vm_compute; reflexivity..|].
  exists o, dt. split; [exact Ho|]. split; [exact Hdata|].
  split; [apply Hip; vm_compute; reflexivity | exact Hc].
Defined.
